(** * EchoVision spatial guidance engine (backend/main.py)

    A shallow embedding of the guidance functions of [src/backend/main.py]:
    [_extract_targets], [_estimate_distance], [_calculate_precise_position],
    [_direction_for_targets], [_free_path_direction],
    [_nearest_obstacle_distance], [_analyze_obstacles],
    [_path_smoothing_instruction] and [_compute_guidance].

    Numbers are the kernel's binary64 floats, which is what a Python [float]
    is: [+], [-], [*], [/] and the comparisons are the IEEE 754 operations
    with round-to-nearest-even.  What Python adds on top (division by zero
    raises, [min]/[max] keep their first argument on ties and on NaN,
    [round] and [%.1f] round the exact decimal value half to even) is
    written out in module [Py].  Exceptions are an explicit error type. *)

From Stdlib Require Import Floats ZArith List String Ascii Bool Lia.
From Stdlib Require Import DecimalString Sorted Permutation.
From Stdlib Require Uint63.
Import ListNotations.

Set Warnings "-inexact-float".

Local Open Scope string_scope.

(** ** Python's run-time behaviour, as far as the engine uses it *)

Module Py.

(** The exceptions the guidance functions can raise. *)
Inductive exn : Type :=
| ZeroDivisionError
| KeyError (key : string)
| ValueError
| OverflowError.

Definition result (A : Type) : Type := (exn + A)%type.

Definition ret {A} (a : A) : result A := inr a.
Definition raise {A} (e : exn) : result A := inl e.

Definition bind {A B} (m : result A) (k : A -> result B) : result B :=
  match m with
  | inl e => inl e
  | inr a => k a
  end.

Declare Scope py_scope.
Delimit Scope py_scope with py.
Notation "x <- m ;; k" := (bind m (fun x => k))
  (at level 61, m at next level, right associativity) : py_scope.
Notation "' p <- m ;; k" := (bind m (fun v => let p := v in k))
  (at level 61, p pattern, m at next level, right associativity) : py_scope.

(** [for x in l: ...] with a body that may raise: the results in order, or
    the first exception. *)
Fixpoint mapM {A B} (f : A -> result B) (l : list A) : result (list B) :=
  match l with
  | [] => ret []
  | a :: l' =>
      bind (f a) (fun b => bind (mapM f l') (fun bs => ret (b :: bs)))
  end.

(** *** Floats *)

(** [a / b] on floats: ZeroDivisionError exactly when [b == 0] (both zeros). *)
Definition div (a b : float) : result float :=
  if (b =? 0)%float then raise ZeroDivisionError else ret (a / b)%float.

(** [min(a, b)]: the first argument unless the second is strictly smaller. *)
Definition min (a b : float) : float := if (b <? a)%float then b else a.

(** [max(a, b)]: the first argument unless the second is strictly larger. *)
Definition max (a b : float) : float := if (a <? b)%float then b else a.

(** [sum(l)]: left to right from the integer [0] (CPython up to 3.11; later
    versions carry a compensation term along). *)
Definition sum (l : list float) : float :=
  fold_left (fun acc v => (acc + v)%float) l 0%float.

(** [float(n)] for a length. *)
Definition of_nat (n : nat) : float :=
  SF2Prim (binary_normalize prec emax (Z.of_nat n) 0 false).

(** The exact value of [n * 2^e] rounded to an integer, ties to even. *)
Definition round_half_even (n e : Z) : Z :=
  if (0 <=? e)%Z then (n * 2 ^ e)%Z
  else
    let d := (2 ^ (- e))%Z in
    let q := (n / d)%Z in
    let r := (n mod d)%Z in
    match (2 * r ?= d)%Z with
    | Lt => q
    | Gt => (q + 1)%Z
    | Eq => if Z.even q then q else (q + 1)%Z
    end.

(** Sign and magnitude of [k * x] rounded to an integer, ties to even;
    [None] for NaN and the infinities. *)
Definition scaled_round (k : positive) (x : float) : option (bool * Z) :=
  match Prim2SF x with
  | S754_zero s => Some (s, 0%Z)
  | S754_finite s m e => Some (s, round_half_even (Zpos (k * m)) e)
  | S754_infinity _ | S754_nan => None
  end.

(** [round(x)] without digits: an integer; NaN and the infinities raise. *)
Definition round0 (x : float) : result Z :=
  match Prim2SF x with
  | S754_nan => raise ValueError
  | S754_infinity _ => raise OverflowError
  | _ =>
      match scaled_round 1 x with
      | Some (s, n) => ret (if s then (- n)%Z else n)
      | None => raise ValueError
      end
  end.

(** [round(x, 1)]: the double nearest to the one-decimal number nearest to
    [x]; NaN and the infinities are returned unchanged, the sign is kept. *)
Definition round1 (x : float) : float :=
  match scaled_round 10 x with
  | None => x
  | Some (s, n) =>
      let num := match n with
                 | Zpos p => S754_finite s p 0
                 | _ => S754_zero s
                 end in
      SF2Prim (SFdiv prec emax num (S754_finite false 10 0))
  end.

Definition string_of_Z (n : Z) : string :=
  NilZero.string_of_uint (N.to_uint (Z.to_N n)).

(** [f"{x:.1f}"]. *)
Definition fmt1 (x : float) : string :=
  match Prim2SF x with
  | S754_nan => "nan"
  | S754_infinity s => if s then "-inf" else "inf"
  | _ =>
      match scaled_round 10 x with
      | Some (s, n) =>
          (if s then "-" else "") ++ string_of_Z (n / 10) ++ "."
            ++ string_of_Z (n mod 10)
      | None => "nan"
      end
  end.

(** *** Strings

    A [str] is modelled as a byte string; [lower], [split] and [strip] act on
    the ASCII letters and ASCII white space, which is what Python does on
    ASCII text. *)

Definition is_space (c : ascii) : bool :=
  let n := nat_of_ascii c in
  ((9 <=? n) && (n <=? 13) || (28 <=? n) && (n <=? 32))%nat.

Definition lower_char (c : ascii) : ascii :=
  let n := nat_of_ascii c in
  if ((65 <=? n) && (n <=? 90))%nat then ascii_of_nat (n + 32) else c.

(** [s.lower()]. *)
Fixpoint lower (s : string) : string :=
  match s with
  | EmptyString => EmptyString
  | String c s' => String (lower_char c) (lower s')
  end.

Fixpoint mem_char (c : ascii) (chars : string) : bool :=
  match chars with
  | EmptyString => false
  | String d chars' => Ascii.eqb c d || mem_char c chars'
  end.

Fixpoint lstrip_by (p : ascii -> bool) (s : string) : string :=
  match s with
  | EmptyString => EmptyString
  | String c s' => if p c then lstrip_by p s' else s
  end.

Fixpoint rstrip_by (p : ascii -> bool) (s : string) : string :=
  match s with
  | EmptyString => EmptyString
  | String c s' =>
      match rstrip_by p s' with
      | EmptyString => if p c then EmptyString else String c EmptyString
      | r => String c r
      end
  end.

(** [s.strip(chars)]. *)
Definition strip_chars (chars s : string) : string :=
  rstrip_by (fun c => mem_char c chars) (lstrip_by (fun c => mem_char c chars) s).

(** [s.strip()]. *)
Definition strip (s : string) : string :=
  rstrip_by is_space (lstrip_by is_space s).

Fixpoint split_from (cur s : string) : list string :=
  match s with
  | EmptyString => match cur with EmptyString => [] | _ => [cur] end
  | String c s' =>
      if is_space c then
        match cur with
        | EmptyString => split_from EmptyString s'
        | _ => cur :: split_from EmptyString s'
        end
      else split_from (cur ++ String c EmptyString) s'
  end.

(** [s.split()]: the maximal runs of characters that are not white space. *)
Definition split (s : string) : list string := split_from EmptyString s.

(** [t in s] on strings. *)
Fixpoint contains (t s : string) : bool :=
  String.prefix t s
  || match s with
     | EmptyString => false
     | String _ s' => contains t s'
     end.

(** [x in l] on a list of strings. *)
Definition mem_string (x : string) (l : list string) : bool :=
  existsb (String.eqb x) l.

(** [l.index(x)], when [x in l]. *)
Fixpoint index_of (x : string) (l : list string) : option nat :=
  match l with
  | [] => None
  | y :: l' => if String.eqb x y then Some 0%nat else option_map S (index_of x l')
  end.

(** [list(dict.fromkeys(l))]: the first occurrence of every key, in order. *)
Fixpoint dedupe (seen l : list string) : list string :=
  match l with
  | [] => []
  | x :: l' =>
      if mem_string x seen then dedupe seen l' else x :: dedupe (x :: seen) l'
  end.

(** [sep.join(l)]. *)
Fixpoint join (sep : string) (l : list string) : string :=
  match l with
  | [] => EmptyString
  | [x] => x
  | x :: l' => x ++ sep ++ join sep l'
  end.

Fixpoint last_char (s : string) : option ascii :=
  match s with
  | EmptyString => None
  | String c EmptyString => Some c
  | String _ s' => last_char s'
  end.

(** [s.endswith(('.', '!', '?'))]. *)
Definition ends_terminal (s : string) : bool :=
  match last_char s with
  | Some c => mem_char c ".!?"
  | None => false
  end.

(** [d.get(k)] on a dict written as its list of items. *)
Fixpoint lookup {V} (k : string) (d : list (string * V)) : option V :=
  match d with
  | [] => None
  | (k', v) :: d' => if String.eqb k k' then Some v else lookup k d'
  end.

(** *** Sorting and selection *)

Section Ordering.
Context {A K : Type} (key : A -> K) (lt : K -> K -> bool).

(** [x] goes in front of the first element whose key is not smaller. *)
Fixpoint insert_by (x : A) (l : list A) : list A :=
  match l with
  | [] => [x]
  | y :: l' => if lt (key y) (key x) then y :: insert_by x l' else x :: l
  end.

(** [l.sort(key=key)]: a stable sort that compares keys with [<] only.
    On keys that [<] orders totally every stable sort gives this list. *)
Definition sort_by (l : list A) : list A := fold_right insert_by [] l.

(** [min(x :: l, key=key)]: the first element of the smallest key. *)
Definition min_by (x : A) (l : list A) : A :=
  fold_left (fun best y => if lt (key y) (key best) then y else best) l x.

(** [max(x :: l, key=key)]: the first element of the largest key. *)
Definition max_by (x : A) (l : list A) : A :=
  fold_left (fun best y => if lt (key best) (key y) then y else best) l x.
End Ordering.

End Py.

Import Py.
Local Open Scope py_scope.

(** ** Data model *)

(** [class ObjectDetection(BaseModel)], after validation. *)
Record ObjectDetection : Type := {
  name : string;
  confidence : float;
  bbox : option (list float);
  x : option float;
  y : option float;
  w : option float;
  h : option float
}.

Definition opt_float_eqb (a b : option float) : bool :=
  match a, b with
  | None, None => true
  | Some u, Some v => (u =? v)%float
  | _, _ => false
  end.

Fixpoint list_float_eqb (a b : list float) : bool :=
  match a, b with
  | [], [] => true
  | u :: a', v :: b' => (u =? v)%float && list_float_eqb a' b'
  | _, _ => false
  end.

Definition opt_bbox_eqb (a b : option (list float)) : bool :=
  match a, b with
  | None, None => true
  | Some u, Some v => list_float_eqb u v
  | _, _ => false
  end.

(** [a == b] on detections: pydantic compares the fields.  (Python's [in]
    also accepts the very same object; object identity is not part of this
    model, which matters only for a detection with a NaN field.) *)
Definition detection_eqb (a b : ObjectDetection) : bool :=
  String.eqb (name a) (name b)
  && (confidence a =? confidence b)%float
  && opt_bbox_eqb (bbox a) (bbox b)
  && opt_float_eqb (x a) (x b) && opt_float_eqb (y a) (y b)
  && opt_float_eqb (w a) (w b) && opt_float_eqb (h a) (h b).

(** [o in objs], decided by comparison: Python's answer for every [o] that
    compares equal to itself, which the properties that speak of membership
    assume. *)
Definition detection_in (o : ObjectDetection) (objs : list ObjectDetection) : bool :=
  existsb (detection_eqb o) objs.

(** ** Target extractor *)

Definition stop : list string :=
  ["the"; "a"; "an"; "to"; "is"; "are"; "there"; "on"; "at"; "my"; "in"; "for";
   "of"; "do"; "i"; "can"; "you"; "me"; "near"].

(** [_extract_targets].  The question is a byte string: on ASCII text the
    keywords are the ones Python computes; what is proved of their
    characters is proved for ASCII questions. *)
Definition _extract_targets (question : string) : list string :=
  let q := lower question in
  let tokens := map (strip_chars "?.,! ") (split q) in
  let nouns :=
    filter (fun t => negb (String.eqb t "") && negb (mem_string t stop)
                     && (2 <? String.length t)%nat) tokens in
  firstn 3 (dedupe [] nouns).

(** ** Distance classifier *)

Definition _estimate_distance (obj : ObjectDetection) (img_height : float)
  : result string :=
  match bbox obj with
  | Some [x1; y1; x2; y2] =>
      let height := (y2 - y1)%float in
      let bottom_y := y2 in
      rel_height <- Py.div height img_height ;;
      rel_bottom <- Py.div bottom_y img_height ;;
      ret (if (0.4 <? rel_height)%float && (0.7 <? rel_bottom)%float then "very close"
           else if (0.25 <? rel_height)%float && (0.6 <? rel_bottom)%float then "close"
           else if (0.15 <? rel_height)%float && (0.5 <? rel_bottom)%float then "medium"
           else if (0.08 <? rel_height)%float then "far"
           else "very far")
  | _ => ret "unknown"
  end.

(** ** Precise position *)

Module Position.
(** The dict [_calculate_precise_position] returns.  The degenerate-box
    result has no ["size_pixels"] and no ["confidence"] key: [None]. *)
Record t : Type := {
  angle : float;
  distance_meters : float;
  position : string;
  coordinates : Z * Z;
  size_pixels : option (Z * Z);
  confidence : option float
}.
End Position.

Definition object_real_sizes : list (string * float) :=
  [("person", 1.7); ("car", 4.5); ("chair", 0.9); ("table", 0.75);
   ("door", 2.0); ("laptop", 0.35); ("cell phone", 0.15); ("bottle", 0.25);
   ("cup", 0.1); ("book", 0.25); ("clock", 0.3); ("tv", 1.0);
   ("refrigerator", 1.8); ("microwave", 0.5); ("oven", 0.6); ("sink", 0.6);
   ("toilet", 0.7); ("bed", 2.0); ("dining table", 1.5); ("sofa", 2.0);
   ("potted plant", 0.5); ("bicycle", 1.7); ("motorcycle", 2.0);
   ("airplane", 50.0); ("bus", 12.0); ("train", 25.0); ("truck", 8.0);
   ("boat", 6.0); ("stop sign", 0.8); ("parking meter", 1.2); ("bench", 1.5);
   ("bird", 0.15); ("cat", 0.4); ("dog", 0.6); ("horse", 2.5); ("sheep", 1.5);
   ("cow", 2.5); ("elephant", 6.0); ("bear", 2.0); ("zebra", 2.5);
   ("giraffe", 5.0)]%float.

(** [f"...{'left' if angle_offset < 0 else 'right'}"]. *)
Definition side (a : float) : string :=
  if (a <? 0)%float then "left" else "right".

Definition _calculate_precise_position
  (obj : ObjectDetection) (img_width img_height : float) : result Position.t :=
  match bbox obj with
  | Some [x1; y1; x2; y2] =>
      let center_x := ((x1 + x2) / 2.0)%float in
      let center_y := ((y1 + y2) / 2.0)%float in
      let width := (x2 - x1)%float in
      let height := (y2 - y1)%float in
      let frame_center_x := (img_width / 2.0)%float in
      let horizontal_fov := 60.0%float in
      let pixels_per_degree := (img_width / horizontal_fov)%float in
      angle_offset <- Py.div (center_x - frame_center_x) pixels_per_degree ;;
      let real_size :=
        match lookup (lower (name obj)) object_real_sizes with
        | Some v => v
        | None => 1.0%float
        end in
      let focal_length_approx := img_height in
      estimated_distance <- Py.div (real_size * focal_length_approx) height ;;
      let estimated_distance := Py.max 0.5 (Py.min estimated_distance 100.0) in
      let position :=
        if (abs angle_offset <? 5)%float then "directly ahead"
        else if (abs angle_offset <? 15)%float then "slightly " ++ side angle_offset
        else if (abs angle_offset <? 30)%float then side angle_offset
        else if (abs angle_offset <? 45)%float then "far " ++ side angle_offset
        else "extreme " ++ side angle_offset in
      let angle := round1 angle_offset in
      let distance_meters := round1 estimated_distance in
      rcx <- round0 center_x ;;
      rcy <- round0 center_y ;;
      rw <- round0 width ;;
      rh <- round0 height ;;
      ret {| Position.angle := angle;
             Position.distance_meters := distance_meters;
             Position.position := position;
             Position.coordinates := (rcx, rcy);
             Position.size_pixels := Some (rw, rh);
             Position.confidence := Some (confidence obj) |}
  | _ =>
      ret {| Position.angle := 0;
             Position.distance_meters := 0;
             Position.position := "unknown";
             Position.coordinates := (0%Z, 0%Z);
             Position.size_pixels := None;
             Position.confidence := None |}
  end.

(** ** Direction resolver *)

Module Navigation.
Record t : Type := {
  angle_degrees : float;
  distance_meters : float;
  turn_instruction : string;
  approach_instruction : string;
  full_instruction : string;
  position_description : string;
  coordinates : Z * Z
}.
End Navigation.

Module Direction.
(** The [direction_info] dict.  [target_count = None] is a missing key;
    [navigation = None] is the empty dict [{}] or a missing key, which the
    code, reading it with [in ... and ...] and [.get(..., {})], does not
    tell apart. *)
Record t : Type := {
  direction : string;
  distance : string;
  confidence : float;
  target_count : option nat;
  navigation : option Navigation.t
}.
End Direction.

Definition unknown_direction : Direction.t :=
  {| Direction.direction := "unknown";
     Direction.distance := "unknown";
     Direction.confidence := 0.0;
     Direction.target_count := None;
     Direction.navigation := None |}.

(** [p["confidence"]]. *)
Definition position_confidence (p : Position.t) : result float :=
  match Position.confidence p with
  | Some c => ret c
  | None => raise (KeyError "confidence")
  end.

(** [min(positions, key=lambda p: p["distance_meters"])]. *)
Definition best_position (p : Position.t) (ps : list Position.t) : Position.t :=
  min_by Position.distance_meters PrimFloat.ltb p ps.

(** The turn label for the rounded angle. *)
Definition turn_direction_of (angle : float) : string :=
  if (abs angle <? 2)%float then "straight"
  else if (abs angle <? 10)%float then
    (if (angle <? 0)%float then "slight_left" else "slight_right")
  else if (abs angle <? 30)%float then
    (if (angle <? 0)%float then "left" else "right")
  else if (abs angle <? 60)%float then
    (if (angle <? 0)%float then "sharp_left" else "sharp_right")
  else (if (angle <? 0)%float then "turn_around_left" else "turn_around_right").

Definition turn_instruction_of (angle : float) : string :=
  if (abs angle <? 2)%float then "Continue straight ahead"
  else if (abs angle <? 10)%float then
    "Slight adjustment: turn " ++ fmt1 (abs angle) ++ " degrees " ++ side angle
  else if (abs angle <? 30)%float then
    "Turn " ++ fmt1 (abs angle) ++ " degrees " ++ side angle
  else if (abs angle <? 60)%float then
    "Sharp turn: " ++ fmt1 (abs angle) ++ " degrees " ++ side angle
  else
    "Turn around: object is " ++ fmt1 (abs angle) ++ " degrees " ++ side angle
      ++ " behind you".

Definition distance_desc_of (distance : float) : string :=
  if (distance <? 0.5)%float then "very close (" ++ fmt1 distance ++ " meters)"
  else if (distance <? 1.5)%float then "close (" ++ fmt1 distance ++ " meters)"
  else if (distance <? 3.0)%float then "medium distance (" ++ fmt1 distance ++ " meters)"
  else if (distance <? 10.0)%float then "far (" ++ fmt1 distance ++ " meters)"
  else "very far (" ++ fmt1 distance ++ " meters)".

Definition approach_instruction_of (distance : float) : string :=
  if (distance <? 0.5)%float then "Move very slowly and carefully"
  else if (distance <? 1.5)%float then "Take a few careful steps forward"
  else if (distance <? 3.0)%float then "Walk forward steadily"
  else if (distance <? 10.0)%float then "Walk forward at normal pace"
  else "Walk forward, it's quite far".

Definition full_instruction_of (angle distance : float) : string :=
  if (abs angle <? 2)%float then
    approach_instruction_of distance ++ ". Target is directly ahead, "
      ++ distance_desc_of distance ++ "."
  else
    turn_instruction_of angle ++ ", then " ++ lower (approach_instruction_of distance)
      ++ ". Target is " ++ distance_desc_of distance ++ ".".

Definition _direction_for_targets
  (target_objs : list ObjectDetection) (width height : float) : result Direction.t :=
  match target_objs with
  | [] => ret unknown_direction
  | _ =>
      positions <- mapM (fun obj => _calculate_precise_position obj width height)
                        target_objs ;;
      match positions with
      | [] => ret unknown_direction
      | p :: ps =>
          let best_target := best_position p ps in
          confidences <- mapM position_confidence positions ;;
          avg_confidence <- Py.div (Py.sum confidences)
                                   (Py.of_nat (List.length positions)) ;;
          let angle := Position.angle best_target in
          let distance := Position.distance_meters best_target in
          ret {| Direction.direction := turn_direction_of angle;
                 Direction.distance := distance_desc_of distance;
                 Direction.confidence := avg_confidence;
                 Direction.target_count := Some (List.length target_objs);
                 Direction.navigation :=
                   Some {| Navigation.angle_degrees := angle;
                           Navigation.distance_meters := distance;
                           Navigation.turn_instruction := turn_instruction_of angle;
                           Navigation.approach_instruction :=
                             approach_instruction_of distance;
                           Navigation.full_instruction :=
                             full_instruction_of angle distance;
                           Navigation.position_description :=
                             Position.position best_target;
                           Navigation.coordinates :=
                             Position.coordinates best_target |} |}
      end
  end.

(** ** Nearest obstacle distance *)

Definition distance_rank_order : list string :=
  ["very close"; "close"; "medium"; "far"; "very far"; "unknown"; "clear"].

(** The loop of [_nearest_obstacle_distance], from [(best_rank, best)].
    [_estimate_distance] is called with its default frame height. *)
Fixpoint nearest_from (best_rank : nat) (best : string)
  (objects : list ObjectDetection) : result string :=
  match objects with
  | [] => ret best
  | o :: rest =>
      d <- _estimate_distance o 480.0 ;;
      match index_of d distance_rank_order with
      | Some i =>
          if (i <? best_rank)%nat then nearest_from i d rest
          else nearest_from best_rank best rest
      | None => nearest_from best_rank best rest
      end
  end.

Definition _nearest_obstacle_distance (objects : list ObjectDetection)
  : result string :=
  nearest_from (List.length distance_rank_order) "clear" objects.

(** ** Free-path finder *)

Module OpenPath.
(** The dict [_free_path_direction] returns; only the widest-gap branch
    sets ["target_count"]. *)
Record t : Type := {
  direction : string;
  distance : string;
  confidence : float;
  target_count : option nat
}.
End OpenPath.

Definition interval : Type := (float * float)%type.

(** The first loop: the clipped, normalised interval of every detection
    that has a four-element box and a positive clipped width. *)
Fixpoint occupied_intervals (objects : list ObjectDetection) (img_width : float)
  : result (list interval) :=
  match objects with
  | [] => ret []
  | o :: rest =>
      match bbox o with
      | Some [x1; _; x2; _] =>
          let x1 := Py.max 0.0 (Py.min img_width x1) in
          let x2 := Py.max 0.0 (Py.min img_width x2) in
          if (x2 <=? x1)%float then occupied_intervals rest img_width
          else
            s <- Py.div x1 img_width ;;
            e <- Py.div x2 img_width ;;
            tl <- occupied_intervals rest img_width ;;
            ret ((s, e) :: tl)
      | _ => occupied_intervals rest img_width
      end
  end.

(** The merge loop, from the current interval [(cur_s, cur_e)]. *)
Fixpoint merge_from (cur_s cur_e : float) (l : list interval) : list interval :=
  match l with
  | [] => [(cur_s, cur_e)]
  | (s, e) :: l' =>
      if (s <=? cur_e + 0.01)%float then merge_from cur_s (Py.max cur_e e) l'
      else (cur_s, cur_e) :: merge_from s e l'
  end.

(** The gap loop, from [prev_end]. *)
Fixpoint gaps_from (prev_end : float) (merged : list interval) : list interval :=
  match merged with
  | [] => if (0.05 <? 1.0 - prev_end)%float then [(prev_end, 1.0%float)] else []
  | (s, e) :: m' =>
      if (0.05 <? s - prev_end)%float then (prev_end, s) :: gaps_from e m'
      else gaps_from e m'
  end.

Definition left_coverage (merged : list interval) : float :=
  Py.sum (map (fun '(s, e) => Py.max 0.0 (Py.min e 0.5 - s)%float)
              (filter (fun '(s, e) => (s <? 0.5)%float) merged)).

Definition right_coverage (merged : list interval) : float :=
  Py.sum (map (fun '(s, e) => Py.max 0.0 (e - Py.max s 0.5)%float)
              (filter (fun '(s, e) => (0.5 <? e)%float) merged)).

Definition gap_width (g : interval) : float := (snd g - fst g)%float.

(** The label of the widest gap's centre offset [rel]. *)
Definition gap_direction (rel : float) : string :=
  if (abs rel <? 0.06)%float then "center"
  else if (rel <? -0.3)%float then "hard left"
  else if (rel <? -0.15)%float then "left"
  else if (rel <? -0.06)%float then "slightly left"
  else if (0.3 <? rel)%float then "hard right"
  else if (0.15 <? rel)%float then "right"
  else if (0.06 <? rel)%float then "slightly right"
  else "center".

(** [intervals.sort(key=lambda x: x[0])] and the merge loop. *)
Definition merged_intervals (intervals : list interval) : list interval :=
  match sort_by fst PrimFloat.ltb intervals with
  | [] => []
  | (cur_s, cur_e) :: rest => merge_from cur_s cur_e rest
  end.

Definition _free_path_direction (objects : list ObjectDetection) (img_width : float)
  : result OpenPath.t :=
  intervals <- occupied_intervals objects img_width ;;
  match intervals with
  | [] =>
      ret {| OpenPath.direction := "center";
             OpenPath.distance := "clear";
             OpenPath.confidence := 0.5;
             OpenPath.target_count := None |}
  | _ :: _ =>
      let merged := merged_intervals intervals in
      match gaps_from 0.0 merged with
      | [] =>
          let direction :=
            if (left_coverage merged <? right_coverage merged)%float
            then "left" else "right" in
          nearest_distance <- _nearest_obstacle_distance objects ;;
          ret {| OpenPath.direction := direction;
                 OpenPath.distance := nearest_distance;
                 OpenPath.confidence := 0.3;
                 OpenPath.target_count := None |}
      | g :: gs =>
          let widest := max_by gap_width PrimFloat.ltb g gs in
          let gap_center := ((fst widest + snd widest) / 2.0)%float in
          let rel := (gap_center - 0.5)%float in
          let direction := gap_direction rel in
          nearest_distance <- _nearest_obstacle_distance objects ;;
          ret {| OpenPath.direction := direction;
                 OpenPath.distance := nearest_distance;
                 OpenPath.confidence := 0.45;
                 OpenPath.target_count := Some 0%nat |}
      end
  end.

(** ** Obstacle analyzer *)

Module Obstacle.
Record t : Type := {
  name : string;
  distance : string;
  position : string;
  threat : string;
  confidence : float
}.
End Obstacle.

(** One turn of the loop of [_analyze_obstacles]: the record appended for
    [o], or [None] where the loop appends nothing. *)
Definition obstacle_entry (target_objs : list ObjectDetection)
  (img_width img_height : float) (o : ObjectDetection)
  : result (option Obstacle.t) :=
  if detection_in o target_objs then ret None
  else
    match bbox o with
    | None | Some [] => ret None
    | Some [x1; y1; x2; y2] =>
        let cx := ((x1 + x2) / 2.0)%float in
        let cy := ((y1 + y2) / 2.0)%float in
        let width := (x2 - x1)%float in
        let height := (y2 - y1)%float in
        let area := (width * height)%float in
        rel_x <- Py.div cx img_width ;;
        rel_y <- Py.div cy img_height ;;
        distance <- _estimate_distance o img_height ;;
        let in_path :=
          (0.25 <? rel_x)%float && (rel_x <? 0.75)%float && (0.3 <? rel_y)%float in
        rel_area <- Py.div area (img_width * img_height) ;;
        let threat :=
          if (0.15 <? rel_area)%float then "high"
          else if (0.08 <? rel_area)%float then "medium"
          else "low" in
        if in_path && (mem_string threat ["high"; "medium"]
                       || mem_string distance ["very close"; "close"])
        then
          ret (Some {| Obstacle.name := name o;
                       Obstacle.distance := distance;
                       Obstacle.position :=
                         if (rel_x <? 0.4)%float then "left"
                         else if (0.6 <? rel_x)%float then "right"
                         else "center";
                       Obstacle.threat := threat;
                       Obstacle.confidence := confidence o |})
        else ret None
    | Some _ => raise ValueError
    end.

Fixpoint keep_some {A} (l : list (option A)) : list A :=
  match l with
  | [] => []
  | Some a :: l' => a :: keep_some l'
  | None :: l' => keep_some l'
  end.

Definition distance_order : list (string * nat) :=
  [("very close", 0); ("close", 1); ("medium", 2); ("far", 3); ("very far", 4)]%nat.

Definition threat_order : list (string * nat) :=
  [("high", 0); ("medium", 1); ("low", 2)]%nat.

Definition get_or {V} (k : string) (d : list (string * V)) (default : V) : V :=
  match lookup k d with
  | Some v => v
  | None => default
  end.

Definition _sort_key (o : Obstacle.t) : nat * nat :=
  (get_or (Obstacle.distance o) distance_order 5%nat,
   get_or (Obstacle.threat o) threat_order 3%nat).

(** [<] on pairs of integers. *)
Definition pair_ltb (a b : nat * nat) : bool :=
  (fst a <? fst b)%nat || (fst a =? fst b)%nat && (snd a <? snd b)%nat.

Definition _analyze_obstacles (objects target_objs : list ObjectDetection)
  (img_width img_height : float) : result (list Obstacle.t) :=
  entries <- mapM (obstacle_entry target_objs img_width img_height) objects ;;
  let obstacles := keep_some entries in
  ret (firstn 3 (sort_by _sort_key pair_ltb obstacles)).

(** ** Instruction synthesizer *)

Definition variants (target_ref : string) : list (string * list (string * list string)) :=
  [("center",
     [
      ("very close",
       [target_ref ++ " is right in front. Slow and steady.";
        "Almost there—" ++ target_ref ++ " directly ahead, ease forward."]);
      ("close",
       [target_ref ++ " straight ahead, move forward carefully.";
        "Head straight—" ++ target_ref ++ " is just ahead."]);
      ("medium",
       [target_ref ++ " ahead, continue forward.";
        "Keep going straight toward " ++ target_ref ++ "."]);
      ("far",
       [target_ref ++ " further ahead, steady pace.";
        "Stay centered and continue forward."]);
      ("very far",
       [target_ref ++ " is far ahead, you can walk confidently.";
        "Long way ahead—proceed straight."])]);
   ("slightly left",
     [
      ("very close",
       [target_ref ++ " just left, small step left then forward.";
        "Tiny left adjustment, then move ahead."]);
      ("close",
       ["Drift a little left toward " ++ target_ref ++ ".";
        "Slight left, then forward."]);
      ("medium",
       ["Slight left adjustment toward " ++ target_ref ++ ".";
        "Nudge left and go ahead."]);
      ("far",
       ["Angle slightly left to line up with " ++ target_ref ++ ".";
        "Veer gently left then continue."]);
      ("very far",
       ["Turn a touch left and continue toward it.";
        "Bring your direction a bit left and walk on."])]);
   ("left",
     [
      ("very close",
       [target_ref ++ " is close on your left—turn carefully.";
        "Slow left turn, " ++ target_ref ++ " is right there."]);
      ("close",
       ["Turn left and move forward slowly.";
        "Left turn now, then straight."]);
      ("medium",
       ["Turn left toward " ++ target_ref ++ " then walk ahead.";
        "Face left and proceed forward."]);
      ("far",
       ["Turn left and advance toward it.";
        "Rotate left then continue walking."]);
      ("very far",
       ["Head left and keep a steady pace.";
        "Take a left heading and continue."])]);
   ("hard left",
     [
      ("very close",
       ["Sharp left needed now—go slowly.";
        "Hard left turn here, take care."]);
      ("close",
       ["Make a firm left turn toward " ++ target_ref ++ ".";
        "Strong left turn, then forward."]);
      ("medium",
       ["Hard left to align, then continue.";
        "Pivot left sharply and proceed."]);
      ("far",
       ["Big left turn, then head forward.";
        "Swing left strongly and advance."]);
      ("very far",
       ["Hard left then steady walk ahead.";
        "Rotate left fully and continue."])]);
   ("slightly right",
     [
      ("very close",
       ["Just right a little, then ahead.";
        "Tiny step right then move forward."]);
      ("close",
       ["Ease slightly right toward " ++ target_ref ++ ".";
        "Shift a bit right then continue."]);
      ("medium",
       ["Nudge right and go on.";
        "Slight right correction then forward."]);
      ("far",
       ["Angle a little right then continue.";
        "Veer gently right toward it."]);
      ("very far",
       ["Turn a touch right and walk forward.";
        "Bring your direction a bit right and proceed."])]);
   ("right",
     [
      ("very close",
       [target_ref ++ " close on your right—turn carefully.";
        "Slow right turn, it's right there."]);
      ("close",
       ["Turn right and move forward slowly.";
        "Right turn now, then straight ahead."]);
      ("medium",
       ["Turn right toward " ++ target_ref ++ " then walk ahead.";
        "Face right and proceed forward."]);
      ("far",
       ["Turn right and advance toward it.";
        "Rotate right then continue walking."]);
      ("very far",
       ["Head right and keep a steady pace.";
        "Take a right heading and continue."])]);
   ("hard right",
     [
      ("very close",
       ["Sharp right needed now—go slowly.";
        "Hard right turn here, take care."]);
      ("close",
       ["Make a firm right turn toward " ++ target_ref ++ ".";
        "Strong right turn, then forward."]);
      ("medium",
       ["Hard right to align, then continue.";
        "Pivot right sharply and proceed."]);
      ("far",
       ["Big right turn, then head forward.";
        "Swing right strongly and advance."]);
      ("very far",
       ["Hard right then steady walk ahead.";
        "Rotate right fully and continue."])])].

(** [obs.get("distance") in ("very close", "close")]. *)
Definition is_close (obs : Obstacle.t) : bool :=
  mem_string (Obstacle.distance obs) ["very close"; "close"].

Definition target_ref_of (target_name : option string) (target_count : nat) : string :=
  match target_name with
  | None | Some EmptyString => "it"
  | Some tn =>
      if negb (String.eqb tn "path") then
        if (1 <? target_count)%nat then "the " ++ tn ++ "s"
        else strip ("the " ++ tn)
      else "the clear path"
  end.

(** [abs(n) % len] as a list index. *)
Definition variant_index (n : Z) (len : nat) : nat :=
  Z.to_nat (Z.abs n mod Z.of_nat len).

Module Guidance.
(** The dict [_compute_guidance] returns; [navigation_data = None] is the
    empty dict. *)
Record t : Type := {
  target : option string;
  direction : string;
  distance : string;
  confidence : float;
  instruction : string;
  obstacles : list Obstacle.t;
  target_count : nat;
  navigation_data : option Navigation.t;
  precise_positioning : bool
}.
End Guidance.

(** The loop [for t in targets: ...] of [_compute_guidance]: the first
    keyword contained in some label, with the detections whose lower-cased
    label contains it. *)
Fixpoint find_target (targets : list string) (objects : list ObjectDetection)
  : option string * list ObjectDetection :=
  match targets with
  | [] => (None, [])
  | t :: ts =>
      match filter (fun o => contains t (lower (name o))) objects with
      | [] => find_target ts objects
      | matches => (Some t, matches)
      end
  end.

(** [direction_info.update(open_path)]. *)
Definition update_direction (direction_info : Direction.t) (open_path : OpenPath.t)
  : Direction.t :=
  {| Direction.direction := OpenPath.direction open_path;
     Direction.distance := OpenPath.distance open_path;
     Direction.confidence := OpenPath.confidence open_path;
     Direction.target_count :=
       match OpenPath.target_count open_path with
       | Some n => Some n
       | None => Direction.target_count direction_info
       end;
     Direction.navigation := Direction.navigation direction_info |}.

Section Engine.

(** Python's built-in [hash] on strings.  It is keyed by a secret the
    interpreter draws when it starts (unless PYTHONHASHSEED fixes it), so
    it is a parameter of the engine rather than a function of the string
    alone. *)
Variable hash : string -> Z.

Definition _path_smoothing_instruction (direction_info : Direction.t)
  (obstacles : list Obstacle.t) (target_name : option string) : string :=
  let direction := Direction.direction direction_info in
  let distance := Direction.distance direction_info in
  let confidence := Direction.confidence direction_info in
  let target_count :=
    match Direction.target_count direction_info with
    | Some n => n
    | None => 0%nat
    end in
  let target_ref := target_ref_of target_name target_count in
  let phrase_list :=
    match lookup distance (get_or direction (variants target_ref) []) with
    | Some l => l
    | None => ["Move " ++ direction ++ " (" ++ distance ++ ")."]
    end in
  let idx :=
    match phrase_list with
    | [] => 0%nat
    | _ => variant_index (hash (direction ++ distance)) (List.length phrase_list)
    end in
  let base_instruction := nth idx phrase_list "" in
  let base_instruction :=
    match filter is_close obstacles with
    | [] => base_instruction
    | close_obs =>
        let names :=
          map (fun o => Obstacle.name o ++ " " ++ Obstacle.position o)
              (firstn 2 close_obs) in
        base_instruction ++ ". Watch for " ++ join ", " names ++ "."
    end in
  let base_instruction :=
    if (confidence <? 0.4)%float
    then base_instruction ++ " I'm not fully sure—double check."
    else base_instruction in
  let base_instruction := strip base_instruction in
  if negb (ends_terminal base_instruction) then base_instruction ++ "."
  else base_instruction.

(** ** Guidance orchestrator *)

Definition _compute_guidance (objects : list ObjectDetection) (question : string)
  (img_width img_height : float) : result Guidance.t :=
  let targets := _extract_targets question in
  let '(target_name, target_objs) := find_target targets objects in
  direction_info <- _direction_for_targets target_objs img_width img_height ;;
  '(direction_info, target_name) <-
    (if String.eqb (Direction.direction direction_info) "unknown" then
       open_path <- _free_path_direction objects img_width ;;
       ret (update_direction direction_info open_path,
            match target_name with
            | None | Some EmptyString => Some "path"
            | Some _ => target_name
            end)
     else ret (direction_info, target_name)) ;;
  obstacles <- _analyze_obstacles objects target_objs img_width img_height ;;
  let instruction :=
    match Direction.navigation direction_info with
    | Some nav_data =>
        let instruction := Navigation.full_instruction nav_data in
        match filter is_close obstacles with
        | [] => instruction
        | obs :: _ =>
            instruction ++ " Caution: " ++ Obstacle.name obs ++ " detected "
              ++ Obstacle.position obs ++ "."
        end
    | None => _path_smoothing_instruction direction_info obstacles target_name
    end in
  ret {| Guidance.target := target_name;
         Guidance.direction := Direction.direction direction_info;
         Guidance.distance := Direction.distance direction_info;
         Guidance.confidence := Direction.confidence direction_info;
         Guidance.instruction := instruction;
         Guidance.obstacles := obstacles;
         Guidance.target_count :=
           match Direction.target_count direction_info with
           | Some n => n
           | None => 0%nat
           end;
         Guidance.navigation_data := Direction.navigation direction_info;
         Guidance.precise_positioning := true |}.

End Engine.

(** ** The client shape of a detection *)

(** [int(x)] on a float: truncation toward zero; NaN and the infinities
    raise. *)
Definition int_of_float (v : float) : result Z :=
  match Prim2SF v with
  | S754_nan => raise ValueError
  | S754_infinity _ => raise OverflowError
  | S754_zero _ => ret 0%Z
  | S754_finite s m e =>
      let n := if (0 <=? e)%Z then (Zpos m * 2 ^ e)%Z else (Zpos m / 2 ^ (- e))%Z in
      ret (if s then (- n)%Z else n)
  end.

Module ClientDict.
(** The dict [to_client_dict] returns. *)
Record t : Type := {
  name : string;
  confidence : float;
  x : Z;
  y : Z;
  w : Z;
  h : Z
}.
End ClientDict.

(** [v or 0] on an optional float: [None] and both zeros are falsy. *)
Definition or_zero (v : option float) : float :=
  match v with
  | Some f => if (f =? 0)%float then 0%float else f
  | None => 0%float
  end.

(** [ObjectDetection.to_client_dict]. *)
Definition to_client_dict (self : ObjectDetection) : result ClientDict.t :=
  match bbox self with
  | Some [x1; y1; x2; y2] =>
      x <- int_of_float x1 ;;
      y <- int_of_float y1 ;;
      w <- int_of_float (Py.max 0 (x2 - x1)) ;;
      h <- int_of_float (Py.max 0 (y2 - y1)) ;;
      ret {| ClientDict.name := name self;
             ClientDict.confidence := confidence self;
             ClientDict.x := x; ClientDict.y := y;
             ClientDict.w := w; ClientDict.h := h |}
  | _ =>
      x <- int_of_float (or_zero (x self)) ;;
      y <- int_of_float (or_zero (y self)) ;;
      w <- int_of_float (or_zero (w self)) ;;
      h <- int_of_float (or_zero (h self)) ;;
      ret {| ClientDict.name := name self;
             ClientDict.confidence := confidence self;
             ClientDict.x := x; ClientDict.y := y;
             ClientDict.w := w; ClientDict.h := h |}
  end.

(** ** The guide endpoint *)

(** The instruction of the response of [real_time_guidance], from the
    result of [_compute_guidance] (the lines after the engine call). *)
Definition guide_response_instruction (guidance : Guidance.t) : string :=
  match Guidance.navigation_data guidance with
  | Some nav_data =>
      let angle := Navigation.angle_degrees nav_data in
      let distance_m := Navigation.distance_meters nav_data in
      if (2 <? abs angle)%float then
        Guidance.instruction guidance ++ " [Precise: " ++ fmt1 (abs angle) ++ "° "
          ++ side angle ++ ", " ++ fmt1 distance_m ++ "m]"
      else
        Guidance.instruction guidance ++ " [Precise: straight ahead, "
          ++ fmt1 distance_m ++ "m]"
  | None => Guidance.instruction guidance
  end.

(** ** The find-object endpoint *)

(** The match test of [find_specific_object]. *)
Definition find_object_match (target : string) (obj : ObjectDetection) : bool :=
  contains (lower target) (lower (name obj))
  || contains (lower (name obj)) (lower target).

(** The [target_objects] list [find_specific_object] builds: every
    detection once for each keyword it matches, in detection order. *)
Definition find_object_targets (target_keywords : list string)
  (all_objects : list ObjectDetection) : list ObjectDetection :=
  flat_map (fun obj =>
              map (fun _ => obj)
                  (filter (fun target => find_object_match target obj) target_keywords))
           all_objects.

(** ** The streaming endpoint *)

Module Ws.
(** The two variables [ws_real_time_guidance] keeps between frames. *)
Record state : Type := {
  last_instruction : option string;
  last_sent_time : float
}.

Definition initial : state :=
  {| last_instruction := None; last_sent_time := 0.0 |}.

Definition throttle_seconds : float := 0.3.
Definition instruction_repeat_sec : float := 2.0.

(** What processing a frame comes to: decoding, detection or the engine
    raises; or the engine gives an instruction, after which building and
    sending the payload succeeds or raises. *)
Inductive frame : Type :=
| FrameFailed
| FrameGuided (instruction : string) (delivered : bool).

(** One turn of the receive loop: receiving raises; the text is not JSON;
    or a message arrives at time [now], with or without an image.  A run is
    the list of its turns: a disconnect, or an exception outside the inner
    handlers, ends the loop and so the list. *)
Inductive message : Type :=
| ReceiveError
| BadJson
| Received (has_image : bool) (now : float) (processing : frame).

Inductive reply : Type :=
| Error (code : string)
| Throttled
| Payload (instruction : string).

(** [guidance["instruction"] != last_instruction]. *)
Definition differs (instruction : string) (last : option string) : bool :=
  match last with
  | None => true
  | Some l => negb (String.eqb instruction l)
  end.

(** The body of the [while True] loop. *)
Definition step (st : state) (msg : message) : state * reply :=
  match msg with
  | ReceiveError => (st, Error "receive_error")
  | BadJson => (st, Error "bad_json")
  | Received false _ _ => (st, Error "no_image")
  | Received true now processing =>
      if (now - last_sent_time st <? throttle_seconds)%float then (st, Throttled)
      else
        match processing with
        | FrameFailed => (st, Error "frame_processing_failed")
        | FrameGuided instruction delivered =>
            let send_instruction :=
              differs instruction (last_instruction st)
              || (instruction_repeat_sec <? now - last_sent_time st)%float in
            let st' :=
              if send_instruction
              then {| last_instruction := Some instruction; last_sent_time := now |}
              else st in
            (st',
             if delivered
             then Payload (if send_instruction then instruction else "")
             else Error "frame_processing_failed")
        end
  end.

(** The instructions a run of the loop puts on the wire, each with the time
    of its frame. *)
Fixpoint emissions (st : state) (msgs : list message) : list (float * string) :=
  match msgs with
  | [] => []
  | msg :: rest =>
      let '(st', r) := step st msg in
      match msg, r with
      | Received _ now _, Payload (String c s) => (now, String c s) :: emissions st' rest
      | _, _ => emissions st' rest
      end
  end.
End Ws.

(** ** Text recognition *)

(** [_extract_text_from_image], from what the reader returned: [None] when
    there is no reader or reading raised, else the [(bbox, text,
    confidence)] results.  The texts are byte strings: [len] and the cut at
    200 are Python's on ASCII text, and what is proved of lengths is proved
    for ASCII readings. *)
Definition _extract_text_from_image {B} (reading : option (list (B * string * float)))
  : string :=
  match reading with
  | None => ""
  | Some results =>
      let text_segments :=
        flat_map (fun '(_, text, confidence) =>
                    if (0.5 <? confidence)%float
                       && negb (String.eqb (strip text) "")
                    then
                      let cleaned_text := strip text in
                      if (1 <? String.length cleaned_text)%nat then [cleaned_text] else []
                    else [])
                 results in
      match text_segments with
      | [] => ""
      | _ =>
          let extracted_text := join " " text_segments in
          if (200 <? String.length extracted_text)%nat
          then substring 0 200 extracted_text ++ "..."
          else extracted_text
      end
  end.

(** ** Question answering *)

(** [s.replace(old, new)] for a non-empty [old]: the occurrences of [old]
    from the left, not overlapping; [skip] characters are still part of the
    occurrence just replaced. *)
Fixpoint replace_from (skip : nat) (old new s : string) : string :=
  match s with
  | EmptyString => EmptyString
  | String c s' =>
      match skip with
      | S k => replace_from k old new s'
      | O =>
          if String.prefix old s
          then new ++ replace_from (String.length old - 1) old new s'
          else String c (replace_from 0 old new s')
      end
  end.

Definition replace (old new s : string) : string := replace_from 0 old new s.

(** The answer [question_answering] returns, from the content of the model's
    reply ([None] when there is none). *)
Definition clean_answer (raw_answer : option string) : string :=
  let answer := strip (match raw_answer with Some s => s | None => "" end) in
  let answer :=
    fold_left (fun answer token =>
                 if contains token (lower answer) then replace token "" answer
                 else answer)
              ["confidence"; "%"] answer in
  strip answer.


(** ** Scene description *)

Definition priority_order : list (list string) :=
  [["person"];
   ["car"; "bus"; "truck"; "motorcycle"; "bicycle"];
   ["dog"; "cat"];
   ["chair"; "bench"]].

(** The inner function [horiz_pos]; unpacking a non-empty box of another
    length than four raises. *)
Definition horiz_pos (obj : ObjectDetection) : result string :=
  match bbox obj with
  | None | Some [] => ret "center"
  | Some [x1; _; x2; _] =>
      let mid := ((x1 + x2) / 2.0)%float in
      let width := 640.0%float in
      let rel := (mid / width)%float in
      if (rel <? 0.33)%float then ret "left"
      else if (0.66 <? rel)%float then ret "right"
      else ret "center"
  | Some _ => raise ValueError
  end.

(** A dict of counts, in insertion order.  [d[k] = d.get(k, 0) + n]. *)
Fixpoint dict_add {K} (eqb : K -> K -> bool) (k : K) (n : nat) (d : list (K * nat))
  : list (K * nat) :=
  match d with
  | [] => [(k, n)]
  | (k', c) :: d' =>
      if eqb k k' then (k', (c + n)%nat) :: d' else (k', c) :: dict_add eqb k n d'
  end.

(** [d[k] = v]. *)
Fixpoint dict_set {K V} (eqb : K -> K -> bool) (k : K) (v : V) (d : list (K * V))
  : list (K * V) :=
  match d with
  | [] => [(k, v)]
  | (k', v') :: d' =>
      if eqb k k' then (k', v) :: d' else (k', v') :: dict_set eqb k v d'
  end.

Definition key_eqb (a b : string * string) : bool :=
  String.eqb (fst a) (fst b) && String.eqb (snd a) (snd b).

(** The loop that counts the detections by name and position. *)
Fixpoint count_objects (info : list ((string * string) * nat))
  (objects : list ObjectDetection) : result (list ((string * string) * nat)) :=
  match objects with
  | [] => ret info
  | o :: rest =>
      pos <- horiz_pos o ;;
      count_objects (dict_add key_eqb (name o, pos) 1 info) rest
  end.

(** [name + ("s" if total > 1 and not name.endswith('s') else "")]. *)
Definition plural (name : string) (total : nat) : string :=
  name ++ (if (1 <? total)%nat
              && negb (match last_char name with
                       | Some c => Ascii.eqb c "s"
                       | None => false
                       end)
           then "s" else "").

Definition string_of_nat (n : nat) : string := string_of_Z (Z.of_nat n).

(** The body of the loop over the sorted names of a group: a dict is
    iterated as its items, every key of [name_totals] and of [pos_counts]
    being looked up right after it is taken from the dict. *)
Definition name_phrase (group_entries : list ((string * string) * nat))
  (state : list string * list string) (entry : string * nat)
  : result (list string * list string) :=
  let '(phrases, used_names) := state in
  let '(name, total) := entry in
  if mem_string name used_names then ret state
  else
    let pos_counts :=
      fold_left (fun d '((n, pos), cnt) =>
                   if String.eqb n name then dict_set String.eqb pos cnt d else d)
                group_entries [] in
    match pos_counts with
    | [] => raise ValueError
    | first :: others =>
        let dom_pos := fst (max_by snd Nat.ltb first others) in
        let noun := plural name total in
        let phrase :=
          if (total =? 1)%nat then "1 " ++ name ++ " " ++ dom_pos
          else string_of_nat total ++ " " ++ noun ++ " " ++ dom_pos in
        ret ((phrases ++ [phrase])%list, name :: used_names)
    end.

Fixpoint foldM {A B} (f : B -> A -> result B) (l : list A) (b : B) : result B :=
  match l with
  | [] => ret b
  | a :: l' => b' <- f b a ;; foldM f l' b'
  end.

(** The loop over [priority_order], from the group [groups] starts with. *)
Fixpoint describe_groups (info : list ((string * string) * nat))
  (groups : list (list string)) (state : list string * list string)
  : result (list string) :=
  match groups with
  | [] => ret (fst state)
  | group :: rest =>
      let group_entries :=
        filter (fun '((name, _), _) => mem_string name group) info in
      match group_entries with
      | [] => describe_groups info rest state
      | _ =>
          let name_totals :=
            fold_left (fun d '((name, _), cnt) => dict_add String.eqb name cnt d)
                      group_entries [] in
          state' <- foldM (name_phrase group_entries)
                          (sort_by fst String.ltb name_totals) state ;;
          if (90 <? String.length (join "; " (fst state')))%nat
          then ret (fst state')
          else describe_groups info rest state'
      end
  end.

(** The phrases when no priority group is present: the three most frequent
    names. *)
Definition flat_phrases (info : list ((string * string) * nat)) : list string :=
  let flat_counts :=
    fold_left (fun d '((name, _), cnt) => dict_add String.eqb name cnt d) info [] in
  let top := firstn 3 (sort_by (fun x => (- Z.of_nat (snd x))%Z) Z.ltb flat_counts) in
  map (fun '(nm, cnt) => string_of_nat cnt ++ " " ++ plural nm cnt) top.

Definition upper_char (c : ascii) : ascii :=
  let n := nat_of_ascii c in
  if ((97 <=? n) && (n <=? 122))%nat then ascii_of_nat (n - 32) else c.

(** [s.capitalize()]. *)
Definition capitalize (s : string) : string :=
  match s with
  | EmptyString => EmptyString
  | String c s' => String (upper_char c) (lower s')
  end.

Definition _focused_description (objects : list ObjectDetection) : result string :=
  match objects with
  | [] => ret "No clear objects ahead. Path may be open."
  | _ =>
      info <- count_objects [] objects ;;
      phrases <- describe_groups info priority_order ([], []) ;;
      let phrases :=
        match phrases with
        | [] => flat_phrases info
        | _ => phrases
        end in
      let sentence := join "; " phrases in
      let sentence := strip (replace "  " " " sentence) in
      let sentence :=
        match sentence with
        | EmptyString => "Scene detected, no key obstacles."
        | _ => sentence
        end in
      ret (capitalize sentence)
  end.
(** ** Vocabulary of the further properties *)

(** Every character of [s] satisfies [P]. *)
Fixpoint all_chars (P : ascii -> bool) (s : string) : bool :=
  match s with
  | EmptyString => true
  | String c s' => P c && all_chars P s'
  end.

(** Every character of [s] is an ASCII character.  On such text the byte
    string is the Python string: [len], [lower], [split] and [strip] are
    Python's. *)
Definition is_ascii (s : string) : bool :=
  all_chars (fun c => (nat_of_ascii c <? 128)%nat) s.

(** The turn labels of the direction resolver. *)
Definition turn_labels : list string :=
  ["straight"; "slight_left"; "slight_right"; "left"; "right";
   "sharp_left"; "sharp_right"; "turn_around_left"; "turn_around_right"].

(** The five distance labels that have a cell in the phrase table. *)
Definition cell_distances : list string :=
  ["very close"; "close"; "medium"; "far"; "very far"].

(** Two instructions sent one after the other: not inside the throttle
    interval, and different unless the repeat interval has passed. *)
Definition ws_spaced (a b : float * string) : Prop :=
  (fst b - fst a <? Ws.throttle_seconds)%float = false
  /\ (snd a <> snd b
      \/ (Ws.instruction_repeat_sec <? fst b - fst a)%float = true).


(** The three horizontal positions of the scene description. *)
Definition horizontal_positions : list string := ["left"; "center"; "right"].

(** The number of detections [info] counts under [name], over all
    positions. *)
Definition total_of (name : string) (info : list ((string * string) * nat)) : nat :=
  list_sum (map snd (filter (fun e => String.eqb (fst (fst e)) name) info)).

Definition is_digit (c : ascii) : bool :=
  let n := nat_of_ascii c in ((48 <=? n) && (n <=? 57))%nat.

(** Text that [lower], [replace("  ", " ")] and the right end of [strip]
    leave alone: no upper-case letter, and every white-space character is
    followed by a character that is not white space. *)
Fixpoint tidy (s : string) : bool :=
  match s with
  | EmptyString => true
  | String c s' =>
      Ascii.eqb (lower_char c) c
      && (if is_space c
          then match s' with
               | EmptyString => false
               | String c' _ => negb (is_space c')
               end
          else true)
      && tidy s'
  end.

(** The phrase of the scene description for [total] detections called
    [name], most of them at [pos]. *)
Definition phrase_of (name : string) (total : nat) (pos : string) : string :=
  if (total =? 1)%nat then "1 " ++ name ++ " " ++ pos
  else string_of_nat total ++ " " ++ plural name total ++ " " ++ pos.
(** ** Vocabulary of the properties *)

(** The labels of the distance classifier. *)
Definition distance_labels : list string :=
  ["very close"; "close"; "medium"; "far"; "very far"; "unknown"].

Ltac in_labels := simpl; repeat first [left; reflexivity | right].

(** The direction labels of the free-path finder. *)
Definition free_path_labels : list string :=
  ["center"; "slightly left"; "slightly right"; "left"; "right";
   "hard left"; "hard right"].

(** The detections used as concrete inputs below. *)
Definition detection (label : string) (conf : float) (box : option (list float))
  : ObjectDetection :=
  {| name := label; confidence := conf; bbox := box;
     x := None; y := None; w := None; h := None |}.

(** The classification the specification words: descending thresholds on
    [(rel_height, rel_bottom)], each rule applying when the earlier ones do
    not. *)
Inductive distance_class (rel_height rel_bottom : float) : string -> Prop :=
| class_very_close :
    (0.4 <? rel_height)%float = true -> (0.7 <? rel_bottom)%float = true ->
    distance_class rel_height rel_bottom "very close"
| class_close :
    (0.4 <? rel_height)%float && (0.7 <? rel_bottom)%float = false ->
    (0.25 <? rel_height)%float = true -> (0.6 <? rel_bottom)%float = true ->
    distance_class rel_height rel_bottom "close"
| class_medium :
    (0.4 <? rel_height)%float && (0.7 <? rel_bottom)%float = false ->
    (0.25 <? rel_height)%float && (0.6 <? rel_bottom)%float = false ->
    (0.15 <? rel_height)%float = true -> (0.5 <? rel_bottom)%float = true ->
    distance_class rel_height rel_bottom "medium"
| class_far :
    (0.4 <? rel_height)%float && (0.7 <? rel_bottom)%float = false ->
    (0.25 <? rel_height)%float && (0.6 <? rel_bottom)%float = false ->
    (0.15 <? rel_height)%float && (0.5 <? rel_bottom)%float = false ->
    (0.08 <? rel_height)%float = true ->
    distance_class rel_height rel_bottom "far"
| class_very_far :
    (0.4 <? rel_height)%float && (0.7 <? rel_bottom)%float = false ->
    (0.25 <? rel_height)%float && (0.6 <? rel_bottom)%float = false ->
    (0.15 <? rel_height)%float && (0.5 <? rel_bottom)%float = false ->
    (0.08 <? rel_height)%float = false ->
    distance_class rel_height rel_bottom "very far".

(** [f] is a zero, a NaN, or has sign bit [s]. *)
Definition has_sign (s : bool) (f : spec_float) : Prop :=
  match f with
  | S754_finite s' _ _ | S754_infinity s' => s' = s
  | S754_zero _ | S754_nan => True
  end.

(** [f] is NaN, or non-zero with sign bit [s]. *)
Definition strict_sign (s : bool) (f : spec_float) : Prop :=
  match f with
  | S754_finite s' _ _ | S754_infinity s' => s' = s
  | S754_zero _ => False
  | S754_nan => True
  end.

(** [f] is a zero or a NaN. *)
Definition zero_or_nan (f : spec_float) : Prop :=
  match f with
  | S754_zero _ | S754_nan => True
  | _ => False
  end.

(** Distance rank first, threat rank second. *)
Definition key_le (a b : nat * nat) : Prop :=
  (fst a < fst b)%nat \/ (fst a = fst b /\ (snd a <= snd b)%nat).

(** The order of the elements by a key. *)
Definition le_by {A} (key : A -> nat * nat) (a b : A) : Prop :=
  key_le (key a) (key b).

(** The order [_analyze_obstacles] sorts by. *)
Definition obstacle_le : Obstacle.t -> Obstacle.t -> Prop := le_by _sort_key.

(** The box of a detection is missing, empty, or has four elements: the
    shapes the specification's data model has. *)
Definition box_shape_ok (o : ObjectDetection) : Prop :=
  match bbox o with
  | None | Some [] | Some [_; _; _; _] => True
  | Some _ => False
  end.

(** The match rule in the specification's words: the keyword is a substring
    of the label or the label is a substring of the keyword, without regard
    to case. *)
Definition spec_matches (keyword label : string) : bool :=
  contains (lower keyword) (lower label) || contains (lower label) (lower keyword).

(** The value of [hash("rightmedium")] in two CPython 3.11 processes, one
    started with PYTHONHASHSEED=0 and one with PYTHONHASHSEED=4. *)
Definition hash_seed_0 (s : string) : Z :=
  if String.eqb s "rightmedium" then 8442074011416528596%Z else 0%Z.

Definition hash_seed_4 (s : string) : Z :=
  if String.eqb s "rightmedium" then 7467092296932641065%Z else 0%Z.

(** The ranks of the specification: the distance labels from the nearest,
    the threat labels from the gravest; any other label comes last. *)
Definition nearest_first : list string :=
  ["very close"; "close"; "medium"; "far"; "very far"].

Definition gravest_first : list string := ["high"; "medium"; "low"].

Definition rank_in (order : list string) (label : string) : nat :=
  match index_of label order with
  | Some i => i
  | None => List.length order
  end.

(** [a] may stand before [b]: it is nearer, or as near and at least as
    grave. *)
Definition closest_first (a b : Obstacle.t) : Prop :=
  (rank_in nearest_first (Obstacle.distance a)
   < rank_in nearest_first (Obstacle.distance b))%nat
  \/ (rank_in nearest_first (Obstacle.distance a)
      = rank_in nearest_first (Obstacle.distance b)
      /\ (rank_in gravest_first (Obstacle.threat a)
          <= rank_in gravest_first (Obstacle.threat b))%nat).

(** The angular offset of the specification: the distance of [center_x]
    from the frame centre, over the pixels per degree of a 60 degree field
    of view, in binary64. *)
Definition offset_degrees (center_x frame_width : float) : float :=
  ((center_x - frame_width / 2) / (frame_width / 60))%float.

(** [f] is a number other than zero, with sign bit [s]. *)
Definition signed_nonzero (s : bool) (f : spec_float) : Prop :=
  match f with
  | S754_finite s' _ _ | S754_infinity s' => s' = s
  | S754_zero _ | S754_nan => False
  end.

(** The coverage totals in the words of C10 as amended: the widths of the
    parts of the merged intervals left, and right, of the midline, added in
    binary64 one interval after the other. *)
Fixpoint total_left_of (mid acc : float) (merged : list interval) : float :=
  match merged with
  | [] => acc
  | (s, e) :: rest =>
      total_left_of mid
        (if (s <? mid)%float then (acc + Py.max 0 (Py.min e mid - s))%float else acc)
        rest
  end.

Fixpoint total_right_of (mid acc : float) (merged : list interval) : float :=
  match merged with
  | [] => acc
  | (s, e) :: rest =>
      total_right_of mid
        (if (mid <? e)%float then (acc + Py.max 0 (e - Py.max s mid))%float else acc)
        rest
  end.

(** The number of pixel columns [c], [lo <= c < hi], inside some box
    [(x1, x2)]: the exact coverage of a side of the frame. *)
Definition covered_columns (lo hi : Z) (boxes : list (Z * Z)) : nat :=
  List.length
    (filter (fun c => existsb (fun '(x1, x2) => (x1 <=? c)%Z && (c <? x2)%Z) boxes)
            (map (fun i => (lo + Z.of_nat i)%Z) (seq 0 (Z.to_nat (hi - lo))))).

(** * Properties *)

(** ** The error monad and floats *)

Lemma bind_inr {A B} (m : result A) (k : A -> result B) (b : B) :
  bind m k = inr b -> exists a, m = inr a /\ k a = inr b.
Proof.
  destruct m as [e | a]; simpl; intros H; [discriminate | eauto].
Qed.

Lemma mapM_inr {A B} (f : A -> result B) (l : list A) (bs : list B) :
  mapM f l = inr bs -> Forall2 (fun a b => f a = inr b) l bs.
Proof.
  revert bs; induction l as [| a l IH]; simpl; intros bs H.
  - injection H as <-. constructor.
  - apply bind_inr in H as (b & Hb & H).
    apply bind_inr in H as (bs' & Hbs & H).
    injection H as <-. constructor; auto.
Qed.

Lemma mapM_total {A B} (f : A -> result B) (l : list A) :
  Forall (fun a => exists b, f a = inr b) l -> exists bs, mapM f l = inr bs.
Proof.
  induction 1 as [| a l [b Hb] _ [bs Hbs]]; simpl.
  - eexists; reflexivity.
  - rewrite Hb; simpl. rewrite Hbs; simpl. eexists; reflexivity.
Qed.

Lemma positive_nonzero (v : float) : (0 <? v)%float = true -> (v =? 0)%float = false.
Proof.
  rewrite FloatAxioms.ltb_spec, FloatAxioms.eqb_spec.
  destruct (Prim2SF v) as [s | s | | s m e]; try destruct s; cbv; congruence.
Qed.

Lemma div_nonzero (a b : float) :
  (b =? 0)%float = false -> Py.div a b = inr (a / b)%float.
Proof. unfold Py.div; intros ->; reflexivity. Qed.

Lemma eqb_not_ltb (a b : float) : (a =? b)%float = true -> (a <? b)%float = false.
Proof.
  rewrite FloatAxioms.ltb_spec, FloatAxioms.eqb_spec. unfold SFeqb, SFltb.
  destruct (SFcompare (Prim2SF a) (Prim2SF b)) as [[ | | ] |]; congruence.
Qed.

(** ** Distance classifier *)

Lemma estimate_distance_total (obj : ObjectDetection) (img_height : float) :
  (img_height =? 0)%float = false ->
  exists d, _estimate_distance obj img_height = inr d /\ In d distance_labels.
Proof.
  intros Hh. unfold _estimate_distance.
  destruct (bbox obj) as [[| x1 [| y1 [| x2 [| y2 [| ? ?]]]]] |];
    try (eexists; split; [reflexivity | in_labels]).
  rewrite !div_nonzero by assumption. cbn [bind].
  eexists; split; [reflexivity |].
  repeat match goal with
         | |- context [if ?c then _ else _] => destruct c
         end; in_labels.
Qed.

Lemma nearest_from_total (objects : list ObjectDetection) :
  forall best_rank best, exists d, nearest_from best_rank best objects = inr d.
Proof.
  induction objects as [| o rest IH]; intros best_rank best; cbn [nearest_from].
  - eexists; reflexivity.
  - destruct (estimate_distance_total o 480 eq_refl) as (d & -> & _). cbn [bind].
    destruct (index_of d distance_rank_order) as [i |]; [destruct (i <? best_rank)%nat |];
      apply IH.
Qed.

(** ** Free-path finder *)

Lemma gap_direction_label (rel : float) : In (gap_direction rel) free_path_labels.
Proof.
  unfold gap_direction.
  repeat match goal with
         | |- context [if ?c then _ else _] => destruct c
         end; in_labels.
Qed.

Lemma occupied_intervals_total (objects : list ObjectDetection) (img_width : float) :
  (img_width =? 0)%float = false ->
  exists l, occupied_intervals objects img_width = inr l.
Proof.
  intros Hw. induction objects as [| o rest [l IH]]; cbn [occupied_intervals].
  - eexists; reflexivity.
  - destruct (bbox o) as [[| x1 [| y1 [| x2 [| y2 [| ? ?]]]]] |]; eauto.
    match goal with |- context [if ?c then _ else _] => destruct c end; eauto.
    rewrite !div_nonzero by assumption. cbn [bind]. rewrite IH. cbn [bind].
    eexists; reflexivity.
Qed.

(** C1. For every list of detections and every positive frame width,
    [_free_path_direction] returns a result (it raises nothing) whose
    direction is one of center, slightly left/right, left/right and hard
    left/right; when no detection projects an interval, and in particular
    for the empty detection list, the direction is "center" and the distance
    is "clear". *)
Theorem free_path_direction_always_recommends
  (objects : list ObjectDetection) (img_width : float) :
  (0 <? img_width)%float = true ->
  exists r,
    _free_path_direction objects img_width = inr r
    /\ In (OpenPath.direction r) free_path_labels
    /\ (occupied_intervals objects img_width = inr [] ->
        OpenPath.direction r = "center" /\ OpenPath.distance r = "clear")
    /\ (objects = [] ->
        OpenPath.direction r = "center" /\ OpenPath.distance r = "clear").
Proof.
  intros Hpos. pose proof (positive_nonzero _ Hpos) as Hw.
  assert (Hempty : objects = [] -> occupied_intervals objects img_width = inr [])
    by (intros ->; reflexivity).
  unfold _free_path_direction.
  destruct (occupied_intervals_total objects img_width Hw) as [l Hl].
  rewrite Hl in *. cbn [bind].
  destruct l as [| i rest].
  - eexists; split; [reflexivity |]. split; [in_labels |]. split; auto.
  - destruct (gaps_from 0 (merged_intervals (i :: rest))) as [| g gs].
    + destruct (nearest_from_total objects (List.length distance_rank_order) "clear")
        as [d Hd].
      unfold _nearest_obstacle_distance. rewrite Hd. cbn [bind].
      eexists; split; [reflexivity |]. cbn [OpenPath.direction OpenPath.distance].
      split; [destruct (left_coverage _ <? right_coverage _)%float; in_labels |].
      split; intros H; [discriminate | specialize (Hempty H); discriminate].
    + destruct (nearest_from_total objects (List.length distance_rank_order) "clear")
        as [d Hd].
      unfold _nearest_obstacle_distance. rewrite Hd. cbn [bind].
      eexists; split; [reflexivity |]. cbn [OpenPath.direction OpenPath.distance].
      split; [apply gap_direction_label |].
      split; intros H; [discriminate | specialize (Hempty H); discriminate].
Qed.

Lemma free_path_direction_always_recommends_witness :
  exists r,
    _free_path_direction
      [detection "chair" 0.9 (Some [0; 200; 200; 300]%float)] 640 = inr r
    /\ In (OpenPath.direction r) free_path_labels
    /\ (occupied_intervals
          [detection "chair" 0.9 (Some [0; 200; 200; 300]%float)] 640 = inr [] ->
        OpenPath.direction r = "center" /\ OpenPath.distance r = "clear")
    /\ ([detection "chair" 0.9 (Some [0; 200; 200; 300]%float)] = [] ->
        OpenPath.direction r = "center" /\ OpenPath.distance r = "clear").
Proof.
  apply (free_path_direction_always_recommends
           [detection "chair" 0.9 (Some [0; 200; 200; 300]%float)] 640).
  reflexivity.
Defined.

Lemma left_coverage_total (merged : list interval) :
  left_coverage merged = total_left_of 0.5 0 merged.
Proof.
  unfold left_coverage, Py.sum.
  enough (H : forall acc,
             fold_left (fun acc v => (acc + v)%float)
               (map (fun '(s, e) => Py.max 0.0 (Py.min e 0.5 - s)%float)
                    (filter (fun '(s, e) => (s <? 0.5)%float) merged)) acc
             = total_left_of 0.5 acc merged) by apply H.
  induction merged as [| [s e] merged IH]; intros acc; [reflexivity |].
  cbn [filter total_left_of].
  destruct (s <? 0.5)%float; cbn [map fold_left]; apply IH.
Qed.

Lemma right_coverage_total (merged : list interval) :
  right_coverage merged = total_right_of 0.5 0 merged.
Proof.
  unfold right_coverage, Py.sum.
  enough (H : forall acc,
             fold_left (fun acc v => (acc + v)%float)
               (map (fun '(s, e) => Py.max 0.0 (e - Py.max s 0.5)%float)
                    (filter (fun '(s, e) => (0.5 <? e)%float) merged)) acc
             = total_right_of 0.5 acc merged) by apply H.
  induction merged as [| [s e] merged IH]; intros acc; [reflexivity |].
  cbn [filter total_right_of].
  destruct (0.5 <? e)%float; cbn [map fold_left]; apply IH.
Qed.

(** C10, as stated, fails: the boxes [22, 346] and [368, 684] tile a frame
    640 pixels wide without a gap and cover 298 pixel columns on each side of
    the midline, but the two rounded totals differ in the last place and the
    answer is "left", not "right". *)
Lemma free_path_equal_coverage_goes_left :
  covered_columns 0 320 [(22, 346); (368, 684)]%Z = 298%nat
  /\ covered_columns 320 640 [(22, 346); (368, 684)]%Z = 298%nat
  /\ exists intervals r,
      occupied_intervals
        [detection "wall" 0.9 (Some [22; 0; 346; 480]%float);
         detection "shelf" 0.8 (Some [368; 0; 684; 480]%float)] 640 = inr intervals
      /\ gaps_from 0 (merged_intervals intervals) = []
      /\ _free_path_direction
           [detection "wall" 0.9 (Some [22; 0; 346; 480]%float);
            detection "shelf" 0.8 (Some [368; 0; 684; 480]%float)] 640 = inr r
      /\ OpenPath.direction r = "left".
Proof.
  split; [vm_compute; reflexivity |]. split; [vm_compute; reflexivity |].
  eexists. eexists. repeat split; reflexivity.
Qed.

(** C10, as the code has it. When the merged occupied intervals leave no
    gap wider than 0.05, [_free_path_direction] answers "left" exactly when
    the binary64 total of the widths left of the 0.5 midline is strictly
    below the total right of it, and "right" otherwise, so "right" when the
    two totals are equal; the confidence on this branch is the constant
    0.3. *)
Theorem free_path_no_gap_prefers_lighter_side
  (objects : list ObjectDetection) (img_width : float)
  (intervals merged : list interval) :
  occupied_intervals objects img_width = inr intervals ->
  intervals <> [] ->
  merged_intervals intervals = merged ->
  gaps_from 0 merged = [] ->
  let lc := total_left_of 0.5 0 merged in
  let rc := total_right_of 0.5 0 merged in
  exists r,
    _free_path_direction objects img_width = inr r
    /\ (OpenPath.direction r = "left" <-> (lc <? rc)%float = true)
    /\ (OpenPath.direction r = "right" <-> (lc <? rc)%float = false)
    /\ ((lc =? rc)%float = true -> OpenPath.direction r = "right")
    /\ OpenPath.confidence r = 0.3%float.
Proof.
  intros Hint Hne Hmerged Hgaps lc rc. unfold _free_path_direction.
  rewrite Hint. cbn [bind].
  destruct intervals as [| i rest]; [contradiction |].
  rewrite Hmerged, Hgaps.
  destruct (nearest_from_total objects (List.length distance_rank_order) "clear")
    as [d Hd].
  unfold _nearest_obstacle_distance. rewrite Hd. cbn [bind].
  eexists; split; [reflexivity |].
  cbn [OpenPath.direction OpenPath.confidence].
  rewrite left_coverage_total, right_coverage_total. fold lc rc.
  repeat split.
  - destruct (lc <? rc)%float; [reflexivity | discriminate].
  - intros ->; reflexivity.
  - destruct (lc <? rc)%float; [discriminate | reflexivity].
  - intros ->; reflexivity.
  - intros Heq. rewrite (eqb_not_ltb _ _ Heq). reflexivity.
Qed.

Lemma free_path_no_gap_prefers_lighter_side_witness :
  exists r,
    _free_path_direction
      [detection "wall" 0.9 (Some [0; 200; 640; 300]%float)] 640 = inr r
    /\ OpenPath.direction r = "right"
    /\ OpenPath.confidence r = 0.3%float.
Proof.
  destruct (free_path_no_gap_prefers_lighter_side
              [detection "wall" 0.9 (Some [0; 200; 640; 300]%float)] 640
              [(0, 1)%float] [(0, 1)%float] eq_refl ltac:(discriminate)
              eq_refl eq_refl)
    as (r & Hr & _ & _ & Heq & Hc).
  exists r. split; [exact Hr |]. split; [apply Heq; reflexivity | exact Hc].
Defined.

(** ** Distance classifier: the threshold table *)

(** C6, as the code has it. For every detection and non-zero frame height,
    [_estimate_distance] returns one of the six labels; a four-element box,
    of zero height or not, is classified by the descending thresholds on
    [(rel_height, rel_bottom)]; a missing, empty or otherwise not
    four-element box gives "unknown". *)
Theorem estimate_distance_labels_and_thresholds
  (obj : ObjectDetection) (img_height : float) :
  (img_height =? 0)%float = false ->
  exists d,
    _estimate_distance obj img_height = inr d
    /\ In d distance_labels
    /\ (forall x1 y1 x2 y2, bbox obj = Some [x1; y1; x2; y2] ->
        distance_class ((y2 - y1) / img_height) (y2 / img_height) d)
    /\ ((forall x1 y1 x2 y2, bbox obj <> Some [x1; y1; x2; y2]) -> d = "unknown").
Proof.
  intros Hh.
  destruct (estimate_distance_total obj img_height Hh) as (d & Hd & Hin).
  exists d. split; [exact Hd |]. split; [exact Hin |].
  unfold _estimate_distance in Hd.
  destruct (bbox obj) as [[| x1 [| y1 [| x2 [| y2 [| ? ?]]]]] |];
    try (split; [intros ? ? ? ? [=] | intros _; unfold ret in Hd; congruence]).
  split.
  - intros ? ? ? ? [= <- <- <- <-].
    rewrite !div_nonzero in Hd by assumption. cbn [bind] in Hd.
    injection Hd as <-.
    destruct (0.4 <? (y2 - y1) / img_height)%float eqn:E1,
             (0.7 <? y2 / img_height)%float eqn:E2,
             (0.25 <? (y2 - y1) / img_height)%float eqn:E3,
             (0.6 <? y2 / img_height)%float eqn:E4,
             (0.15 <? (y2 - y1) / img_height)%float eqn:E5,
             (0.5 <? y2 / img_height)%float eqn:E6,
             (0.08 <? (y2 - y1) / img_height)%float eqn:E7;
      cbn [andb]; constructor;
      rewrite ?E1, ?E2, ?E3, ?E4, ?E5, ?E6, ?E7; reflexivity.
  - intros H. exfalso. apply (H x1 y1 x2 y2). reflexivity.
Qed.

Lemma estimate_distance_labels_and_thresholds_witness :
  exists d,
    _estimate_distance (detection "person" 0.9 (Some [200; 200; 500; 470]%float)) 480
    = inr d
    /\ In d distance_labels
    /\ distance_class ((470 - 200) / 480) (470 / 480) d.
Proof.
  destruct (estimate_distance_labels_and_thresholds
              (detection "person" 0.9 (Some [200; 200; 500; 470]%float)) 480 eq_refl)
    as (d & Hd & Hin & Hclass & _).
  exists d. split; [exact Hd |]. split; [exact Hin |].
  exact (Hclass 200 200 500 470 eq_refl)%float.
Defined.

(** C6, as stated, fails on a degenerate box: a four-element box of zero
    pixel height is not answered with "unknown" but classified "very far". *)
Lemma estimate_distance_zero_height_is_very_far :
  _estimate_distance (detection "chair" 0.9 (Some [10; 20; 30; 20]%float)) 480
  = inr "very far"
  /\ _estimate_distance (detection "chair" 0.9 (Some [10; 20; 30; 20]%float)) 480
     <> inr "unknown".
Proof. split; [reflexivity | discriminate]. Qed.

(** ** Precise position *)

(** C2 (the code departs from it). For a four-element box of zero pixel
    height [_calculate_precise_position] does not return the zeroed
    "unknown" position: it raises ZeroDivisionError, for every frame. *)
Theorem calculate_precise_position_zero_height_raises
  (obj : ObjectDetection) (img_width img_height x1 y1 x2 y2 : float) :
  bbox obj = Some [x1; y1; x2; y2] ->
  (y2 - y1 =? 0)%float = true ->
  _calculate_precise_position obj img_width img_height = inl ZeroDivisionError.
Proof.
  intros Hbox Hzero. unfold _calculate_precise_position. rewrite Hbox.
  unfold Py.div at 1.
  destruct (img_width / 60 =? 0)%float; [reflexivity |]. cbn [bind ret].
  unfold Py.div. rewrite Hzero. reflexivity.
Qed.

Lemma calculate_precise_position_zero_height_raises_witness :
  _calculate_precise_position
    (detection "person" 0.9 (Some [100; 100; 200; 100]%float)) 640 480
  = inl ZeroDivisionError.
Proof.
  apply (calculate_precise_position_zero_height_raises
           (detection "person" 0.9 (Some [100; 100; 200; 100]%float))
           640 480 100 100 200 100); reflexivity.
Defined.

(** C8, as stated, fails: the centre of the box [319, 0, 320, 100] is left
    of the centre of a 640 pixel frame, the offset of -0.046875 degrees is
    rounded to one decimal, and the returned angle is -0.0, which is not
    below zero. *)
Lemma calculate_precise_position_angle_not_strict :
  exists p,
    _calculate_precise_position
      (detection "person" 0.9 (Some [319; 0; 320; 100]%float)) 640 480 = inr p
    /\ ((319 + 320) / 2 <? 640 / 2)%float = true
    /\ (Position.angle p <? 0)%float = false.
Proof. eexists; split; [reflexivity | split; reflexivity]. Qed.

(** ** Signs of binary64 results *)

Lemma binary_round_aux_sign (s : bool) (m e : Z) (l : location) :
  has_sign s (binary_round_aux prec emax s m e l).
Proof.
  unfold binary_round_aux.
  destruct (shr_fexp prec emax m e l) as [mrs' e'].
  destruct (shr_fexp prec emax _ e' loc_Exact) as [mrs'' e''].
  destruct (shr_m mrs''); [exact I | | exact I].
  destruct (Z.leb e'' (emax - prec)); reflexivity.
Qed.

Lemma binary_round_sign (s : bool) (m : positive) (e : Z) :
  has_sign s (binary_round prec emax s m e).
Proof.
  unfold binary_round. destruct (shl_align m e _) as [mz ez].
  apply binary_round_aux_sign.
Qed.

Lemma binary_normalize_sign (m e : Z) (szero : bool) :
  has_sign (m <? 0)%Z (binary_normalize prec emax m e szero).
Proof.
  destruct m as [| p | p]; cbn [binary_normalize]; [exact I | |];
    apply binary_round_sign.
Qed.

Lemma SFdiv_sign (sd sp : bool) (d p : spec_float) :
  has_sign sd d -> strict_sign sp p -> has_sign (xorb sd sp) (SFdiv prec emax d p).
Proof.
  destruct d as [s1 | s1 | | s1 m1 e1], p as [s2 | s2 | | s2 m2 e2];
    cbn [has_sign strict_sign SFdiv]; intros Hd Hp; subst; try exact I;
    try contradiction; try reflexivity.
  destruct (SFdiv_core_binary prec emax (Z.pos m1) e1 (Z.pos m2) e2) as [[mz ez] lz].
  apply binary_round_aux_sign.
Qed.

Lemma SFdiv_zero_or_nan (d p : spec_float) :
  zero_or_nan d -> zero_or_nan (SFdiv prec emax d p).
Proof.
  destruct d as [s1 | s1 | | s1 m1 e1], p as [s2 | s2 | | s2 m2 e2];
    cbn [zero_or_nan SFdiv]; intros Hd; try exact I; contradiction.
Qed.

Lemma has_sign_opp (s : bool) (f : spec_float) :
  has_sign s f -> has_sign (negb s) (SFopp f).
Proof. destruct f; cbn; intros; subst; auto. Qed.

Lemma of_uint63_sign (n : PrimInt63.int) : has_sign false (Prim2SF (of_uint63 n)).
Proof.
  rewrite of_uint63_spec.
  pose proof (binary_normalize_sign (Uint63Axioms.to_Z n) 0 false) as H.
  destruct (Uint63.to_Z_bounded n) as [Hn _].
  apply Z.ltb_ge in Hn. rewrite Hn in H. exact H.
Qed.

Lemma SFldexp_sign (s : bool) (f : spec_float) (e : Z) :
  has_sign s f -> has_sign s (SFldexp prec emax f e).
Proof.
  destruct f as [| | | s' m e']; cbn [SFldexp has_sign]; auto.
  intros ->. apply binary_round_sign.
Qed.

(** A float built from a specification value keeps its sign. *)
Lemma SF2Prim_sign (s : bool) (v : spec_float) :
  has_sign s v -> has_sign s (Prim2SF (SF2Prim v)).
Proof.
  destruct v as [[|] | [|] | | s' m e]; cbn [has_sign]; intros H; subst;
    try exact I; try reflexivity.
  unfold SF2Prim.
  assert (Hf : has_sign false
                 (Prim2SF (Z.ldexp (of_uint63 (Uint63Axioms.of_Z (Z.pos m))) e))).
  { unfold Z.ldexp. rewrite ldshiftexp_spec.
    apply SFldexp_sign, of_uint63_sign. }
  destruct s.
  - rewrite opp_spec. apply (has_sign_opp false), Hf.
  - exact Hf.
Qed.

Lemma SF2Prim_zero_or_nan (v : spec_float) :
  zero_or_nan v -> zero_or_nan (Prim2SF (SF2Prim v)).
Proof.
  destruct v as [[|] | [|] | | s' m e]; cbn [zero_or_nan]; intros H;
    try contradiction; exact I.
Qed.

Lemma round1_sign (s : bool) (a : float) :
  has_sign s (Prim2SF a) -> has_sign s (Prim2SF (round1 a)).
Proof.
  intros H. unfold round1, scaled_round.
  destruct (Prim2SF a) as [s' | s' | | s' m e] eqn:Ea; cbn [has_sign] in H.
  - apply SF2Prim_sign. exact I.
  - rewrite Ea. exact H.
  - rewrite Ea. exact I.
  - subst s'. apply SF2Prim_sign.
    replace s with (xorb s false) at 1 by (destruct s; reflexivity).
    apply SFdiv_sign; [| reflexivity].
    destruct (round_half_even _ _); cbn; auto.
Qed.

Lemma round1_zero_or_nan (a : float) :
  zero_or_nan (Prim2SF a) -> zero_or_nan (Prim2SF (round1 a)).
Proof.
  intros H. unfold round1, scaled_round.
  destruct (Prim2SF a) as [s' | s' | | s' m e] eqn:Ea; cbn [zero_or_nan] in H;
    try contradiction.
  - apply SF2Prim_zero_or_nan. exact I.
  - rewrite Ea. exact I.
Qed.

(** *** Subtraction of ordered floats *)

Lemma digits2_pos_bounds (m : positive) :
  (2 ^ (Z.pos (digits2_pos m) - 1) <= Z.pos m < 2 ^ Z.pos (digits2_pos m))%Z.
Proof.
  induction m as [p IH | p IH |]; cbn [digits2_pos].
  - rewrite Pos2Z.inj_succ, Z.pow_succ_r by lia.
    replace (Z.succ (Z.pos (digits2_pos p)) - 1)%Z
      with (Z.succ (Z.pos (digits2_pos p) - 1))%Z by lia.
    rewrite Z.pow_succ_r by lia. lia.
  - rewrite Pos2Z.inj_succ, Z.pow_succ_r by lia.
    replace (Z.succ (Z.pos (digits2_pos p)) - 1)%Z
      with (Z.succ (Z.pos (digits2_pos p) - 1))%Z by lia.
    rewrite Z.pow_succ_r by lia. lia.
  - cbn. lia.
Qed.

(** A binary64 mantissa is below [2^53]; above the least exponent it is
    normal, that is at least [2^52]. *)
Lemma bounded_mantissa (m : positive) (e : Z) :
  bounded prec emax m e = true ->
  (-1074 <= e)%Z
  /\ (Z.pos m < 9007199254740992)%Z
  /\ (-1074 < e -> 4503599627370496 <= Z.pos m)%Z.
Proof.
  unfold bounded, canonical_mantissa, fexp, SpecFloat.emin, prec, emax.
  intros H. apply andb_prop in H as [H _]. apply Z.eqb_eq in H.
  pose proof (digits2_pos_bounds m) as [Hlo Hhi].
  set (d := Z.pos (digits2_pos m)) in *.
  assert (Hd : (d <= 53)%Z) by lia.
  repeat split.
  - lia.
  - apply Z.lt_le_trans with (1 := Hhi).
    change 9007199254740992%Z with (2 ^ 53)%Z. apply Z.pow_le_mono_r; lia.
  - intros He. assert (d = 53)%Z by lia. subst d.
    replace (Z.pos (digits2_pos m) - 1)%Z with 52%Z in Hlo by lia. exact Hlo.
Qed.

Lemma shl_align_value (m : positive) (e ez : Z) :
  (ez <= e)%Z -> Z.pos (fst (shl_align m e ez)) = (Z.pos m * 2 ^ (e - ez))%Z.
Proof.
  intros Hle. unfold shl_align.
  destruct (ez - e)%Z as [| p | p] eqn:E.
  - replace (e - ez)%Z with 0%Z by lia. cbn [fst]. lia.
  - lia.
  - cbn [fst]. replace (e - ez)%Z with (Z.pos p) by lia.
    change (Pos.iter xO m p) with (shift_pos p m).
    rewrite shift_pos_correct. change (2 ^ Z.pos p)%Z with (Z.pow_pos 2 p). lia.
Qed.

(** The comparison of two valid finite floats is the sign of the exact
    difference that [SFsub] rounds. *)
Lemma finite_sub_compare (sx sy : bool) (mx my : positive) (ex ey : Z) :
  bounded prec emax mx ex = true ->
  bounded prec emax my ey = true ->
  SFcompare (S754_finite sx mx ex) (S754_finite sy my ey)
  = Some ((cond_Zopp sx (Z.pos (fst (shl_align mx ex (Z.min ex ey))))
           - cond_Zopp sy (Z.pos (fst (shl_align my ey (Z.min ex ey)))) ?= 0)%Z).
Proof.
  intros Hx Hy.
  apply bounded_mantissa in Hx as (Hex & Hmx & Hnx).
  apply bounded_mantissa in Hy as (Hey & Hmy & Hny).
  rewrite !shl_align_value by lia.
  cbn [SFcompare]. f_equal.
  change (Pos.compare_cont Eq mx my) with (Pos.compare mx my).
  rewrite Pos2Z.inj_compare.
  assert (Hpow : forall k, (1 <= k)%Z -> (2 <= 2 ^ k)%Z).
  { intros k Hk. change 2%Z with (2 ^ 1)%Z at 1. apply Z.pow_le_mono_r; lia. }
  destruct (Z.compare_spec ex ey) as [Heq | Hlt | Hgt].
  - subst ey. rewrite Z.min_id, Z.sub_diag, Z.pow_0_r, !Z.mul_1_r.
    destruct sx, sy; cbn [cond_Zopp];
      destruct (Z.compare_spec (Z.pos mx) (Z.pos my)); cbn [CompOpp]; symmetry;
      first [ apply Z.compare_eq_iff; lia | apply Z.compare_lt_iff; lia
            | apply Z.compare_gt_iff; lia ].
  - rewrite Z.min_l, Z.sub_diag, Z.pow_0_r, Z.mul_1_r by lia.
    specialize (Hny ltac:(lia)). specialize (Hpow (ey - ex)%Z ltac:(lia)).
    destruct sx, sy; cbn [cond_Zopp]; symmetry;
      first [ apply Z.compare_lt_iff; nia | apply Z.compare_gt_iff; nia ].
  - rewrite Z.min_r, Z.sub_diag, Z.pow_0_r, Z.mul_1_r by lia.
    specialize (Hnx ltac:(lia)). specialize (Hpow (ex - ey)%Z ltac:(lia)).
    destruct sx, sy; cbn [cond_Zopp]; symmetry;
      first [ apply Z.compare_lt_iff; nia | apply Z.compare_gt_iff; nia ].
Qed.

Lemma finite_sub_sign (sx sy : bool) (mx my : positive) (ex ey : Z) :
  bounded prec emax mx ex = true ->
  bounded prec emax my ey = true ->
  let x := S754_finite sx mx ex in
  let y := S754_finite sy my ey in
  (SFltb x y = true -> has_sign true (SFsub prec emax x y))
  /\ (SFltb y x = true -> has_sign false (SFsub prec emax x y))
  /\ (SFeqb x y = true -> zero_or_nan (SFsub prec emax x y)).
Proof.
  intros Hx Hy x y. unfold SFltb, SFeqb, x, y.
  rewrite (finite_sub_compare _ _ _ _ _ _ Hx Hy),
          (finite_sub_compare _ _ _ _ _ _ Hy Hx), (Z.min_comm ey ex).
  cbn [SFsub].
  set (X := cond_Zopp sx _). set (Y := cond_Zopp sy _).
  pose proof (binary_normalize_sign (X - Y) (Z.min ex ey) false) as Hs.
  change (IntDef.Z.min ex ey) with (Z.min ex ey).
  repeat split; intros H.
  - destruct (Z.compare_spec (X - Y) 0); try discriminate.
    replace (X - Y <? 0)%Z with true in Hs by (symmetry; apply Z.ltb_lt; lia).
    exact Hs.
  - destruct (Z.compare_spec (Y - X) 0); try discriminate.
    replace (X - Y <? 0)%Z with false in Hs by (symmetry; apply Z.ltb_ge; lia).
    exact Hs.
  - destruct (Z.compare_spec (X - Y) 0) as [-> | |]; try discriminate.
    exact I.
Qed.

(** The sign of [x - y] for ordered valid floats. *)
Lemma SFsub_compare_sign (x y : spec_float) :
  valid_binary x = true -> valid_binary y = true ->
  (SFltb x y = true -> has_sign true (SFsub prec emax x y))
  /\ (SFltb y x = true -> has_sign false (SFsub prec emax x y))
  /\ (SFeqb x y = true -> zero_or_nan (SFsub prec emax x y)).
Proof.
  intros Hx Hy.
  destruct x as [sx | sx | | sx mx ex], y as [sy | sy | | sy my ey];
    try (apply finite_sub_sign; assumption);
    try (destruct sx); try (destruct sy);
    repeat split; intros H; first [discriminate | exact I | reflexivity].
Qed.

Lemma div_inr (a b v : float) :
  Py.div a b = inr v -> (b =? 0)%float = false /\ v = (a / b)%float.
Proof.
  unfold Py.div. destruct (b =? 0)%float; intros H; [discriminate |].
  injection H as <-. auto.
Qed.

Lemma positive_strict_sign (v : float) :
  (0 <? v)%float = true -> strict_sign false (Prim2SF v).
Proof.
  rewrite FloatAxioms.ltb_spec.
  destruct (Prim2SF v) as [s | s | | s m e]; try destruct s; cbv;
    congruence.
Qed.

Lemma nonzero_strict_sign (s : bool) (v : float) :
  (v =? 0)%float = false -> has_sign s (Prim2SF v) -> strict_sign s (Prim2SF v).
Proof.
  rewrite FloatAxioms.eqb_spec.
  destruct (Prim2SF v) as [s' | s' | | s' m e]; cbn [has_sign strict_sign]; auto.
  cbv. congruence.
Qed.

Lemma has_sign_true_le_zero (v : float) :
  has_sign true (Prim2SF v) -> (v =? v)%float = true -> (v <=? 0)%float = true.
Proof.
  rewrite FloatAxioms.eqb_spec, FloatAxioms.leb_spec.
  destruct (Prim2SF v) as [s | s | | s m e]; cbn [has_sign]; intros H; subst;
    cbv; congruence.
Qed.

Lemma has_sign_false_ge_zero (v : float) :
  has_sign false (Prim2SF v) -> (v =? v)%float = true -> (0 <=? v)%float = true.
Proof.
  rewrite FloatAxioms.eqb_spec, FloatAxioms.leb_spec.
  destruct (Prim2SF v) as [s | s | | s m e]; cbn [has_sign]; intros H; subst;
    cbv; congruence.
Qed.

Lemma zero_or_nan_eq_zero (v : float) :
  zero_or_nan (Prim2SF v) -> (v =? v)%float = true -> (v =? 0)%float = true.
Proof.
  rewrite !FloatAxioms.eqb_spec.
  destruct (Prim2SF v) as [s | s | | s m e]; cbn [zero_or_nan]; intros H;
    try contradiction; cbv; congruence.
Qed.

(** The angle offset [(center_x - frame_center_x) / (img_width / 60)],
    rounded to one decimal, for a positive frame width. *)
Lemma rounded_offset_sign (center_x img_width : float) :
  (0 <? img_width)%float = true ->
  (img_width / 60 =? 0)%float = false ->
  let frame_center_x := (img_width / 2)%float in
  let angle := round1 ((center_x - frame_center_x) / (img_width / 60))%float in
  ((center_x <? frame_center_x)%float = true -> has_sign true (Prim2SF angle))
  /\ ((frame_center_x <? center_x)%float = true -> has_sign false (Prim2SF angle))
  /\ ((center_x =? frame_center_x)%float = true -> zero_or_nan (Prim2SF angle)).
Proof.
  intros Hpos Hppd frame_center_x angle.
  assert (Hp : strict_sign false (Prim2SF (img_width / 60))).
  { apply nonzero_strict_sign; [exact Hppd |].
    rewrite div_spec.
    apply (SFdiv_sign false false); [| reflexivity].
    pose proof (positive_strict_sign _ Hpos) as H.
    destruct (Prim2SF img_width); cbn in *; auto. }
  destruct (SFsub_compare_sign (Prim2SF center_x) (Prim2SF frame_center_x)
              (Prim2SF_valid _) (Prim2SF_valid _)) as (Hlt & Hgt & Heq).
  unfold angle. repeat split; intros H.
  - apply round1_sign. rewrite div_spec, sub_spec.
    apply (SFdiv_sign true false); [| exact Hp].
    apply Hlt. rewrite <- FloatAxioms.ltb_spec. exact H.
  - apply round1_sign. rewrite div_spec, sub_spec.
    apply (SFdiv_sign false false); [| exact Hp].
    apply Hgt. rewrite <- FloatAxioms.ltb_spec. exact H.
  - apply round1_zero_or_nan. rewrite div_spec, sub_spec.
    apply SFdiv_zero_or_nan.
    apply Heq. rewrite <- FloatAxioms.eqb_spec. exact H.
Qed.

(** *** Rounding to one decimal, away from zero *)

Lemma shr_1_m (mrs : shr_record) :
  (0 <= shr_m mrs)%Z -> shr_m (shr_1 mrs) = (shr_m mrs / 2)%Z.
Proof.
  destruct mrs as [m r s]. cbn [shr_m]. intros H.
  destruct m as [| [p | p |] | p]; cbn [shr_1 shr_m]; try lia.
  - reflexivity.
  - apply (Z.div_unique (Z.pos p~1) 2 (Z.pos p) 1); lia.
  - apply (Z.div_unique (Z.pos p~0) 2 (Z.pos p) 0); lia.
  - reflexivity.
Qed.

Lemma iter_pos_shr (n : positive) :
  forall mrs,
    (0 <= shr_m mrs)%Z ->
    shr_m (SpecFloat.iter_pos shr_1 n mrs) = (shr_m mrs / 2 ^ Z.pos n)%Z.
Proof.
  assert (Hpow : forall k : positive, (0 < 2 ^ Z.pos k)%Z)
    by (intros k; apply Z.pow_pos_nonneg; lia).
  assert (Hnn : forall k mrs,
             (forall mrs, (0 <= shr_m mrs)%Z ->
                          shr_m (SpecFloat.iter_pos shr_1 k mrs) = (shr_m mrs / 2 ^ Z.pos k)%Z) ->
             (0 <= shr_m mrs)%Z -> (0 <= shr_m (SpecFloat.iter_pos shr_1 k mrs))%Z).
  { intros k mrs IH H. rewrite IH by exact H. apply Z.div_pos; [exact H | apply Hpow]. }
  induction n as [n IH | n IH |]; intros mrs H; cbn [SpecFloat.iter_pos].
  - assert (H1 : (0 <= shr_m (shr_1 mrs))%Z)
      by (rewrite shr_1_m by exact H; apply Z.div_pos; lia).
    rewrite IH by (apply Hnn; assumption).
    rewrite IH by exact H1. rewrite shr_1_m by exact H.
    rewrite !Z.div_div by (pose proof (Hpow n); lia).
    f_equal. replace (Z.pos n~1) with (1 + Z.pos n + Z.pos n)%Z by lia.
    rewrite !Z.pow_add_r by lia. change (2 ^ 1)%Z with 2%Z. lia.
  - rewrite IH by (apply Hnn; assumption).
    rewrite IH by exact H.
    rewrite !Z.div_div by (pose proof (Hpow n); lia).
    f_equal. replace (Z.pos n~0) with (Z.pos n + Z.pos n)%Z by lia.
    rewrite !Z.pow_add_r by lia. lia.
  - rewrite shr_1_m by exact H. reflexivity.
Qed.

Lemma digits_above (p : positive) (k : Z) :
  (0 <= k)%Z -> (2 ^ k <= Z.pos p)%Z -> (k < Z.pos (digits2_pos p))%Z.
Proof.
  intros Hk H. pose proof (digits2_pos_bounds p) as [_ Hhi].
  apply (Z.pow_lt_mono_r_iff 2); lia.
Qed.

Lemma digits_below (p : positive) (k : Z) :
  (0 <= k)%Z -> (Z.pos p < 2 ^ k)%Z -> (Z.pos (digits2_pos p) <= k)%Z.
Proof.
  intros Hk H. pose proof (digits2_pos_bounds p) as [Hlo _].
  assert (Z.pos (digits2_pos p) - 1 < k)%Z; [| lia].
  apply (Z.pow_lt_mono_r_iff 2); lia.
Qed.

(** A mantissa of at least 53 digits is shifted down to exactly 53. *)
Lemma shr_fexp_normal (p : positive) (e : Z) (l : location) :
  (53 <= Z.pos (digits2_pos p))%Z -> (-1074 <= e)%Z ->
  exists mrs,
    shr_fexp prec emax (Z.pos p) e l = (mrs, (e + (Z.pos (digits2_pos p) - 53))%Z)
    /\ (4503599627370496 <= shr_m mrs < 9007199254740992)%Z.
Proof.
  intros Hd He. pose proof (digits2_pos_bounds p) as [Hlo Hhi].
  set (d := Z.pos (digits2_pos p)) in *.
  unfold shr_fexp, fexp, SpecFloat.emin, prec, emax. cbn [Zdigits2]. fold d.
  replace (Z.max (d + e - 53) (3 - 1024 - 53) - e)%Z with (d - 53)%Z by lia.
  assert (Hm : forall m, shr_m (shr_record_of_loc m l) = m)
    by (intros m; destruct l as [| []]; reflexivity).
  destruct (d - 53)%Z as [| n | n] eqn:En; [| | lia]; cbn [shr].
  - eexists. split; [f_equal; lia |]. rewrite Hm.
    assert (d = 53)%Z by lia.
    replace (d - 1)%Z with 52%Z in Hlo by lia.
    replace d with 53%Z in Hhi by lia.
    change (2 ^ 52)%Z with 4503599627370496%Z in Hlo.
    change (2 ^ 53)%Z with 9007199254740992%Z in Hhi. lia.
  - eexists. split; [reflexivity |].
    rewrite iter_pos_shr by (rewrite Hm; lia). rewrite Hm.
    assert (Hpow : (0 < 2 ^ Z.pos n)%Z) by (apply Z.pow_pos_nonneg; lia).
    replace (d - 1)%Z with (Z.pos n + 52)%Z in Hlo by lia.
    replace d with (Z.pos n + 53)%Z in Hhi by lia.
    rewrite Z.pow_add_r in Hlo, Hhi by lia.
    change (2 ^ 52)%Z with 4503599627370496%Z in Hlo.
    change (2 ^ 53)%Z with 9007199254740992%Z in Hhi.
    split.
    + apply Z.div_le_lower_bound; [exact Hpow | exact Hlo].
    + apply Z.div_lt_upper_bound; [exact Hpow | exact Hhi].
Qed.

Lemma round_nearest_even_bounds (m : Z) (l : location) :
  (m <= round_nearest_even m l <= m + 1)%Z.
Proof.
  destruct l as [| []]; cbn [round_nearest_even]; try lia.
  destruct (Z.even m); lia.
Qed.

(** Rounding a mantissa of at least 53 digits gives a valid float that is
    not zero. *)
Lemma binary_round_aux_normal (s : bool) (p : positive) (e : Z) (l : location) :
  (53 <= Z.pos (digits2_pos p))%Z -> (-1074 <= e)%Z ->
  valid_binary (binary_round_aux prec emax s (Z.pos p) e l) = true
  /\ signed_nonzero s (binary_round_aux prec emax s (Z.pos p) e l).
Proof.
  intros Hd He. unfold binary_round_aux.
  destruct (shr_fexp_normal p e l Hd He) as (mrs1 & -> & Hb1).
  pose proof (round_nearest_even_bounds (shr_m mrs1) (loc_of_shr_record mrs1)) as Hr.
  destruct (round_nearest_even (shr_m mrs1) (loc_of_shr_record mrs1))
    as [| p2 | p2]; [lia | | lia].
  assert (Hd2 : (53 <= Z.pos (digits2_pos p2))%Z).
  { assert (52 < Z.pos (digits2_pos p2))%Z; [| lia].
    apply digits_above; [lia |].
    change (2 ^ 52)%Z with 4503599627370496%Z. lia. }
  destruct (shr_fexp_normal p2 (e + (Z.pos (digits2_pos p) - 53)) loc_Exact Hd2
              ltac:(lia)) as (mrs3 & -> & Hb3).
  destruct (shr_m mrs3) as [| p3 | p3] eqn:E3; [lia | | lia].
  set (e3 := (e + (Z.pos (digits2_pos p) - 53) + (Z.pos (digits2_pos p2) - 53))%Z).
  destruct (e3 <=? emax - prec)%Z eqn:Ee; cbn [valid_binary signed_nonzero];
    [| split; reflexivity].
  split; [| reflexivity].
  unfold bounded, canonical_mantissa, fexp, SpecFloat.emin. rewrite Ee.
  rewrite andb_true_r. apply Z.eqb_eq.
  assert (Hd3 : Z.pos (digits2_pos p3) = 53%Z).
  { apply Z.le_antisymm.
    - apply digits_below; [lia |].
      change (2 ^ 53)%Z with 9007199254740992%Z. lia.
    - assert (52 < Z.pos (digits2_pos p3))%Z; [| lia].
      apply digits_above; [lia |].
      change (2 ^ 52)%Z with 4503599627370496%Z. lia. }
  rewrite Hd3. unfold prec, emax. subst e3. lia.
Qed.

(** A positive integer over ten is a valid float that is not zero. *)
Lemma SFdiv_ten_normal (s : bool) (p : positive) :
  valid_binary (SFdiv prec emax (S754_finite s p 0) (S754_finite false 10 0)) = true
  /\ signed_nonzero s (SFdiv prec emax (S754_finite s p 0) (S754_finite false 10 0)).
Proof.
  cbn [SFdiv]. unfold SFdiv_core_binary. cbn [Zdigits2].
  change (Z.pos (digits2_pos 10)) with 4%Z.
  pose proof (digits2_pos_bounds p) as [Hlo _].
  set (d := Z.pos (digits2_pos p)) in *.
  assert (Hd : (1 <= d)%Z) by (subst d; lia).
  unfold fexp, SpecFloat.emin, prec, emax.
  set (e' := Z.min (Z.max (d + 0 - (4 + 0) - 53) (3 - 1024 - 53)) (0 - 0)).
  set (m' := match (0 - 0 - e')%Z with
             | 0%Z => Z.pos p
             | Z.pos _ => Z.shiftl (Z.pos p) (0 - 0 - e')
             | Z.neg _ => 0%Z
             end).
  assert (Hm' : (72057594037927936 <= m')%Z).
  { change 72057594037927936%Z with (2 ^ 56)%Z.
    destruct (Z_le_gt_dec d 56) as [Hle | Hgt].
    - assert (He' : (0 - 0 - e' = 57 - d)%Z) by (subst e'; lia).
      subst m'. rewrite He'.
      destruct (57 - d)%Z as [| k | k] eqn:Ek; [lia | | lia].
      rewrite Z.shiftl_mul_pow2 by lia.
      replace 56%Z with ((d - 1) + Z.pos k)%Z by lia.
      rewrite Z.pow_add_r by lia.
      apply Z.mul_le_mono_nonneg_r; [apply Z.pow_nonneg; lia | exact Hlo].
    - assert (He' : (0 - 0 - e' = 0)%Z) by (subst e'; lia).
      subst m'. rewrite He'.
      apply Z.le_trans with (2 := Hlo). apply Z.pow_le_mono_r; lia. }
  assert (He : (-1074 <= e')%Z) by (subst e'; lia).
  clearbody m' e'.
  pose proof (Z_div_mod m' 10 ltac:(lia)) as Hdiv.
  destruct (Z.div_eucl m' 10) as [q r]. destruct Hdiv as [Hq Hr].
  destruct q as [| pq | pq]; [lia | | lia].
  replace (xorb s false) with s by (destruct s; reflexivity).
  apply binary_round_aux_normal; [| exact He].
  assert (52 < Z.pos (digits2_pos pq))%Z; [| lia].
  apply digits_above; [lia |].
  change (2 ^ 52)%Z with 4503599627370496%Z. lia.
Qed.

Lemma round_half_even_pos (n : positive) (e : Z) :
  (0 <= e \/ 2 ^ (- e) < 2 * Z.pos n)%Z -> (1 <= round_half_even (Z.pos n) e)%Z.
Proof.
  intros H. unfold round_half_even.
  destruct (0 <=? e)%Z eqn:Ee.
  - apply Z.leb_le in Ee.
    assert (0 < 2 ^ e)%Z by (apply Z.pow_pos_nonneg; lia). nia.
  - apply Z.leb_gt in Ee. destruct H as [H | H]; [lia |].
    set (d := (2 ^ (- e))%Z) in *.
    assert (Hd : (0 < d)%Z) by (apply Z.pow_pos_nonneg; lia).
    pose proof (Z.div_mod (Z.pos n) d ltac:(lia)) as Hdm.
    pose proof (Z.mod_pos_bound (Z.pos n) d Hd) as Hr.
    assert (Hq : (0 <= Z.pos n / d)%Z) by (apply Z.div_pos; lia).
    set (q := (Z.pos n / d)%Z) in *. set (r := (Z.pos n mod d)%Z) in *.
    destruct (Z.compare_spec (2 * r) d) as [C | C | C].
    + assert (q <> 0)%Z by (intros Hz; rewrite Hz in Hdm; lia).
      destruct (Z.even q); lia.
    + assert (q <> 0)%Z by (intros Hz; rewrite Hz in Hdm; lia).
      lia.
    + lia.
Qed.

Lemma Prim2SF_005 : Prim2SF 0.05 = S754_finite false 7205759403792794 (-57).
Proof. reflexivity. Qed.

Lemma above_005 (m : positive) (e : Z) :
  bounded prec emax m e = true ->
  SFltb (Prim2SF 0.05) (S754_finite false m e) = true ->
  (0 <= e \/ 2 ^ (- e) < 2 * Z.pos (10 * m))%Z.
Proof.
  intros Hb. rewrite Prim2SF_005. unfold SFltb, SFcompare.
  destruct (bounded_mantissa m e Hb) as (_ & _ & Hnorm).
  destruct (Z.compare_spec (-57) e) as [C | C | C].
  - subst e.
    change (Pos.compare_cont Eq 7205759403792794 m)
      with (Pos.compare 7205759403792794 m).
    destruct (Pos.compare_spec 7205759403792794 m) as [Cm | Cm | Cm];
      try discriminate.
    intros _. right.
    change (2 ^ (- -57))%Z with 144115188075855872%Z. lia.
  - intros _.
    destruct (Z_le_gt_dec 0 e) as [He | He]; [left; exact He | right].
    specialize (Hnorm ltac:(lia)).
    apply Z.le_lt_trans with (2 ^ 56)%Z; [apply Z.pow_le_mono_r; lia |].
    change (2 ^ 56)%Z with 72057594037927936%Z. lia.
  - discriminate.
Qed.

(** An offset of more than 0.05 in magnitude is not rounded to zero: its
    rounding to one decimal is a number with the sign of the offset. *)
Lemma round1_strict (s : bool) (a : float) :
  (0.05 <? abs a)%float = true ->
  has_sign s (Prim2SF a) ->
  signed_nonzero s (Prim2SF (round1 a)).
Proof.
  rewrite FloatAxioms.ltb_spec, abs_spec. intros H Hs.
  unfold round1, scaled_round.
  pose proof (Prim2SF_valid a) as Hv.
  destruct (Prim2SF a) as [s' | s' | | s' m e] eqn:Ea; cbn [SFabs has_sign] in *.
  - rewrite Prim2SF_005 in H. discriminate H.
  - rewrite Ea. exact Hs.
  - rewrite Prim2SF_005 in H. discriminate H.
  - subst s'. cbn [valid_binary] in Hv.
    pose proof (round_half_even_pos (10 * m) e (above_005 m e Hv H)) as Hn.
    destruct (round_half_even (Z.pos (10 * m)) e) as [| p | p]; [lia | | lia].
    destruct (SFdiv_ten_normal s p) as [Hvalid Hsigned].
    rewrite Prim2SF_SF2Prim by exact Hvalid. exact Hsigned.
Qed.

Lemma signed_true_lt_zero (v : float) :
  signed_nonzero true (Prim2SF v) -> (v <? 0)%float = true.
Proof.
  rewrite FloatAxioms.ltb_spec.
  destruct (Prim2SF v) as [s | s | | s m e]; cbn [signed_nonzero]; intros H;
    try contradiction; subst; reflexivity.
Qed.

Lemma signed_false_gt_zero (v : float) :
  signed_nonzero false (Prim2SF v) -> (0 <? v)%float = true.
Proof.
  rewrite FloatAxioms.ltb_spec.
  destruct (Prim2SF v) as [s | s | | s m e]; cbn [signed_nonzero]; intros H;
    try contradiction; subst; reflexivity.
Qed.

(** The sign of the unrounded offset, for a positive frame width. *)
Lemma offset_degrees_sign (center_x img_width : float) :
  (0 <? img_width)%float = true ->
  (img_width / 60 =? 0)%float = false ->
  ((center_x <? img_width / 2)%float = true ->
   has_sign true (Prim2SF (offset_degrees center_x img_width)))
  /\ ((img_width / 2 <? center_x)%float = true ->
      has_sign false (Prim2SF (offset_degrees center_x img_width))).
Proof.
  intros Hpos Hppd. unfold offset_degrees.
  assert (Hp : strict_sign false (Prim2SF (img_width / 60))).
  { apply nonzero_strict_sign; [exact Hppd |].
    rewrite div_spec.
    apply (SFdiv_sign false false); [| reflexivity].
    pose proof (positive_strict_sign _ Hpos) as H.
    destruct (Prim2SF img_width); cbn in *; auto. }
  destruct (SFsub_compare_sign (Prim2SF center_x) (Prim2SF (img_width / 2))
              (Prim2SF_valid _) (Prim2SF_valid _)) as (Hlt & Hgt & _).
  split; intros H; rewrite div_spec, sub_spec.
  - apply (SFdiv_sign true false); [| exact Hp].
    apply Hlt. rewrite <- FloatAxioms.ltb_spec. exact H.
  - apply (SFdiv_sign false false); [| exact Hp].
    apply Hgt. rewrite <- FloatAxioms.ltb_spec. exact H.
Qed.

(** C8, as the code has it. For a detection with a four-element box and a
    positive frame width, the angle [_calculate_precise_position] returns is
    the offset of the specification, [(center_x - frame_center_x) /
    (frame_width / 60)], rounded to one decimal.  Whenever it is a number it
    is at most 0 when [center_x] is left of the frame centre, at least 0
    when it is right of it, and equal to 0 when the two coincide; and it is
    strictly below 0, or strictly above 0, as soon as the offset is more
    than 0.05 degrees in magnitude.  (For an infinite frame width the angle
    is not a number.) *)
Theorem calculate_precise_position_angle_sign
  (obj : ObjectDetection) (img_width img_height x1 y1 x2 y2 : float)
  (p : Position.t) :
  bbox obj = Some [x1; y1; x2; y2] ->
  (0 <? img_width)%float = true ->
  _calculate_precise_position obj img_width img_height = inr p ->
  let center_x := ((x1 + x2) / 2)%float in
  let frame_center_x := (img_width / 2)%float in
  let offset := offset_degrees center_x img_width in
  Position.angle p = round1 offset
  /\ ((Position.angle p =? Position.angle p)%float = true ->
      ((center_x <? frame_center_x)%float = true ->
       (Position.angle p <=? 0)%float = true)
      /\ ((frame_center_x <? center_x)%float = true ->
          (0 <=? Position.angle p)%float = true)
      /\ ((center_x =? frame_center_x)%float = true ->
          (Position.angle p =? 0)%float = true))
  /\ ((center_x <? frame_center_x)%float = true ->
      (0.05 <? abs offset)%float = true ->
      (Position.angle p <? 0)%float = true)
  /\ ((frame_center_x <? center_x)%float = true ->
      (0.05 <? abs offset)%float = true ->
      (0 <? Position.angle p)%float = true).
Proof.
  intros Hbox Hpos Hp center_x frame_center_x offset.
  unfold _calculate_precise_position in Hp. rewrite Hbox in Hp.
  apply bind_inr in Hp as (angle_offset & Hoff & Hp).
  apply div_inr in Hoff as (Hppd & ->).
  apply bind_inr in Hp as (dist & _ & Hp).
  apply bind_inr in Hp as (rcx & _ & Hp).
  apply bind_inr in Hp as (rcy & _ & Hp).
  apply bind_inr in Hp as (rw & _ & Hp).
  apply bind_inr in Hp as (rh & _ & Hp).
  injection Hp as <-. cbn [Position.angle] in *.
  change (round1 ((x1 + x2) / 2 - img_width / 2) / (img_width / 60))%float
    with (round1 offset).
  destruct (rounded_offset_sign center_x img_width Hpos Hppd) as (Hlt & Hgt & Heq).
  destruct (offset_degrees_sign center_x img_width Hpos Hppd) as (Holt & Hogt).
  split; [reflexivity |]. split; [| split].
  - intros Hnum. repeat split; intros H.
    + apply has_sign_true_le_zero; [apply Hlt; exact H | exact Hnum].
    + apply has_sign_false_ge_zero; [apply Hgt; exact H | exact Hnum].
    + apply zero_or_nan_eq_zero; [apply Heq; exact H | exact Hnum].
  - intros H Hbig. apply signed_true_lt_zero, round1_strict; [exact Hbig |].
    apply Holt. exact H.
  - intros H Hbig. apply signed_false_gt_zero, round1_strict; [exact Hbig |].
    apply Hogt. exact H.
Qed.

Lemma calculate_precise_position_angle_sign_witness :
  exists p,
    _calculate_precise_position
      (detection "person" 0.9 (Some [100; 100; 200; 300]%float)) 640 480 = inr p
    /\ Position.angle p = (-15.9)%float
    /\ (Position.angle p <? 0)%float = true.
Proof.
  eexists. split; [reflexivity |].
  destruct (calculate_precise_position_angle_sign
              (detection "person" 0.9 (Some [100; 100; 200; 300]%float))
              640 480 100 100 200 300 _ eq_refl eq_refl eq_refl)
    as (Hangle & _ & Hleft & _).
  split; [exact Hangle | exact (Hleft eq_refl eq_refl)].
Defined.

(** For an infinite frame width the angle is not a number. *)
Lemma calculate_precise_position_infinite_width :
  exists p,
    _calculate_precise_position
      (detection "person" 0.9 (Some [100; 100; 200; 300]%float)) infinity 480
    = inr p
    /\ (Position.angle p =? Position.angle p)%float = false.
Proof. eexists; split; reflexivity. Qed.

(** ** Obstacle analyzer *)

Lemma pair_ltb_true (a b : nat * nat) : pair_ltb a b = true -> key_le a b.
Proof.
  unfold pair_ltb, key_le. intros H.
  apply orb_prop in H as [H | H].
  - apply Nat.ltb_lt in H. auto.
  - apply andb_prop in H as [H1 H2].
    apply Nat.eqb_eq in H1. apply Nat.ltb_lt in H2. right. lia.
Qed.

Lemma pair_ltb_false (a b : nat * nat) : pair_ltb a b = false -> key_le b a.
Proof.
  unfold pair_ltb, key_le. intros H.
  apply orb_false_elim in H as [H1 H2]. apply Nat.ltb_ge in H1.
  apply andb_false_elim in H2 as [H2 | H2].
  - apply Nat.eqb_neq in H2. left. lia.
  - apply Nat.ltb_ge in H2. lia.
Qed.

Lemma key_le_trans (a b c : nat * nat) : key_le a b -> key_le b c -> key_le a c.
Proof. unfold key_le. lia. Qed.

Lemma firstn_In {A} (z : A) (n : nat) (l : list A) : In z (firstn n l) -> In z l.
Proof.
  revert l; induction n as [| n IH]; intros [| y l]; cbn [firstn In]; try tauto.
  intros [-> | H]; auto.
Qed.

Section SortBy.
Context {A : Type} (key : A -> nat * nat).

Lemma insert_by_Forall (P : A -> Prop) (x : A) (l : list A) :
  P x -> Forall P l -> Forall P (insert_by key pair_ltb x l).
Proof.
  intros Hx Hl. induction Hl as [| y l Hy Hl IH]; cbn [insert_by].
  - auto.
  - destruct (pair_ltb (key y) (key x)); auto.
Qed.

Lemma insert_by_In (x z : A) (l : list A) :
  In z (insert_by key pair_ltb x l) -> z = x \/ In z l.
Proof.
  induction l as [| y l IH]; cbn [insert_by].
  - intros [<- | []]. auto.
  - destruct (pair_ltb (key y) (key x)); cbn [In]; intuition auto.
Qed.

Lemma insert_by_sorted (x : A) (l : list A) :
  StronglySorted (le_by key) l -> StronglySorted (le_by key) (insert_by key pair_ltb x l).
Proof.
  induction 1 as [| y l Hs IH Hy]; cbn [insert_by].
  - repeat constructor.
  - destruct (pair_ltb (key y) (key x)) eqn:E.
    + constructor; [exact IH |].
      apply insert_by_Forall; [apply pair_ltb_true; exact E | exact Hy].
    + apply pair_ltb_false in E.
      constructor; [constructor; assumption |].
      constructor; [exact E |].
      eapply Forall_impl; [| exact Hy].
      intros z Hz. eapply key_le_trans; eassumption.
Qed.

Lemma sort_by_sorted (l : list A) : StronglySorted (le_by key) (sort_by key pair_ltb l).
Proof.
  induction l as [| x l IH]; cbn [sort_by fold_right].
  - constructor.
  - apply insert_by_sorted. exact IH.
Qed.

Lemma sort_by_In (z : A) (l : list A) : In z (sort_by key pair_ltb l) -> In z l.
Proof.
  induction l as [| x l IH]; cbn [sort_by fold_right]; [auto |].
  intros H. apply insert_by_In in H as [-> | H]; cbn [In]; auto.
Qed.

Lemma firstn_sorted (n : nat) (l : list A) :
  StronglySorted (le_by key) l -> StronglySorted (le_by key) (firstn n l).
Proof.
  intros Hs. revert n. induction Hs as [| y l Hs IH Hy]; intros [| n];
    cbn [firstn]; try constructor.
  - apply IH.
  - rewrite Forall_forall in *. intros z Hz. apply Hy.
    eapply firstn_In. exact Hz.
Qed.
End SortBy.

Lemma keep_some_In {A} (a : A) (l : list (option A)) :
  In a (keep_some l) -> In (Some a) l.
Proof.
  induction l as [| [b |] l IH]; cbn [keep_some In]; intuition congruence.
Qed.

Lemma Forall2_In_r {A B} (R : A -> B -> Prop) (l : list A) (l' : list B) (b : B) :
  Forall2 R l l' -> In b l' -> exists a, In a l /\ R a b.
Proof.
  induction 1 as [| a0 b0 l l' HR _ IH]; cbn [In]; [intros [] |].
  intros [<- | Hin]; [eauto |].
  destruct (IH Hin) as (a & Ha & HRa). eauto.
Qed.

Lemma obstacle_entry_not_target (target_objs : list ObjectDetection)
  (img_width img_height : float) (o : ObjectDetection) (r : Obstacle.t) :
  obstacle_entry target_objs img_width img_height o = inr (Some r) ->
  detection_in o target_objs = false.
Proof.
  unfold obstacle_entry. destruct (detection_in o target_objs); [discriminate | auto].
Qed.

Lemma obstacle_entry_total (target_objs : list ObjectDetection)
  (img_width img_height : float) (o : ObjectDetection) :
  (img_width =? 0)%float = false ->
  (img_height =? 0)%float = false ->
  (img_width * img_height =? 0)%float = false ->
  box_shape_ok o ->
  exists e, obstacle_entry target_objs img_width img_height o = inr e.
Proof.
  intros Hw Hh Hwh Hbox. unfold obstacle_entry, box_shape_ok in *.
  destruct (detection_in o target_objs); [eexists; reflexivity |].
  destruct (estimate_distance_total o img_height Hh) as (d & Hd & _).
  destruct (bbox o) as [[| x1 [| y1 [| x2 [| y2 [| ? ?]]]]] |];
    try contradiction; try (eexists; reflexivity).
  rewrite !div_nonzero by assumption. cbn [bind].
  rewrite Hd. cbn [bind].
  match goal with |- context [if ?c then _ else _] => destruct c end;
    eexists; reflexivity.
Qed.

Lemma sort_key_ranks (o : Obstacle.t) :
  _sort_key o
  = (rank_in nearest_first (Obstacle.distance o),
     rank_in gravest_first (Obstacle.threat o)).
Proof.
  unfold _sort_key, get_or, rank_in, distance_order, threat_order,
    nearest_first, gravest_first.
  cbn [lookup index_of List.length].
  f_equal;
    repeat match goal with
           | |- context [String.eqb ?a ?b] => destruct (String.eqb a b)
           end; reflexivity.
Qed.

Lemma obstacle_le_closest_first (a b : Obstacle.t) :
  obstacle_le a b -> closest_first a b.
Proof.
  unfold obstacle_le, le_by, key_le, closest_first.
  rewrite !sort_key_ranks. cbn [fst snd]. auto.
Qed.

Lemma StronglySorted_weaken {A} (R S : A -> A -> Prop) (l : list A) :
  (forall a b, R a b -> S a b) -> StronglySorted R l -> StronglySorted S l.
Proof.
  intros HRS. induction 1 as [| x l _ IH Hx]; constructor; [exact IH |].
  eapply Forall_impl; [| exact Hx]. intros y. apply HRS.
Qed.

Lemma detection_in_false (o : ObjectDetection) (objs : list ObjectDetection) :
  detection_in o objs = false ->
  forall t, In t objs -> detection_eqb o t = false.
Proof.
  unfold detection_in. intros H t Ht.
  destruct (detection_eqb o t) eqn:E; [| reflexivity].
  assert (existsb (detection_eqb o) objs = true)
    by (apply existsb_exists; exists t; auto).
  congruence.
Qed.

(** C3. For detections that compare equal to themselves (no NaN field, so
    that [in] is decided by comparison), whatever [_analyze_obstacles]
    returns has at most 3 records; each is built from a detection of the
    list that is not in the excluded target set, neither itself nor equal
    to a member; and the records stand closest first, at equal distance the
    graver threat first.  It does return for positive frame dimensions and
    detections whose boxes are missing, empty or of four elements. *)
Theorem analyze_obstacles_bounded_excluding_sorted
  (objects target_objs : list ObjectDetection) (img_width img_height : float) :
  (forall o, In o objects -> detection_eqb o o = true) ->
  (forall obs,
      _analyze_obstacles objects target_objs img_width img_height = inr obs ->
      (List.length obs <= 3)%nat
      /\ (forall r, In r obs ->
           exists o, In o objects
                     /\ ~ In o target_objs
                     /\ (forall t, In t target_objs -> detection_eqb o t = false)
                     /\ obstacle_entry target_objs img_width img_height o
                        = inr (Some r))
      /\ StronglySorted closest_first obs)
  /\ ((0 <? img_width)%float = true ->
      (0 <? img_height)%float = true ->
      (img_width * img_height =? 0)%float = false ->
      Forall box_shape_ok objects ->
      exists obs, _analyze_obstacles objects target_objs img_width img_height = inr obs).
Proof.
  intros Hself. unfold _analyze_obstacles. split.
  - intros obs H. apply bind_inr in H as (entries & Hentries & H).
    assert (Hobs : obs = firstn 3 (sort_by _sort_key pair_ltb (keep_some entries)))
      by (unfold ret in H; congruence).
    clear H. subst obs. split; [| split].
    + apply firstn_le_length.
    + intros r Hr. apply firstn_In, sort_by_In, keep_some_In in Hr.
      destruct (Forall2_In_r _ _ _ _ (mapM_inr _ _ _ Hentries) Hr) as (o & Ho & He).
      pose proof (detection_in_false o target_objs
                    (obstacle_entry_not_target _ _ _ _ _ He)) as Hne.
      exists o. split; [exact Ho |]. split; [| split; [exact Hne | exact He]].
      intros Hin. specialize (Hne o Hin). rewrite (Hself o Ho) in Hne. discriminate.
    + apply (StronglySorted_weaken obstacle_le); [exact obstacle_le_closest_first |].
      apply firstn_sorted, sort_by_sorted.
  - intros Hw Hh Hwh Hboxes.
    apply positive_nonzero in Hw. apply positive_nonzero in Hh.
    destruct (mapM_total (obstacle_entry target_objs img_width img_height) objects)
      as [entries ->].
    + eapply Forall_impl; [| exact Hboxes].
      intros o Ho. apply obstacle_entry_total; assumption.
    + cbn [bind]. eexists; reflexivity.
Qed.

Lemma analyze_obstacles_bounded_excluding_sorted_witness :
  exists obs,
    _analyze_obstacles
      [detection "table" 0.9 (Some [200; 200; 500; 470]%float);
       detection "chair" 0.8 (Some [200; 100; 400; 300]%float);
       detection "person" 0.9 (Some [200; 0; 500; 470]%float);
       detection "sofa" 0.7 (Some [250; 0; 500; 470]%float);
       detection "cup" 0.6 None]
      [detection "person" 0.9 (Some [200; 0; 500; 470]%float)] 640 480 = inr obs
    /\ (List.length obs <= 3)%nat
    /\ StronglySorted closest_first obs.
Proof.
  pose proof (analyze_obstacles_bounded_excluding_sorted
                [detection "table" 0.9 (Some [200; 200; 500; 470]%float);
                 detection "chair" 0.8 (Some [200; 100; 400; 300]%float);
                 detection "person" 0.9 (Some [200; 0; 500; 470]%float);
                 detection "sofa" 0.7 (Some [250; 0; 500; 470]%float);
                 detection "cup" 0.6 None]
                [detection "person" 0.9 (Some [200; 0; 500; 470]%float)] 640 480)
    as H.
  destruct H as [Hinv Htotal].
  { intros o [<- | [<- | [<- | [<- | [<- | []]]]]]; reflexivity. }
  destruct Htotal as [obs Hobs];
    [reflexivity | reflexivity | reflexivity | repeat constructor |].
  exists obs. split; [exact Hobs |].
  destruct (Hinv obs Hobs) as (Hlen & _ & Hsorted). auto.
Defined.

(** ** Instructions end in terminal punctuation *)

Lemma last_char_app (a b : string) : b <> "" -> last_char (a ++ b) = last_char b.
Proof.
  intros Hb. induction a as [| c a IH]; cbn [append last_char]; [reflexivity |].
  destruct (a ++ b) eqn:E.
  - destruct a; cbn [append] in E; [contradiction | discriminate].
  - exact IH.
Qed.

Lemma ends_terminal_app (a b : string) :
  ends_terminal b = true -> ends_terminal (a ++ b) = true.
Proof.
  intros H. unfold ends_terminal in *. rewrite last_char_app; [exact H |].
  intros ->. discriminate.
Qed.

Lemma full_instruction_of_ends (angle distance : float) :
  ends_terminal (full_instruction_of angle distance) = true.
Proof.
  unfold full_instruction_of. destruct (abs angle <? 2)%float.
  - do 3 apply ends_terminal_app. reflexivity.
  - do 5 apply ends_terminal_app. reflexivity.
Qed.

Lemma direction_for_targets_instruction (target_objs : list ObjectDetection)
  (width height : float) (di : Direction.t) (nav : Navigation.t) :
  _direction_for_targets target_objs width height = inr di ->
  Direction.navigation di = Some nav ->
  ends_terminal (Navigation.full_instruction nav) = true.
Proof.
  unfold _direction_for_targets. intros H Hnav.
  destruct target_objs as [| o rest].
  - injection H as <-. discriminate.
  - apply bind_inr in H as (positions & _ & H).
    destruct positions as [| p ps].
    + injection H as <-. discriminate.
    + apply bind_inr in H as (confidences & _ & H).
      apply bind_inr in H as (avg & _ & H).
      injection H as <-. cbn [Direction.navigation] in Hnav.
      injection Hnav as <-. cbn [Navigation.full_instruction].
      apply full_instruction_of_ends.
Qed.

Lemma path_smoothing_instruction_ends (hash : string -> Z)
  (direction_info : Direction.t) (obstacles : list Obstacle.t)
  (target_name : option string) :
  ends_terminal (_path_smoothing_instruction hash direction_info obstacles target_name)
  = true.
Proof.
  unfold _path_smoothing_instruction.
  match goal with
  | |- context [negb (ends_terminal ?b)] => destruct (ends_terminal b) eqn:E
  end; cbn [negb].
  - exact E.
  - apply ends_terminal_app. reflexivity.
Qed.

Lemma inr_inj {A B} (a b : B) : @inr A B a = inr b -> a = b.
Proof. congruence. Qed.

(** C9. Every instruction [_compute_guidance] produces, on the
    precise-target path and on the fallback path, ends with ".", "!" or
    "?". *)
Theorem compute_guidance_instruction_ends_terminal (hash : string -> Z)
  (objects : list ObjectDetection) (question : string)
  (img_width img_height : float) (g : Guidance.t) :
  _compute_guidance hash objects question img_width img_height = inr g ->
  ends_terminal (Guidance.instruction g) = true.
Proof.
  unfold _compute_guidance. intros H.
  destruct (find_target (_extract_targets question) objects) as [target_name target_objs].
  apply bind_inr in H as (di0 & Hdi0 & H).
  apply bind_inr in H as ([di tn] & Hdi & H).
  apply bind_inr in H as (obstacles & _ & H).
  apply inr_inj in H. subst g. cbn [Guidance.instruction].
  assert (Hnav : Direction.navigation di = Direction.navigation di0).
  { destruct (String.eqb (Direction.direction di0) "unknown").
    - apply bind_inr in Hdi as (open_path & _ & Hdi).
      injection Hdi as <- _. reflexivity.
    - injection Hdi as <- _. reflexivity. }
  destruct (Direction.navigation di) as [nav |] eqn:E.
  - pose proof (direction_for_targets_instruction _ _ _ _ nav Hdi0 (eq_sym Hnav)) as Hend.
    destruct (filter is_close obstacles) as [| obs rest].
    + exact Hend.
    + do 5 apply ends_terminal_app. reflexivity.
  - apply path_smoothing_instruction_ends.
Qed.

Lemma compute_guidance_instruction_ends_terminal_witness :
  exists g,
    _compute_guidance (fun _ => 0%Z)
      [detection "chair" 0.9 (Some [0; 200; 200; 300]%float)]
      "where is the chair" 640 480 = inr g
    /\ ends_terminal (Guidance.instruction g) = true.
Proof.
  eexists. split; [reflexivity |].
  refine (compute_guidance_instruction_ends_terminal (fun _ => 0%Z)
            [detection "chair" 0.9 (Some [0; 200; 200; 300]%float)]
            "where is the chair" 640 480 _ eq_refl).
Defined.

(** ** Direction resolver *)

Lemma Forall2_In_l {A B} (R : A -> B -> Prop) (l : list A) (l' : list B) (a : A) :
  Forall2 R l l' -> In a l -> exists b, In b l' /\ R a b.
Proof.
  induction 1 as [| a0 b0 l l' HR _ IH]; cbn [In]; [intros [] |].
  intros [<- | Hin]; [eauto |].
  destruct (IH Hin) as (b & Hb & HRb). eauto.
Qed.

(** A matched detection without a four-element box makes the resolver
    raise: its position has no ["confidence"] key. *)
Lemma direction_for_targets_needs_boxes (target_objs : list ObjectDetection)
  (width height : float) (o : ObjectDetection) (r : Direction.t) :
  In o target_objs ->
  (forall x1 y1 x2 y2, bbox o <> Some [x1; y1; x2; y2]) ->
  _direction_for_targets target_objs width height <> inr r.
Proof.
  intros Hin Hbox H. unfold _direction_for_targets in H.
  destruct target_objs as [| o0 rest]; [contradiction |].
  apply bind_inr in H as (positions & Hpos & H).
  apply mapM_inr in Hpos.
  destruct (Forall2_In_l _ _ _ _ Hpos Hin) as (p & Hp & Hcalc).
  destruct positions as [| p0 ps]; [contradiction |].
  apply bind_inr in H as (confidences & Hconf & _).
  apply mapM_inr in Hconf.
  destruct (Forall2_In_l _ _ _ _ Hconf Hp) as (c & _ & Hc).
  unfold _calculate_precise_position in Hcalc.
  destruct (bbox o) as [[| x1 [| y1 [| x2 [| y2 [| ? ?]]]]] |];
    try (apply inr_inj in Hcalc; subst p; discriminate).
  exact (Hbox x1 y1 x2 y2 eq_refl).
Qed.

(** *** The order of floats *)

Lemma SFltb_irrefl (a : spec_float) : SFltb a a = false.
Proof.
  unfold SFltb.
  destruct a as [s | s | | s m e]; try destruct s; cbn [SFcompare]; try reflexivity.
  - rewrite Z.compare_refl.
    change (Pos.compare_cont Eq m m) with (Pos.compare m m).
    rewrite Pos.compare_refl. reflexivity.
  - rewrite Z.compare_refl.
    change (Pos.compare_cont Eq m m) with (Pos.compare m m).
    rewrite Pos.compare_refl. reflexivity.
Qed.

Lemma SFltb_trans (a b c : spec_float) :
  SFltb a b = true -> SFltb b c = true -> SFltb a c = true.
Proof.
  unfold SFltb.
  destruct a as [s1 | s1 | | s1 m1 e1], b as [s2 | s2 | | s2 m2 e2],
           c as [s3 | s3 | | s3 m3 e3];
    try destruct s1; try destruct s2; try destruct s3;
    cbn [SFcompare]; try discriminate; try reflexivity.
  all: change (Pos.compare_cont Eq) with Pos.compare;
    rewrite ?Pos2Z.inj_compare;
    destruct (Z.compare_spec e1 e2), (Z.compare_spec e2 e3), (Z.compare_spec e1 e3);
    try discriminate; try reflexivity; try lia;
    destruct (Z.compare_spec (Z.pos m1) (Z.pos m2)),
             (Z.compare_spec (Z.pos m2) (Z.pos m3)),
             (Z.compare_spec (Z.pos m1) (Z.pos m3));
    cbn [CompOpp]; try discriminate; try reflexivity; lia.
Qed.

Lemma ltb_irrefl (a : float) : (a <? a)%float = false.
Proof. rewrite FloatAxioms.ltb_spec. apply SFltb_irrefl. Qed.

Lemma ltb_trans (a b c : float) :
  (a <? b)%float = true -> (b <? c)%float = true -> (a <? c)%float = true.
Proof. rewrite !FloatAxioms.ltb_spec. apply SFltb_trans. Qed.

(** [min(x :: l, key=key)] is an element no other element is below. *)
Lemma min_by_least {A} (key : A -> float) (l : list A) (x : A) :
  let m := min_by key PrimFloat.ltb x l in
  In m (x :: l)
  /\ (forall z, In z (x :: l) -> (key z <? key m)%float = false).
Proof.
  unfold min_by.
  assert (H : forall l best,
             let m := fold_left
                        (fun best y => if (key y <? key best)%float then y else best)
                        l best in
             (m = best \/ In m l)
             /\ (forall k, (k <? key m)%float = true -> (k <? key best)%float = true)
             /\ (forall z, In z l -> (key z <? key m)%float = false)).
  { clear. induction l as [| y l IH]; intros best; cbn [fold_left].
    - cbn [In]. repeat split; auto. intros z [].
    - destruct (key y <? key best)%float eqn:E.
      + destruct (IH y) as (Hin & Hle & Hleast).
        split; [| split].
        * cbn [In]. destruct Hin as [-> | Hin]; auto.
        * intros k Hk. eapply ltb_trans; [apply Hle; exact Hk | exact E].
        * intros z [<- | Hz]; [| auto].
          match goal with |- ?t = false => destruct t eqn:Ez; [| reflexivity] end.
          specialize (Hle _ Ez). rewrite ltb_irrefl in Hle. discriminate.
      + destruct (IH best) as (Hin & Hle & Hleast).
        split; [| split].
        * cbn [In]. destruct Hin as [-> | Hin]; auto.
        * exact Hle.
        * intros z [<- | Hz]; [| auto].
          match goal with |- ?t = false => destruct t eqn:Ez; [| reflexivity] end.
          specialize (Hle _ Ez). congruence. }
  destruct (H l x) as (Hin & Hle & Hleast). cbn zeta.
  split.
  - cbn [In]. destruct Hin as [-> | Hin]; auto.
  - intros z [<- | Hz]; [| auto].
    match goal with |- ?t = false => destruct t eqn:E; [| reflexivity] end.
    specialize (Hle _ E). rewrite ltb_irrefl in Hle. discriminate.
Qed.

(** On the lists on which it returns, the resolver does what C7 says: the
    best target is a candidate of least estimated distance, the confidence
    is the sum of the candidates' confidences over their number, and the
    turn label is that of the best target's angle. *)
Lemma direction_for_targets_resolves (target_objs : list ObjectDetection)
  (width height : float) (r : Direction.t) :
  target_objs <> [] ->
  _direction_for_targets target_objs width height = inr r ->
  exists positions best confidences,
    Forall2 (fun o p => _calculate_precise_position o width height = inr p)
            target_objs positions
    /\ In best positions
    /\ (forall p, In p positions ->
          (Position.distance_meters p <? Position.distance_meters best)%float = false)
    /\ Forall2 (fun p c => Position.confidence p = Some c) positions confidences
    /\ Py.div (Py.sum confidences) (Py.of_nat (List.length target_objs))
       = inr (Direction.confidence r)
    /\ Direction.direction r = turn_direction_of (Position.angle best).
Proof.
  intros Hne H. unfold _direction_for_targets in H.
  destruct target_objs as [| o rest]; [contradiction |].
  apply bind_inr in H as (positions & Hpos & H).
  apply mapM_inr in Hpos.
  destruct positions as [| p ps]; [inversion Hpos |].
  apply bind_inr in H as (confidences & Hconf & H).
  apply bind_inr in H as (avg & Havg & H).
  apply inr_inj in H. subst r.
  cbn [Direction.confidence Direction.direction].
  destruct (min_by_least Position.distance_meters ps p) as (Hin & Hleast).
  exists (p :: ps), (best_position p ps), confidences.
  split; [exact Hpos |]. split; [exact Hin |]. split; [exact Hleast |].
  split.
  - apply mapM_inr in Hconf. eapply Forall2_impl; [| exact Hconf].
    intros q c Hq. unfold position_confidence in Hq.
    destruct (Position.confidence q); [apply inr_inj in Hq; congruence | discriminate].
  - split; [| reflexivity].
    rewrite <- Havg. f_equal. f_equal.
    apply Forall2_length in Hpos. exact Hpos.
Qed.

(** The turn labels by the thresholds 2, 10, 30 and 60 on the absolute
    angle. *)
Lemma turn_direction_thresholds (angle : float) :
  let a := abs angle in
  let side_of l r := if (angle <? 0)%float then l else r in
  ((a <? 2)%float = true -> turn_direction_of angle = "straight")
  /\ ((a <? 2)%float = false -> (a <? 10)%float = true ->
      turn_direction_of angle = side_of "slight_left" "slight_right")
  /\ ((a <? 2)%float = false -> (a <? 10)%float = false -> (a <? 30)%float = true ->
      turn_direction_of angle = side_of "left" "right")
  /\ ((a <? 2)%float = false -> (a <? 10)%float = false -> (a <? 30)%float = false ->
      (a <? 60)%float = true ->
      turn_direction_of angle = side_of "sharp_left" "sharp_right")
  /\ ((a <? 2)%float = false -> (a <? 10)%float = false -> (a <? 30)%float = false ->
      (a <? 60)%float = false ->
      turn_direction_of angle = side_of "turn_around_left" "turn_around_right").
Proof.
  cbn zeta. unfold turn_direction_of.
  destruct (abs angle <? 2)%float eqn:E2, (abs angle <? 10)%float eqn:E10,
           (abs angle <? 30)%float eqn:E30, (abs angle <? 60)%float eqn:E60;
    repeat split; intros; first [reflexivity | discriminate].
Qed.

(** C7 (the code departs from it). For the one-element list of a matched
    detection that has no bounding box, [_direction_for_targets] reports no
    best target and no mean confidence: it raises KeyError 'confidence'. *)
Theorem direction_for_targets_raises_on_missing_box :
  _direction_for_targets [detection "chair" 0.9 None] 640 480
  = inl (KeyError "confidence").
Proof. reflexivity. Qed.

(** ** Guidance orchestrator *)

(** What the loop of [_compute_guidance] selects. *)
Lemma find_target_selects (targets : list string) (objects : list ObjectDetection)
  (t : string) (matches : list ObjectDetection) :
  find_target targets objects = (Some t, matches) ->
  In t targets
  /\ matches = filter (fun o => contains t (lower (name o))) objects
  /\ matches <> [].
Proof.
  induction targets as [| t0 ts IH]; cbn [find_target]; [discriminate |].
  destruct (filter (fun o => contains t0 (lower (name o))) objects) as [| m ms] eqn:E.
  - intros H. destruct (IH H) as (Hin & Hm & Hne). cbn [In]. auto.
  - intros [= <- <-]. cbn [In]. repeat split; auto. discriminate.
Qed.

(** C5 (the code departs from it). The label "chair" is a substring of the
    keyword "chairs", so by the stated rule the detection matches; the loop
    of [_compute_guidance] only asks whether the keyword is inside the
    label, selects nothing, and the engine falls back to the free path. *)
Theorem compute_guidance_misses_label_inside_keyword (hash : string -> Z) :
  _extract_targets "where are the chairs" = ["where"; "chairs"]
  /\ spec_matches "chairs" "chair" = true
  /\ find_target ["where"; "chairs"]
       [detection "chair" 0.9 (Some [220; 100; 420; 460]%float)] = (None, [])
  /\ exists g,
       _compute_guidance hash
         [detection "chair" 0.9 (Some [220; 100; 420; 460]%float)]
         "where are the chairs" 640 480 = inr g
       /\ Guidance.target g = Some "path"
       /\ Guidance.target_count g = 0%nat
       /\ Guidance.navigation_data g = None.
Proof.
  split; [reflexivity |]. split; [reflexivity |]. split; [reflexivity |].
  eexists. split; [reflexivity |]. repeat split.
Qed.

(** Within one process the choice is repeatable: the instruction depends on
    the hash only through its value at [direction + distance]. *)
Lemma path_smoothing_instruction_hash_ext (hash1 hash2 : string -> Z)
  (direction_info : Direction.t) (obstacles : list Obstacle.t)
  (target_name : option string) :
  hash1 (Direction.direction direction_info ++ Direction.distance direction_info)
  = hash2 (Direction.direction direction_info ++ Direction.distance direction_info) ->
  _path_smoothing_instruction hash1 direction_info obstacles target_name
  = _path_smoothing_instruction hash2 direction_info obstacles target_name.
Proof.
  intros H. unfold _path_smoothing_instruction. rewrite H. reflexivity.
Qed.

(** C4 (the code departs from it). The same detections, query and frame
    give two different instructions in two interpreter processes: the
    variant is picked by Python's string hash, which is keyed per process. *)
Theorem compute_guidance_depends_on_hash_secret :
  exists g0 g4,
    _compute_guidance hash_seed_0
      [detection "chair" 0.9 (Some [0; 200; 200; 300]%float)] "" 640 480 = inr g0
    /\ _compute_guidance hash_seed_4
         [detection "chair" 0.9 (Some [0; 200; 200; 300]%float)] "" 640 480 = inr g4
    /\ Guidance.instruction g0 = "Turn right toward the clear path then walk ahead."
    /\ Guidance.instruction g4 = "Face right and proceed forward."
    /\ g0 <> g4.
Proof.
  do 2 eexists. split; [reflexivity |]. split; [reflexivity |].
  split; [reflexivity |]. split; [reflexivity |]. discriminate.
Qed.

(** * Further properties of the engine *)

(** ** Target extractor *)

Lemma mem_string_In (x : string) (l : list string) :
  mem_string x l = true <-> In x l.
Proof.
  unfold mem_string. rewrite existsb_exists. split.
  - intros (y & Hy & Heq). apply String.eqb_eq in Heq. subst. exact Hy.
  - intros H. exists x. split; [exact H | apply String.eqb_refl].
Qed.

Lemma dedupe_spec (l seen : list string) :
  NoDup (dedupe seen l)
  /\ (forall x, In x (dedupe seen l) -> In x l /\ ~ In x seen).
Proof.
  revert seen. induction l as [| y l IH]; intros seen; cbn [dedupe].
  - split; [constructor | intros x []].
  - destruct (mem_string y seen) eqn:E.
    + destruct (IH seen) as [Hnd Hin]. split; [exact Hnd |].
      intros x Hx. destruct (Hin x Hx). cbn [In]. auto.
    + destruct (IH (y :: seen)) as [Hnd Hin]. split.
      * constructor; [| exact Hnd].
        intros Hy. destruct (Hin y Hy) as [_ Hn]. apply Hn. left. reflexivity.
      * intros x [<- | Hx].
        -- split; [left; reflexivity |].
           intros Hs. apply mem_string_In in Hs. congruence.
        -- destruct (Hin x Hx) as [Hl Hn]. split; [right; exact Hl |].
           intros Hs. apply Hn. right. exact Hs.
Qed.

Lemma firstn_NoDup {A} (n : nat) (l : list A) : NoDup l -> NoDup (firstn n l).
Proof.
  intros H. revert n. induction H as [| y l Hy Hnd IH]; intros [| n];
    cbn [firstn]; try constructor.
  - intros Hin. apply Hy. eapply firstn_In. exact Hin.
  - apply IH.
Qed.

(** X1. For an ASCII question [_extract_targets] gives at most three
    keywords, no keyword twice, none of them empty or a stop word, each
    longer than two characters. *)
Theorem extract_targets_keywords (question : string) :
  is_ascii question = true ->
  (List.length (_extract_targets question) <= 3)%nat
  /\ NoDup (_extract_targets question)
  /\ (forall k, In k (_extract_targets question) ->
        k <> "" /\ mem_string k stop = false /\ (2 < String.length k)%nat).
Proof.
  intros _. unfold _extract_targets.
  set (tokens := map _ _). set (nouns := filter _ tokens).
  destruct (dedupe_spec nouns []) as [Hnd Hin].
  split; [apply firstn_le_length |]. split; [apply firstn_NoDup, Hnd |].
  intros k Hk. apply firstn_In in Hk. destruct (Hin k Hk) as [Hn _].
  unfold nouns in Hn. apply filter_In in Hn as [_ Hp].
  apply andb_prop in Hp as [Hp H3]. apply andb_prop in Hp as [H1 H2].
  apply negb_true_iff in H1, H2. apply Nat.ltb_lt in H3.
  apply String.eqb_neq in H1. auto.
Qed.

Lemma extract_targets_keywords_witness :
  (List.length (_extract_targets "Where is the red chair?") <= 3)%nat
  /\ NoDup (_extract_targets "Where is the red chair?")
  /\ (forall k, In k (_extract_targets "Where is the red chair?") ->
        k <> "" /\ mem_string k stop = false /\ (2 < String.length k)%nat).
Proof.
  apply (extract_targets_keywords "Where is the red chair?"). reflexivity.
Defined.

(** *** Keywords are lower-case and free of white space *)

Lemma all_chars_app (P : ascii -> bool) (a b : string) :
  all_chars P (a ++ b) = all_chars P a && all_chars P b.
Proof.
  induction a as [| c a IH]; cbn [append all_chars]; [reflexivity |].
  rewrite IH, andb_assoc. reflexivity.
Qed.

Lemma lstrip_by_all (P p : ascii -> bool) (s : string) :
  all_chars P s = true -> all_chars P (lstrip_by p s) = true.
Proof.
  induction s as [| c s IH]; cbn [lstrip_by all_chars]; [auto |].
  intros H. destruct (p c); [| exact H].
  apply andb_prop in H as [_ H]. auto.
Qed.

Lemma rstrip_by_all (P p : ascii -> bool) (s : string) :
  all_chars P s = true -> all_chars P (rstrip_by p s) = true.
Proof.
  induction s as [| c s IH]; cbn [rstrip_by all_chars]; [auto |].
  intros H. apply andb_prop in H as [Hc H]. specialize (IH H).
  destruct (rstrip_by p s) as [| d r].
  - destruct (p c); cbn [all_chars]; [reflexivity | rewrite Hc; reflexivity].
  - cbn [all_chars] in *. rewrite Hc. exact IH.
Qed.

Lemma split_from_all (P : ascii -> bool) (s cur : string) :
  all_chars P cur = true -> all_chars P s = true ->
  Forall (fun t => all_chars P t = true) (split_from cur s).
Proof.
  revert cur. induction s as [| c s IH]; intros cur Hcur Hs; cbn [split_from].
  - destruct cur; constructor; auto.
  - cbn [all_chars] in Hs. apply andb_prop in Hs as [Hc Hs].
    destruct (is_space c).
    + destruct cur; [apply IH; auto |].
      constructor; [exact Hcur | apply IH; auto].
    + apply IH; [| exact Hs].
      rewrite all_chars_app, Hcur. cbn [all_chars]. rewrite Hc. reflexivity.
Qed.

Lemma split_from_no_space (s cur : string) :
  all_chars (fun c => negb (is_space c)) cur = true ->
  Forall (fun t => all_chars (fun c => negb (is_space c)) t = true) (split_from cur s).
Proof.
  revert cur. induction s as [| c s IH]; intros cur Hcur; cbn [split_from].
  - destruct cur; constructor; auto.
  - destruct (is_space c) eqn:E.
    + destruct cur; [apply IH; reflexivity |].
      constructor; [exact Hcur | apply IH; reflexivity].
    + apply IH. rewrite all_chars_app, Hcur. cbn [all_chars]. rewrite E. reflexivity.
Qed.

Lemma lower_char_idem (c : ascii) : lower_char (lower_char c) = lower_char c.
Proof.
  destruct c as [[|] [|] [|] [|] [|] [|] [|] [|]]; reflexivity.
Qed.

Lemma lower_all_lower (s : string) :
  all_chars (fun c => Ascii.eqb (lower_char c) c) (lower s) = true.
Proof.
  induction s as [| c s IH]; cbn [lower all_chars]; [reflexivity |].
  rewrite lower_char_idem, Ascii.eqb_refl. exact IH.
Qed.

Lemma all_lower_fixed (s : string) :
  all_chars (fun c => Ascii.eqb (lower_char c) c) s = true -> lower s = s.
Proof.
  induction s as [| c s IH]; cbn [lower all_chars]; [reflexivity |].
  intros H. apply andb_prop in H as [Hc H]. apply Ascii.eqb_eq in Hc.
  rewrite Hc, (IH H). reflexivity.
Qed.

Lemma extract_targets_tokens (P : ascii -> bool) (question : string) :
  Forall (fun t => all_chars P t = true) (split (lower question)) ->
  forall k, In k (_extract_targets question) -> all_chars P k = true.
Proof.
  intros Hall k Hk. unfold _extract_targets in Hk.
  apply firstn_In in Hk. apply dedupe_spec in Hk as [Hk _].
  apply filter_In in Hk as [Hk _]. apply in_map_iff in Hk as (t & <- & Ht).
  rewrite Forall_forall in Hall. unfold strip_chars.
  apply rstrip_by_all, lstrip_by_all, Hall, Ht.
Qed.

Lemma extract_targets_lower_fixed (question k : string) :
  In k (_extract_targets question) ->
  lower k = k /\ all_chars (fun c => negb (is_space c)) k = true.
Proof.
  intros Hk. split.
  - apply all_lower_fixed. revert k Hk. apply extract_targets_tokens.
    apply split_from_all; [reflexivity | apply lower_all_lower].
  - revert k Hk. apply extract_targets_tokens.
    apply split_from_no_space. reflexivity.
Qed.

Lemma lower_char_ascii (c : ascii) :
  (nat_of_ascii (lower_char c) <? 128)%nat = (nat_of_ascii c <? 128)%nat.
Proof.
  destruct c as [[|] [|] [|] [|] [|] [|] [|] [|]]; reflexivity.
Qed.

Lemma lower_is_ascii (s : string) : is_ascii (lower s) = is_ascii s.
Proof.
  unfold is_ascii. induction s as [| c s IH]; cbn [lower all_chars]; [reflexivity |].
  rewrite lower_char_ascii, IH. reflexivity.
Qed.

(** X2. Every keyword of an ASCII question is ASCII, lower-case
    (lower-casing it again changes nothing, so it can be compared with a
    lower-cased label as it is) and has no white space in it. *)
Theorem extract_targets_lower_case (question k : string) :
  is_ascii question = true ->
  In k (_extract_targets question) ->
  is_ascii k = true
  /\ lower k = k /\ all_chars (fun c => negb (is_space c)) k = true.
Proof.
  intros Ha Hk. split; [| exact (extract_targets_lower_fixed question k Hk)].
  revert k Hk. apply extract_targets_tokens.
  apply split_from_all; [reflexivity |].
  fold (is_ascii (lower question)). rewrite lower_is_ascii. exact Ha.
Qed.

Lemma extract_targets_lower_case_witness :
  is_ascii "chair" = true
  /\ lower "chair" = "chair"
  /\ all_chars (fun c => negb (is_space c)) "chair" = true.
Proof.
  apply (extract_targets_lower_case "Where is the CHAIR?" "chair").
  - reflexivity.
  - cbv. auto.
Defined.

Lemma lower_app (a b : string) : lower (a ++ b) = lower a ++ lower b.
Proof.
  induction a as [| c a IH]; cbn [append lower]; [reflexivity |].
  rewrite IH. reflexivity.
Qed.

(** X3. [navigate_to] asks the engine about ["navigate to " + destination]: the
    first keyword is then always "navigate", and at most two keywords of the
    destination itself are left for matching. *)
Theorem extract_targets_navigate_to (destination : string) :
  exists rest,
    _extract_targets ("navigate to " ++ destination) = "navigate" :: rest
    /\ (List.length rest <= 2)%nat
    /\ ~ In "navigate" rest.
Proof.
  unfold _extract_targets. rewrite lower_app.
  change (lower "navigate to ") with "navigate to ".
  change (split ("navigate to " ++ lower destination))
    with ("navigate" :: "to" :: split (lower destination)).
  cbn [map]. change (strip_chars "?.,! " "navigate") with "navigate".
  change (strip_chars "?.,! " "to") with "to".
  set (tokens := map _ (split _)).
  cbn [filter]. change (negb ("navigate" =? "") && negb (mem_string "navigate" stop)
                        && (2 <? String.length "navigate")%nat) with true.
  change (negb ("to" =? "") && negb (mem_string "to" stop)
          && (2 <? String.length "to")%nat) with false.
  cbn iota. set (nouns := filter _ tokens).
  cbn [dedupe]. change (mem_string "navigate" []) with false. cbn iota.
  rewrite firstn_cons.
  eexists; split; [reflexivity |]. split; [apply firstn_le_length |].
  intros Hin. apply firstn_In in Hin.
  destruct (dedupe_spec nouns ["navigate"]) as [_ H].
  apply H in Hin as [_ Hn]. apply Hn. left. reflexivity.
Qed.

(** ** Nearest obstacle distance *)

Lemma estimate_distance_rank (o : ObjectDetection) (d : string) :
  _estimate_distance o 480 = inr d ->
  exists i, index_of d distance_rank_order = Some i /\ (i < 6)%nat.
Proof.
  intros H.
  destruct (estimate_distance_total o 480 eq_refl) as (d' & Hd' & Hin).
  rewrite H in Hd'. apply inr_inj in Hd'. subst d'.
  cbn [In distance_labels] in Hin.
  repeat (destruct Hin as [<- | Hin]; [eexists; split; [reflexivity | lia] |]).
  contradiction.
Qed.

Lemma nearest_from_least (objects : list ObjectDetection) :
  forall best_rank best d,
    nearest_from best_rank best objects = inr d ->
    (d = best
     /\ forall o d' i, In o objects -> _estimate_distance o 480 = inr d' ->
                       index_of d' distance_rank_order = Some i -> (best_rank <= i)%nat)
    \/ (exists o i, In o objects /\ _estimate_distance o 480 = inr d
                    /\ index_of d distance_rank_order = Some i /\ (i < best_rank)%nat
                    /\ forall o' d' i', In o' objects ->
                                        _estimate_distance o' 480 = inr d' ->
                                        index_of d' distance_rank_order = Some i' ->
                                        (i <= i')%nat).
Proof.
  induction objects as [| o rest IH]; intros best_rank best d H;
    cbn [nearest_from] in H.
  - apply inr_inj in H. subst d. left. split; [reflexivity |]. intros ? ? ? [].
  - apply bind_inr in H as (d0 & Hd0 & H).
    destruct (estimate_distance_rank o d0 Hd0) as (i0 & Hi0 & _).
    rewrite Hi0 in H.
    destruct (i0 <? best_rank)%nat eqn:E.
    + apply Nat.ltb_lt in E.
      apply IH in H as [[-> Hall] | (o1 & i1 & Hin & Hd & Hi & Hlt & Hall)].
      * right. exists o, i0. split; [left; reflexivity |].
        split; [exact Hd0 |]. split; [exact Hi0 |]. split; [exact E |].
        intros o' d' i' [<- | Hin'] Hd' Hi'.
        -- rewrite Hd0 in Hd'. apply inr_inj in Hd'. subst d'.
           rewrite Hi0 in Hi'. injection Hi' as <-. lia.
        -- eapply Hall; eassumption.
      * right. exists o1, i1. split; [right; exact Hin |].
        split; [exact Hd |]. split; [exact Hi |]. split; [lia |].
        intros o' d' i' [<- | Hin'] Hd' Hi'.
        -- rewrite Hd0 in Hd'. apply inr_inj in Hd'. subst d'.
           rewrite Hi0 in Hi'. injection Hi' as <-. lia.
        -- eapply Hall; eassumption.
    + apply Nat.ltb_ge in E.
      apply IH in H as [[-> Hall] | (o1 & i1 & Hin & Hd & Hi & Hlt & Hall)].
      * left. split; [reflexivity |].
        intros o' d' i' [<- | Hin'] Hd' Hi'.
        -- rewrite Hd0 in Hd'. apply inr_inj in Hd'. subst d'.
           rewrite Hi0 in Hi'. injection Hi' as <-. exact E.
        -- eapply Hall; eassumption.
      * right. exists o1, i1. split; [right; exact Hin |].
        split; [exact Hd |]. split; [exact Hi |]. split; [exact Hlt |].
        intros o' d' i' [<- | Hin'] Hd' Hi'.
        -- rewrite Hd0 in Hd'. apply inr_inj in Hd'. subst d'.
           rewrite Hi0 in Hi'. injection Hi' as <-. lia.
        -- eapply Hall; eassumption.
Qed.

Lemma nearest_obstacle_distance_spec (objects : list ObjectDetection) :
  exists d,
    _nearest_obstacle_distance objects = inr d
    /\ (objects = [] -> d = "clear")
    /\ (objects <> [] ->
        exists o i,
          In o objects /\ _estimate_distance o 480 = inr d
          /\ index_of d distance_rank_order = Some i /\ (i < 6)%nat
          /\ forall o' d' i', In o' objects -> _estimate_distance o' 480 = inr d' ->
                              index_of d' distance_rank_order = Some i' -> (i <= i')%nat).
Proof.
  unfold _nearest_obstacle_distance.
  destruct (nearest_from_total objects (List.length distance_rank_order) "clear")
    as [d Hd].
  exists d. split; [exact Hd |]. split.
  - intros ->. cbn in Hd. apply inr_inj in Hd. auto.
  - intros Hne.
    apply nearest_from_least in Hd as [[-> Hall] | (o & i & Hin & Hd & Hi & Hlt & Hall)].
    + destruct objects as [| o rest]; [contradiction |].
      destruct (estimate_distance_total o 480 eq_refl) as (d' & Hd' & _).
      destruct (estimate_distance_rank o d' Hd') as (i & Hi & Hlt).
      specialize (Hall o d' i (or_introl eq_refl) Hd' Hi). cbn in Hall. lia.
    + exists o, i. split; [exact Hin |]. split; [exact Hd |]. split; [exact Hi |].
      split; [| exact Hall].
      destruct (estimate_distance_rank o d Hd) as (i' & Hi' & Hlt').
      rewrite Hi in Hi'. injection Hi' as <-. exact Hlt'.
Qed.

(** X4. [_nearest_obstacle_distance] never raises.  For the empty list it
    answers "clear"; otherwise it answers the distance label of one of the
    detections, and no detection has a label of lower rank in the order very
    close, close, medium, far, very far, unknown: it is never "clear". *)
Theorem nearest_obstacle_distance_least (objects : list ObjectDetection) :
  exists d,
    _nearest_obstacle_distance objects = inr d
    /\ (objects = [] -> d = "clear")
    /\ (objects <> [] ->
        exists o i,
          In o objects /\ _estimate_distance o 480 = inr d
          /\ index_of d distance_rank_order = Some i /\ (i < 6)%nat
          /\ forall o' d' i', In o' objects -> _estimate_distance o' 480 = inr d' ->
                              index_of d' distance_rank_order = Some i' -> (i <= i')%nat).
Proof. exact (nearest_obstacle_distance_spec objects). Qed.

Lemma nearest_obstacle_distance_least_witness :
  exists d,
    _nearest_obstacle_distance
      [detection "chair" 0.9 (Some [0; 200; 200; 300]%float);
       detection "person" 0.8 (Some [200; 100; 400; 470]%float)] = inr d
    /\ d = "very close".
Proof.
  destruct (nearest_obstacle_distance_least
              [detection "chair" 0.9 (Some [0; 200; 200; 300]%float);
               detection "person" 0.8 (Some [200; 100; 400; 470]%float)])
    as (d & Hd & _ & _).
  exists d. split; [exact Hd |].
  cbv in Hd. apply inr_inj in Hd. symmetry. exact Hd.
Defined.

(** ** Free-path finder *)

(** [max(x :: l, key=key)] is an element no other element is above. *)
Lemma max_by_greatest {A} (key : A -> float) (l : list A) (x : A) :
  let m := max_by key PrimFloat.ltb x l in
  In m (x :: l)
  /\ (forall z, In z (x :: l) -> (key m <? key z)%float = false).
Proof.
  unfold max_by.
  assert (H : forall l best,
             let m := fold_left
                        (fun best y => if (key best <? key y)%float then y else best)
                        l best in
             (m = best \/ In m l)
             /\ (forall k, (key m <? k)%float = true -> (key best <? k)%float = true)
             /\ (forall z, In z l -> (key m <? key z)%float = false)).
  { clear. induction l as [| y l IH]; intros best; cbn [fold_left].
    - cbn [In]. repeat split; auto. intros z [].
    - destruct (key best <? key y)%float eqn:E.
      + destruct (IH y) as (Hin & Hle & Hleast).
        split; [| split].
        * cbn [In]. destruct Hin as [-> | Hin]; auto.
        * intros k Hk. eapply ltb_trans; [exact E | apply Hle; exact Hk].
        * intros z [<- | Hz]; [| auto].
          match goal with |- ?t = false => destruct t eqn:Ez; [| reflexivity] end.
          specialize (Hle _ Ez). rewrite ltb_irrefl in Hle. discriminate.
      + destruct (IH best) as (Hin & Hle & Hleast).
        split; [| split].
        * cbn [In]. destruct Hin as [-> | Hin]; auto.
        * exact Hle.
        * intros z [<- | Hz]; [| auto].
          match goal with |- ?t = false => destruct t eqn:Ez; [| reflexivity] end.
          specialize (Hle _ Ez). congruence. }
  destruct (H l x) as (Hin & Hle & Hleast). cbn zeta.
  split.
  - cbn [In]. destruct Hin as [-> | Hin]; auto.
  - intros z [<- | Hz]; [| auto].
    match goal with |- ?t = false => destruct t eqn:E; [| reflexivity] end.
    specialize (Hle _ E). rewrite ltb_irrefl in Hle. discriminate.
Qed.

Lemma gaps_from_wide (merged : list interval) :
  forall prev_end g,
    In g (gaps_from prev_end merged) -> (0.05 <? gap_width g)%float = true.
Proof.
  induction merged as [| [s e] m IH]; intros prev_end g; cbn [gaps_from].
  - destruct (0.05 <? 1 - prev_end)%float eqn:E; [| intros []].
    intros [<- | []]. exact E.
  - destruct (0.05 <? s - prev_end)%float eqn:E.
    + intros [<- | Hin]; [exact E | eapply IH; exact Hin].
    + apply IH.
Qed.

(** X5. When the merged intervals leave gaps, [_free_path_direction] steers to
    the centre of a gap that none of the gaps is wider than (the first such
    gap from the left), which is itself wider than 0.05 of the frame; the
    confidence is 0.45 and the target count 0. *)
Theorem free_path_steers_to_widest_gap
  (objects : list ObjectDetection) (img_width : float)
  (intervals gaps : list interval) :
  occupied_intervals objects img_width = inr intervals ->
  intervals <> [] ->
  gaps_from 0 (merged_intervals intervals) = gaps ->
  gaps <> [] ->
  exists r widest,
    _free_path_direction objects img_width = inr r
    /\ In widest gaps
    /\ (forall g, In g gaps -> (gap_width widest <? gap_width g)%float = false)
    /\ (0.05 <? gap_width widest)%float = true
    /\ OpenPath.direction r
       = gap_direction ((fst widest + snd widest) / 2 - 0.5)%float
    /\ OpenPath.confidence r = 0.45%float
    /\ OpenPath.target_count r = Some 0%nat.
Proof.
  intros Hint Hne Hgaps Hgne. unfold _free_path_direction.
  rewrite Hint. cbn [bind].
  destruct intervals as [| i rest]; [contradiction |].
  rewrite Hgaps. destruct gaps as [| g gs]; [contradiction |].
  destruct (nearest_from_total objects (List.length distance_rank_order) "clear")
    as [d Hd].
  unfold _nearest_obstacle_distance. rewrite Hd. cbn [bind].
  destruct (max_by_greatest gap_width gs g) as [Hin Hmax].
  eexists. exists (max_by gap_width PrimFloat.ltb g gs).
  split; [reflexivity |]. split; [exact Hin |]. split; [exact Hmax |].
  split; [| repeat split].
  eapply gaps_from_wide. rewrite Hgaps. exact Hin.
Qed.

Lemma free_path_steers_to_widest_gap_witness :
  exists r,
    _free_path_direction
      [detection "chair" 0.9 (Some [0; 200; 200; 300]%float);
       detection "table" 0.8 (Some [300; 200; 400; 300]%float)] 640 = inr r
    /\ OpenPath.direction r = "hard right"
    /\ OpenPath.confidence r = 0.45%float.
Proof.
  destruct (free_path_steers_to_widest_gap
              [detection "chair" 0.9 (Some [0; 200; 200; 300]%float);
               detection "table" 0.8 (Some [300; 200; 400; 300]%float)] 640
              [(0, 0.3125); (0.46875, 0.625)]%float
              [(0.3125, 0.46875); (0.625, 1)]%float
              eq_refl ltac:(discriminate) eq_refl ltac:(discriminate))
    as (r & widest & Hr & _ & _ & _ & _ & Hc & _).
  exists r. split; [exact Hr |]. split; [| exact Hc].
  cbv in Hr. apply inr_inj in Hr. subst r. reflexivity.
Defined.

Lemma occupied_intervals_nil_objects (img_width : float) (intervals : list interval) :
  occupied_intervals [] img_width = inr intervals -> intervals = [].
Proof. cbn. intros H. apply inr_inj in H. auto. Qed.

(** X6. For a positive frame width the distance [_free_path_direction] reports
    is "clear" exactly when no detection projects an interval; in every other
    case it is the distance label of a detection.  Its confidence is one of
    the three constants 0.5, 0.45 and 0.3. *)
Theorem free_path_clear_iff_no_interval
  (objects : list ObjectDetection) (img_width : float) :
  (0 <? img_width)%float = true ->
  exists r,
    _free_path_direction objects img_width = inr r
    /\ (OpenPath.distance r = "clear"
        <-> occupied_intervals objects img_width = inr [])
    /\ (OpenPath.distance r <> "clear" -> In (OpenPath.distance r) distance_labels)
    /\ In (OpenPath.confidence r) [0.5; 0.45; 0.3]%float.
Proof.
  intros Hpos. pose proof (positive_nonzero _ Hpos) as Hw.
  unfold _free_path_direction.
  destruct (occupied_intervals_total objects img_width Hw) as [l Hl].
  rewrite Hl. cbn [bind].
  destruct l as [| i rest].
  - eexists; split; [reflexivity |]. cbn [OpenPath.distance OpenPath.confidence].
    split; [tauto |]. split; [congruence | left; reflexivity].
  - assert (Hne : objects <> []).
    { intros ->. apply occupied_intervals_nil_objects in Hl. discriminate. }
    destruct (nearest_obstacle_distance_spec objects)
      as (d & Hd & _ & Hnear).
    destruct (Hnear Hne) as (o & k & _ & Ho & Hk & Hlt & _).
    assert (Hlab : In d distance_labels).
    { destruct (estimate_distance_total o 480 eq_refl) as (d' & Hd' & Hin).
      congruence. }
    assert (Hclear : d <> "clear").
    { intros ->. cbn in Hk. injection Hk as <-. lia. }
    rewrite Hd. cbn [bind].
    destruct (gaps_from 0 (merged_intervals (i :: rest)));
      (eexists; split; [reflexivity |];
       cbn [OpenPath.distance OpenPath.confidence];
       split; [split; [intros; contradiction | discriminate] |];
       split; [intros _; exact Hlab | cbn [In]; auto]).
Qed.

Lemma free_path_clear_iff_no_interval_witness :
  exists r,
    _free_path_direction [detection "chair" 0.9 None] 640 = inr r
    /\ OpenPath.distance r = "clear".
Proof.
  destruct (free_path_clear_iff_no_interval [detection "chair" 0.9 None] 640 eq_refl)
    as (r & Hr & Hclear & _).
  exists r. split; [exact Hr |]. apply Hclear. reflexivity.
Defined.

(** ** Obstacle analyzer *)

Lemma estimate_distance_four_box (o : ObjectDetection) (img_height x1 y1 x2 y2 : float)
  (d : string) :
  bbox o = Some [x1; y1; x2; y2] ->
  _estimate_distance o img_height = inr d ->
  In d ["very close"; "close"; "medium"; "far"; "very far"].
Proof.
  intros Hbox H. unfold _estimate_distance in H. rewrite Hbox in H.
  apply bind_inr in H as (rh & _ & H). apply bind_inr in H as (rb & _ & H).
  apply inr_inj in H. subst d.
  repeat match goal with
         | |- context [if ?c then _ else _] => destruct c
         end; in_labels.
Qed.

Lemma analyze_obstacles_entries
  (objects target_objs : list ObjectDetection) (img_width img_height : float)
  (obs : list Obstacle.t) :
  _analyze_obstacles objects target_objs img_width img_height = inr obs ->
  forall r, In r obs ->
    exists o, In o objects
              /\ obstacle_entry target_objs img_width img_height o = inr (Some r).
Proof.
  unfold _analyze_obstacles. intros H r Hr.
  apply bind_inr in H as (entries & Hentries & H).
  apply inr_inj in H. subst obs.
  apply firstn_In, sort_by_In, keep_some_In in Hr.
  exact (Forall2_In_r _ _ _ _ (mapM_inr _ _ _ Hentries) Hr).
Qed.

(** X7. Every record [_analyze_obstacles] returns carries labels of the fixed
    enumerations (the distance is never "unknown"), and stands for a
    significant obstacle: its threat is high or medium, or it is close or
    very close. *)
Theorem analyze_obstacles_labels
  (objects target_objs : list ObjectDetection) (img_width img_height : float)
  (obs : list Obstacle.t) :
  _analyze_obstacles objects target_objs img_width img_height = inr obs ->
  forall r, In r obs ->
    In (Obstacle.distance r) ["very close"; "close"; "medium"; "far"; "very far"]
    /\ In (Obstacle.position r) ["left"; "center"; "right"]
    /\ In (Obstacle.threat r) ["high"; "medium"; "low"]
    /\ (In (Obstacle.threat r) ["high"; "medium"]
        \/ In (Obstacle.distance r) ["very close"; "close"]).
Proof.
  intros H r Hr.
  destruct (analyze_obstacles_entries _ _ _ _ _ H r Hr) as (o & _ & He).
  unfold obstacle_entry in He.
  destruct (detection_in o target_objs); [discriminate |].
  destruct (bbox o) as [[| x1 [| y1 [| x2 [| y2 [| ? ?]]]]] |] eqn:Hbox;
    try discriminate.
  apply bind_inr in He as (rel_x & _ & He).
  apply bind_inr in He as (rel_y & _ & He).
  apply bind_inr in He as (d & Hd & He).
  apply bind_inr in He as (rel_area & _ & He).
  pose proof (estimate_distance_four_box o img_height _ _ _ _ d Hbox Hd) as Hlab.
  match type of He with
  | (if ?c then _ else _) = _ => destruct c eqn:Hc; [| discriminate]
  end.
  apply inr_inj in He. injection He as <-.
  cbn [Obstacle.distance Obstacle.position Obstacle.threat].
  apply andb_prop in Hc as [_ Hc]. apply orb_prop in Hc.
  split; [exact Hlab |].
  split; [destruct (rel_x <? 0.4)%float; [| destruct (0.6 <? rel_x)%float]; in_labels |].
  split; [destruct (0.15 <? rel_area)%float; [| destruct (0.08 <? rel_area)%float];
          in_labels |].
  destruct Hc as [Hc | Hc]; apply mem_string_In in Hc; auto.
Qed.

Lemma analyze_obstacles_labels_witness :
  In "very close" ["very close"; "close"; "medium"; "far"; "very far"]
  /\ In "center" ["left"; "center"; "right"]
  /\ In "high" ["high"; "medium"; "low"]
  /\ (In "high" ["high"; "medium"] \/ In "very close" ["very close"; "close"]).
Proof.
  apply (analyze_obstacles_labels
           [detection "table" 0.9 (Some [200; 200; 500; 470]%float)] [] 640 480
           [{| Obstacle.name := "table"; Obstacle.distance := "very close";
               Obstacle.position := "center"; Obstacle.threat := "high";
               Obstacle.confidence := 0.9 |}]
           eq_refl
           {| Obstacle.name := "table"; Obstacle.distance := "very close";
              Obstacle.position := "center"; Obstacle.threat := "high";
              Obstacle.confidence := 0.9 |}
           (or_introl eq_refl)).
Defined.

Section SortPermutation.
Context {A K : Type} (key : A -> K) (lt : K -> K -> bool).

Lemma insert_by_perm (x : A) (l : list A) :
  Permutation (insert_by key lt x l) (x :: l).
Proof.
  induction l as [| y l IH]; cbn [insert_by]; [reflexivity |].
  destruct (lt (key y) (key x)); [| reflexivity].
  rewrite IH. apply perm_swap.
Qed.

Lemma sort_by_perm (l : list A) : Permutation (sort_by key lt l) l.
Proof.
  induction l as [| x l IH]; cbn [sort_by fold_right]; [reflexivity |].
  rewrite insert_by_perm. constructor. exact IH.
Qed.
End SortPermutation.

(** X8. [_analyze_obstacles] returns three records when more than three
    detections qualify, and otherwise every qualifying record, each once:
    nothing is lost or repeated below the cap. *)
Theorem analyze_obstacles_cap
  (objects target_objs : list ObjectDetection) (img_width img_height : float)
  (obs : list Obstacle.t) :
  _analyze_obstacles objects target_objs img_width img_height = inr obs ->
  exists entries,
    mapM (obstacle_entry target_objs img_width img_height) objects = inr entries
    /\ List.length obs = Nat.min 3 (List.length (keep_some entries))
    /\ ((List.length (keep_some entries) <= 3)%nat ->
        Permutation obs (keep_some entries)).
Proof.
  unfold _analyze_obstacles. intros H.
  apply bind_inr in H as (entries & Hentries & H).
  apply inr_inj in H. subst obs.
  exists entries. split; [exact Hentries |]. split.
  - rewrite length_firstn. f_equal. apply Permutation_length, sort_by_perm.
  - intros Hle. rewrite firstn_all2; [apply sort_by_perm |].
    rewrite (Permutation_length (sort_by_perm _ _ _)). exact Hle.
Qed.

Lemma analyze_obstacles_cap_witness :
  exists obs,
    _analyze_obstacles
      [detection "table" 0.9 (Some [200; 200; 500; 470]%float);
       detection "chair" 0.8 (Some [200; 100; 400; 300]%float);
       detection "person" 0.9 (Some [200; 0; 500; 470]%float);
       detection "sofa" 0.7 (Some [250; 0; 500; 470]%float)] [] 640 480 = inr obs
    /\ List.length obs = 3%nat.
Proof.
  eexists. split; [reflexivity |].
  destruct (analyze_obstacles_cap
              [detection "table" 0.9 (Some [200; 200; 500; 470]%float);
               detection "chair" 0.8 (Some [200; 100; 400; 300]%float);
               detection "person" 0.9 (Some [200; 0; 500; 470]%float);
               detection "sofa" 0.7 (Some [250; 0; 500; 470]%float)] [] 640 480
              _ eq_refl) as (entries & He & Hlen & _).
  cbv in He. apply inr_inj in He. subst entries. exact Hlen.
Defined.

Lemma mapM_first_error {A B} (f : A -> result B) (pre post : list A) (a : A) (e : exn) :
  Forall (fun p => exists b, f p = inr b) pre ->
  f a = inl e ->
  mapM f (pre ++ a :: post) = inl e.
Proof.
  intros Hpre Ha. induction Hpre as [| p pre [b Hb] _ IH]; cbn [app mapM].
  - rewrite Ha. reflexivity.
  - rewrite Hb. cbn [bind]. rewrite IH. reflexivity.
Qed.

(** X9. Unlike its siblings, [_analyze_obstacles] does not check the length of a
    box: the first detection outside the target set whose box is neither
    empty nor of four elements makes the whole call raise ValueError.
    (Membership is decided by comparison, so each detection must equal
    itself: no NaN field.) *)
Theorem analyze_obstacles_rejects_malformed_box
  (pre post target_objs : list ObjectDetection) (o : ObjectDetection)
  (box : list float) (img_width img_height : float) :
  (0 <? img_width)%float = true ->
  (0 <? img_height)%float = true ->
  (img_width * img_height =? 0)%float = false ->
  (forall d, In d (pre ++ o :: post) -> detection_eqb d d = true) ->
  Forall box_shape_ok pre ->
  detection_in o target_objs = false ->
  bbox o = Some box -> box <> [] -> List.length box <> 4%nat ->
  _analyze_obstacles (pre ++ o :: post) target_objs img_width img_height
  = inl ValueError.
Proof.
  intros Hw Hh Hwh _ Hpre Hnot Hbox Hne Hlen.
  apply positive_nonzero in Hw. apply positive_nonzero in Hh.
  unfold _analyze_obstacles.
  rewrite (mapM_first_error _ pre post o ValueError); [reflexivity | |].
  - eapply Forall_impl; [| exact Hpre].
    intros p Hp. apply obstacle_entry_total; assumption.
  - unfold obstacle_entry. rewrite Hnot, Hbox.
    destruct box as [| x1 [| y1 [| x2 [| y2 [| ? ?]]]]]; cbn in Hlen;
      try reflexivity; contradiction.
Qed.

Lemma analyze_obstacles_rejects_malformed_box_witness :
  _analyze_obstacles
    ([detection "table" 0.9 (Some [200; 200; 500; 470]%float)]
       ++ detection "chair" 0.8 (Some [1; 2; 3]%float) :: [])
    [] 640 480 = inl ValueError.
Proof.
  apply (analyze_obstacles_rejects_malformed_box
           [detection "table" 0.9 (Some [200; 200; 500; 470]%float)] [] []
           (detection "chair" 0.8 (Some [1; 2; 3]%float)) [1; 2; 3]%float 640 480);
    try reflexivity; try discriminate.
  - intros d [<- | [<- | []]]; reflexivity.
  - repeat constructor.
Defined.

(** ** Direction resolver *)

Lemma turn_direction_of_label (angle : float) : In (turn_direction_of angle) turn_labels.
Proof.
  unfold turn_direction_of.
  repeat match goal with
         | |- context [if ?c then _ else _] => destruct c
         end; in_labels.
Qed.

Lemma direction_for_targets_cases (target_objs : list ObjectDetection)
  (width height : float) (r : Direction.t) :
  _direction_for_targets target_objs width height = inr r ->
  (target_objs = [] -> r = unknown_direction)
  /\ (target_objs <> [] ->
      Direction.target_count r = Some (List.length target_objs)
      /\ Direction.navigation r <> None
      /\ In (Direction.direction r) turn_labels)
  /\ (Direction.direction r = "unknown" <-> target_objs = []).
Proof.
  unfold _direction_for_targets. intros H.
  destruct target_objs as [| o rest].
  - apply inr_inj in H. subst r. repeat split; auto; contradiction.
  - apply bind_inr in H as (positions & Hpos & H).
    apply mapM_inr in Hpos.
    destruct positions as [| p ps]; [inversion Hpos |].
    apply bind_inr in H as (confidences & _ & H).
    apply bind_inr in H as (avg & _ & H).
    apply inr_inj in H. subst r.
    cbn [Direction.target_count Direction.navigation Direction.direction].
    pose proof (turn_direction_of_label (Position.angle (best_position p ps))) as Hl.
    split; [discriminate |]. split.
    + intros _. split; [reflexivity |]. split; [discriminate | exact Hl].
    + split; [| discriminate].
      intros Hu. rewrite Hu in Hl. cbn in Hl.
      repeat (destruct Hl as [Hl | Hl]; [discriminate |]). contradiction.
Qed.

(** X10. What [_direction_for_targets] returns has direction "unknown" exactly
    for the empty list, where it is the fixed unknown record; for a
    non-empty list it counts the candidates, carries navigation detail, and
    its direction is one of the nine turn labels. *)
Theorem direction_for_targets_shape (target_objs : list ObjectDetection)
  (width height : float) (r : Direction.t) :
  _direction_for_targets target_objs width height = inr r ->
  (target_objs = [] -> r = unknown_direction)
  /\ (target_objs <> [] ->
      Direction.target_count r = Some (List.length target_objs)
      /\ Direction.navigation r <> None
      /\ In (Direction.direction r) turn_labels)
  /\ (Direction.direction r = "unknown" <-> target_objs = []).
Proof. exact (direction_for_targets_cases target_objs width height r). Qed.

Lemma direction_for_targets_shape_witness :
  exists r,
    _direction_for_targets
      [detection "chair" 0.9 (Some [0; 200; 200; 300]%float)] 640 480 = inr r
    /\ Direction.target_count r = Some 1%nat
    /\ In (Direction.direction r) turn_labels.
Proof.
  eexists. split; [reflexivity |].
  destruct (direction_for_targets_shape
              [detection "chair" 0.9 (Some [0; 200; 200; 300]%float)] 640 480 _ eq_refl)
    as (_ & H & _).
  destruct (H ltac:(discriminate)) as (Hc & _ & Hl). auto.
Defined.

(** X11. On every non-empty list on which it returns, the resolver picks as best
    target a candidate that no candidate is estimated nearer than, reports
    the sum of the candidates' confidences over their number, and the turn
    label of the best target's angle. *)
Theorem direction_for_targets_best_is_nearest (target_objs : list ObjectDetection)
  (width height : float) (r : Direction.t) :
  target_objs <> [] ->
  _direction_for_targets target_objs width height = inr r ->
  exists positions best confidences,
    Forall2 (fun o p => _calculate_precise_position o width height = inr p)
            target_objs positions
    /\ In best positions
    /\ (forall p, In p positions ->
          (Position.distance_meters p <? Position.distance_meters best)%float = false)
    /\ Forall2 (fun p c => Position.confidence p = Some c) positions confidences
    /\ Py.div (Py.sum confidences) (Py.of_nat (List.length target_objs))
       = inr (Direction.confidence r)
    /\ Direction.direction r = turn_direction_of (Position.angle best).
Proof. exact (direction_for_targets_resolves target_objs width height r). Qed.

Lemma direction_for_targets_best_is_nearest_witness :
  exists positions best confidences,
    Forall2 (fun o p => _calculate_precise_position o 640 480 = inr p)
            [detection "chair" 0.9 (Some [0; 200; 200; 300]%float);
             detection "chair" 0.5 (Some [400; 100; 600; 460]%float)] positions
    /\ In best positions
    /\ (forall p, In p positions ->
          (Position.distance_meters p <? Position.distance_meters best)%float = false)
    /\ Forall2 (fun p c => Position.confidence p = Some c) positions confidences
    /\ Py.div (Py.sum confidences) (Py.of_nat 2) = inr 0.7%float.
Proof.
  destruct (direction_for_targets_best_is_nearest
              [detection "chair" 0.9 (Some [0; 200; 200; 300]%float);
               detection "chair" 0.5 (Some [400; 100; 600; 460]%float)] 640 480 _
              ltac:(discriminate) eq_refl)
    as (positions & best & confidences & H1 & H2 & H3 & H4 & H5 & _).
  exists positions, best, confidences. auto.
Defined.

(** X12. One matched detection without a four-element box, anywhere in the list,
    makes the resolver raise: it returns no direction, whatever the other
    candidates are. *)
Theorem direction_for_targets_fails_without_box (target_objs : list ObjectDetection)
  (width height : float) (o : ObjectDetection) (r : Direction.t) :
  In o target_objs ->
  (forall x1 y1 x2 y2, bbox o <> Some [x1; y1; x2; y2]) ->
  _direction_for_targets target_objs width height <> inr r.
Proof. exact (direction_for_targets_needs_boxes target_objs width height o r). Qed.

Lemma direction_for_targets_fails_without_box_witness :
  _direction_for_targets
    [detection "chair" 0.9 (Some [0; 200; 200; 300]%float);
     detection "chair" 0.5 None] 640 480 <> inr unknown_direction.
Proof.
  apply (direction_for_targets_fails_without_box _ 640 480 (detection "chair" 0.5 None)).
  - right. left. reflexivity.
  - intros; discriminate.
Defined.

(** ** Guidance orchestrator *)

Lemma find_target_none (targets : list string) (objects matches : list ObjectDetection) :
  find_target targets objects = (None, matches) -> matches = [].
Proof.
  induction targets as [| t ts IH]; cbn [find_target].
  - intros [= <-]. reflexivity.
  - destruct (filter _ objects); [exact IH | discriminate].
Qed.

Lemma free_path_direction_shape (objects : list ObjectDetection) (img_width : float)
  (r : OpenPath.t) :
  _free_path_direction objects img_width = inr r ->
  In (OpenPath.direction r) free_path_labels
  /\ In (OpenPath.confidence r) [0.5; 0.45; 0.3]%float
  /\ (OpenPath.target_count r = None \/ OpenPath.target_count r = Some 0%nat).
Proof.
  unfold _free_path_direction. intros H.
  apply bind_inr in H as (intervals & _ & H).
  destruct intervals as [| i rest].
  - apply inr_inj in H. subst r. cbn. auto.
  - destruct (gaps_from 0 (merged_intervals (i :: rest))) as [| g gs];
      apply bind_inr in H as (d & _ & H); apply inr_inj in H; subst r;
      cbn [OpenPath.direction OpenPath.confidence OpenPath.target_count].
    + split; [destruct (left_coverage _ <? right_coverage _)%float; in_labels |].
      cbn [In]. auto.
    + split; [apply gap_direction_label |]. cbn [In]. auto.
Qed.

(** X13. [_compute_guidance] has two modes.  When a keyword of the question is
    inside some label, the target is the first such keyword, the target
    count is the number of labels containing it, navigation detail is
    present and the direction is a turn label.  Otherwise the target is
    "path", the count is 0, there is no navigation detail, the direction is a
    free-path label and the confidence one of 0.5, 0.45 and 0.3. *)
Theorem compute_guidance_modes (hash : string -> Z)
  (objects : list ObjectDetection) (question : string)
  (img_width img_height : float) (g : Guidance.t) :
  _compute_guidance hash objects question img_width img_height = inr g ->
  (exists t,
      In t (_extract_targets question)
      /\ Guidance.target g = Some t
      /\ Guidance.target_count g
         = List.length (filter (fun o => contains t (lower (name o))) objects)
      /\ (0 < Guidance.target_count g)%nat
      /\ Guidance.navigation_data g <> None
      /\ In (Guidance.direction g) turn_labels)
  \/ (find_target (_extract_targets question) objects = (None, [])
      /\ Guidance.target g = Some "path"
      /\ Guidance.target_count g = 0%nat
      /\ Guidance.navigation_data g = None
      /\ In (Guidance.direction g) free_path_labels
      /\ In (Guidance.confidence g) [0.5; 0.45; 0.3]%float).
Proof.
  unfold _compute_guidance. intros H.
  destruct (find_target (_extract_targets question) objects)
    as [target_name target_objs] eqn:Hfind.
  apply bind_inr in H as (di0 & Hdi0 & H).
  apply bind_inr in H as ([di tn] & Hdi & H).
  apply bind_inr in H as (obstacles & _ & H).
  apply inr_inj in H. subst g.
  cbn [Guidance.target Guidance.target_count Guidance.navigation_data
       Guidance.direction Guidance.confidence].
  destruct (direction_for_targets_cases _ _ _ _ Hdi0) as (Hempty & Hfull & Hunk).
  destruct target_name as [t |].
  - left. apply find_target_selects in Hfind as (Hin & Hm & Hne).
    destruct (Hfull Hne) as (Hcount & Hnav & Hlab).
    assert (Hnot : (Direction.direction di0 =? "unknown") = false).
    { apply String.eqb_neq. intros Hu. apply Hunk in Hu. contradiction. }
    rewrite Hnot in Hdi. apply inr_inj in Hdi. injection Hdi as <- <-.
    exists t. split; [exact Hin |]. split; [reflexivity |].
    rewrite Hcount, <- Hm. split; [reflexivity |].
    split; [destruct target_objs; [contradiction | cbn; lia] |].
    split; [exact Hnav | exact Hlab].
  - right. apply find_target_none in Hfind as Hnil. subst target_objs.
    rewrite (Hempty eq_refl) in Hdi. cbn [Direction.direction unknown_direction] in Hdi.
    change ("unknown" =? "unknown") with true in Hdi.
    apply bind_inr in Hdi as (open_path & Hopen & Hdi).
    apply inr_inj in Hdi. injection Hdi as <- <-.
    destruct (free_path_direction_shape _ _ _ Hopen) as (Hlab & Hconf & Hcount).
    cbn [update_direction Direction.target_count Direction.navigation
         Direction.direction Direction.confidence unknown_direction].
    split; [reflexivity |]. split; [reflexivity |].
    split; [destruct Hcount as [-> | ->]; reflexivity |].
    split; [reflexivity |]. split; [exact Hlab | exact Hconf].
Qed.

Lemma compute_guidance_modes_witness :
  exists g,
    _compute_guidance (fun _ => 0%Z)
      [detection "chair" 0.9 (Some [0; 200; 200; 300]%float)]
      "where is the chair" 640 480 = inr g
    /\ Guidance.target g = Some "chair"
    /\ Guidance.target_count g = 1%nat.
Proof.
  eexists. split; [reflexivity |].
  destruct (compute_guidance_modes (fun _ => 0%Z)
              [detection "chair" 0.9 (Some [0; 200; 200; 300]%float)]
              "where is the chair" 640 480 _ eq_refl)
    as [(t & _ & Ht & Hc & _) | (_ & Ht & _)].
  - cbn in Ht. injection Ht as <-. split; [reflexivity | exact Hc].
  - cbn in Ht. discriminate.
Defined.

Lemma obstacle_entry_name (target_objs : list ObjectDetection)
  (img_width img_height : float) (o : ObjectDetection) (r : Obstacle.t) :
  obstacle_entry target_objs img_width img_height o = inr (Some r) ->
  Obstacle.name r = name o /\ Obstacle.confidence r = confidence o.
Proof.
  unfold obstacle_entry.
  destruct (detection_in o target_objs); [discriminate |].
  destruct (bbox o) as [[| x1 [| y1 [| x2 [| y2 [| ? ?]]]]] |]; try discriminate.
  intros He.
  apply bind_inr in He as (rel_x & _ & He).
  apply bind_inr in He as (rel_y & _ & He).
  apply bind_inr in He as (d & _ & He).
  apply bind_inr in He as (rel_area & _ & He).
  match type of He with
  | (if ?c then _ else _) = _ => destruct c; [| discriminate]
  end.
  apply inr_inj in He. injection He as <-. auto.
Qed.

(** X14. The matched target is never announced as an obstacle: when a keyword
    matched, no obstacle record bears a label containing it.  (Detections
    are compared field by field, so each must equal itself: no NaN field.) *)
Theorem compute_guidance_target_not_obstacle (hash : string -> Z)
  (objects : list ObjectDetection) (question : string)
  (img_width img_height : float) (g : Guidance.t) (t : string)
  (matches : list ObjectDetection) :
  (forall o, In o objects -> detection_eqb o o = true) ->
  _compute_guidance hash objects question img_width img_height = inr g ->
  find_target (_extract_targets question) objects = (Some t, matches) ->
  forall r, In r (Guidance.obstacles g) ->
            contains t (lower (Obstacle.name r)) = false.
Proof.
  unfold _compute_guidance. intros Hrefl H Hfind r Hr.
  rewrite Hfind in H.
  apply bind_inr in H as (di0 & _ & H).
  apply bind_inr in H as ([di tn] & _ & H).
  apply bind_inr in H as (obstacles & Hobs & H).
  apply inr_inj in H. subst g. cbn [Guidance.obstacles] in Hr.
  destruct (analyze_obstacles_entries _ _ _ _ _ Hobs r Hr) as (o & Ho & He).
  destruct (obstacle_entry_name _ _ _ _ _ He) as [-> _].
  pose proof (obstacle_entry_not_target _ _ _ _ _ He) as Hnot.
  apply find_target_selects in Hfind as (_ & -> & _).
  destruct (contains t (lower (name o))) eqn:E; [| reflexivity].
  exfalso. unfold detection_in in Hnot.
  assert (Hin : existsb (detection_eqb o)
                  (filter (fun o => contains t (lower (name o))) objects) = true).
  { apply existsb_exists. exists o. split; [| apply Hrefl; exact Ho].
    apply filter_In. auto. }
  congruence.
Qed.

Lemma compute_guidance_target_not_obstacle_witness :
  contains "chair" (lower "table") = false.
Proof.
  refine (compute_guidance_target_not_obstacle (fun _ => 0%Z)
            [detection "chair" 0.9 (Some [0; 200; 200; 300]%float);
             detection "table" 0.9 (Some [200; 200; 500; 470]%float)]
            "where is the chair" 640 480 _ "chair"
            [detection "chair" 0.9 (Some [0; 200; 200; 300]%float)]
            _ eq_refl eq_refl
            {| Obstacle.name := "table"; Obstacle.distance := "very close";
               Obstacle.position := "center"; Obstacle.threat := "high";
               Obstacle.confidence := 0.9 |} (or_introl eq_refl)).
  intros o [<- | [<- | []]]; reflexivity.
Defined.

(** ** Instruction synthesizer *)

Lemma lookup_mem {V} (k : string) (d : list (string * V)) (v : V) :
  lookup k d = Some v -> In (k, v) d /\ mem_string k (map fst d) = true.
Proof.
  induction d as [| [k' v'] d IH]; cbn [lookup map fst]; [discriminate |].
  unfold mem_string. cbn [existsb In].
  destruct (k =? k') eqn:E.
  - intros [= <-]. apply String.eqb_eq in E. subst. auto.
  - intros H. destruct (IH H) as [Hin Hm]. split; [auto |].
    unfold mem_string in Hm. rewrite Hm. reflexivity.
Qed.

Lemma lookup_none {V} (k : string) (d : list (string * V)) :
  mem_string k (map fst d) = false -> lookup k d = None.
Proof.
  intros H. destruct (lookup k d) as [v |] eqn:E; [| reflexivity].
  apply lookup_mem in E as [_ E]. congruence.
Qed.

Lemma variants_cells (target_ref direction : string) (cells : list (string * list string)) :
  In (direction, cells) (variants target_ref) ->
  In direction free_path_labels /\ map fst cells = cell_distances.
Proof.
  unfold variants. cbn [In].
  intros H.
  repeat (destruct H as [H | H];
          [injection H as <- <-; split; [in_labels | reflexivity] |]).
  contradiction.
Qed.

(** X15. Outside the 35 cells of the phrase table, that is when the direction is
    not a free-path label or the distance is not one of very close, close,
    medium, far and very far (so for "clear" and "unknown"), the instruction
    does not depend on the string hash at all. *)
Theorem path_smoothing_instruction_outside_table (hash1 hash2 : string -> Z)
  (direction_info : Direction.t) (obstacles : list Obstacle.t)
  (target_name : option string) :
  mem_string (Direction.direction direction_info) free_path_labels
  && mem_string (Direction.distance direction_info) cell_distances = false ->
  _path_smoothing_instruction hash1 direction_info obstacles target_name
  = _path_smoothing_instruction hash2 direction_info obstacles target_name.
Proof.
  intros H. unfold _path_smoothing_instruction.
  set (direction := Direction.direction direction_info) in *.
  set (distance := Direction.distance direction_info) in *.
  set (target_ref := target_ref_of _ _).
  assert (Hnone : lookup distance (get_or direction (variants target_ref) []) = None).
  { unfold get_or.
    destruct (lookup direction (variants target_ref)) as [cells |] eqn:E;
      [| reflexivity].
    apply lookup_mem in E as [Hin _].
    apply variants_cells in Hin as [Hdir Hcells].
    apply mem_string_In in Hdir. rewrite Hdir in H. cbn [andb] in H.
    apply lookup_none. rewrite Hcells. exact H. }
  rewrite Hnone. cbn [List.length].
  unfold variant_index. rewrite !Z.mod_1_r. reflexivity.
Qed.

Lemma path_smoothing_instruction_outside_table_witness :
  _path_smoothing_instruction hash_seed_0
    {| Direction.direction := "center"; Direction.distance := "clear";
       Direction.confidence := 0.5; Direction.target_count := None;
       Direction.navigation := None |} [] (Some "path")
  = _path_smoothing_instruction hash_seed_4
      {| Direction.direction := "center"; Direction.distance := "clear";
         Direction.confidence := 0.5; Direction.target_count := None;
         Direction.navigation := None |} [] (Some "path").
Proof.
  apply (path_smoothing_instruction_outside_table hash_seed_0 hash_seed_4).
  reflexivity.
Defined.

(** ** The client shape of a detection *)

Lemma int_of_float_max_zero (v : float) (n : Z) :
  int_of_float (Py.max 0 v) = inr n -> (0 <= n)%Z.
Proof.
  unfold Py.max. destruct (0 <? v)%float eqn:E.
  - apply positive_strict_sign in E. unfold int_of_float.
    destruct (Prim2SF v) as [s | s | | s m e]; cbn [strict_sign] in E;
      try contradiction; try discriminate.
    subst s. intros H. apply inr_inj in H. subst n.
    destruct (0 <=? e)%Z eqn:Ee.
    + apply Z.mul_nonneg_nonneg; [lia | apply Z.pow_nonneg; lia].
    + apply Z.leb_gt in Ee.
      apply Z.div_pos; [lia | apply Z.pow_pos_nonneg; lia].
  - intros H. cbv in H. apply inr_inj in H. lia.
Qed.

(** X16. For a detection with a four-element box the width and height
    [to_client_dict] returns are never negative, whatever the order of the
    box's corners. *)
Theorem to_client_dict_extent_nonnegative (self : ObjectDetection)
  (x1 y1 x2 y2 : float) (d : ClientDict.t) :
  bbox self = Some [x1; y1; x2; y2] ->
  to_client_dict self = inr d ->
  (0 <= ClientDict.w d)%Z /\ (0 <= ClientDict.h d)%Z.
Proof.
  intros Hbox H. unfold to_client_dict in H. rewrite Hbox in H.
  apply bind_inr in H as (x & _ & H).
  apply bind_inr in H as (y & _ & H).
  apply bind_inr in H as (w & Hw & H).
  apply bind_inr in H as (h & Hh & H).
  apply inr_inj in H. subst d. cbn [ClientDict.w ClientDict.h].
  split; eapply int_of_float_max_zero; eassumption.
Qed.

Lemma to_client_dict_extent_nonnegative_witness :
  exists d,
    to_client_dict (detection "chair" 0.9 (Some [200.7; 100; 150.2; 300.9]%float))
    = inr d
    /\ ClientDict.x d = 200%Z /\ ClientDict.w d = 0%Z /\ ClientDict.h d = 200%Z.
Proof.
  eexists. split; [reflexivity |].
  destruct (to_client_dict_extent_nonnegative
              (detection "chair" 0.9 (Some [200.7; 100; 150.2; 300.9]%float))
              200.7 100 150.2 300.9 _ eq_refl eq_refl) as [_ _].
  repeat split.
Defined.

(** ** The guide endpoint *)

Lemma ends_terminal_bracket (a : string) :
  ends_terminal (a ++ "]") = false /\ last_char (a ++ "]") = Some "]"%char.
Proof.
  unfold ends_terminal. rewrite last_char_app by discriminate. auto.
Qed.

Lemma last_char_app_r (a b : string) (c : ascii) :
  last_char b = Some c -> last_char (a ++ b) = Some c.
Proof.
  intros H. rewrite last_char_app; [exact H |]. intros ->. discriminate.
Qed.

(** X17. When the engine resolved a target (navigation detail is present), the
    instruction [real_time_guidance] sends ends with the bracket of the
    appended "[Precise: ...]" clause, not with terminal punctuation; without
    navigation detail it is the engine's instruction unchanged. *)
Theorem guide_response_instruction_ends (g : Guidance.t) :
  (Guidance.navigation_data g <> None ->
   last_char (guide_response_instruction g) = Some "]"%char
   /\ ends_terminal (guide_response_instruction g) = false)
  /\ (Guidance.navigation_data g = None ->
      guide_response_instruction g = Guidance.instruction g).
Proof.
  unfold guide_response_instruction.
  destruct (Guidance.navigation_data g) as [nav |]; split; try congruence.
  intros _.
  assert (H : forall s, last_char s = Some "]"%char ->
                        last_char s = Some "]"%char /\ ends_terminal s = false).
  { intros s Hs. split; [exact Hs |]. unfold ends_terminal. rewrite Hs. reflexivity. }
  apply H.
  destruct (2 <? abs (Navigation.angle_degrees nav))%float;
    repeat (apply last_char_app_r); reflexivity.
Qed.

Lemma guide_response_instruction_ends_witness :
  exists g,
    _compute_guidance (fun _ => 0%Z)
      [detection "chair" 0.9 (Some [0; 200; 200; 300]%float)]
      "where is the chair" 640 480 = inr g
    /\ guide_response_instruction g
       = "Turn 20.6 degrees left, then walk forward at normal pace. Target is far (4.3 meters). [Precise: 20.6° left, 4.3m]"
    /\ ends_terminal (guide_response_instruction g) = false.
Proof.
  eexists. split; [reflexivity |]. split; [reflexivity |].
  refine (proj2 (proj1 (guide_response_instruction_ends _) _)).
  discriminate.
Defined.

(** ** The find-object endpoint *)

(** X18. Every detection the engine's loop selects for a question is also
    selected by [find_specific_object] for the same question: the endpoint's
    two-way test contains the engine's one-way test. *)
Theorem find_object_covers_engine_matches (question : string)
  (objects matches : list ObjectDetection) (t : string) :
  find_target (_extract_targets question) objects = (Some t, matches) ->
  forall o, In o matches ->
            In o (find_object_targets (_extract_targets question) objects).
Proof.
  intros Hfind o Ho.
  apply find_target_selects in Hfind as (Hin & -> & _).
  apply filter_In in Ho as [Ho Hc].
  destruct (extract_targets_lower_fixed question t Hin) as [Hlow _].
  unfold find_object_targets. apply in_flat_map. exists o. split; [exact Ho |].
  apply in_map_iff. exists t. split; [reflexivity |].
  apply filter_In. split; [exact Hin |].
  unfold find_object_match. rewrite Hlow, Hc. reflexivity.
Qed.

Lemma find_object_covers_engine_matches_witness :
  In (detection "chair" 0.9 (Some [0; 200; 200; 300]%float))
     (find_object_targets (_extract_targets "where is the chair")
        [detection "chair" 0.9 (Some [0; 200; 200; 300]%float)]).
Proof.
  apply (find_object_covers_engine_matches "where is the chair"
           [detection "chair" 0.9 (Some [0; 200; 200; 300]%float)]
           [detection "chair" 0.9 (Some [0; 200; 200; 300]%float)] "chair" eq_refl).
  left. reflexivity.
Defined.

(** ** The streaming endpoint *)

Lemma ws_emissions_spaced (msgs : list Ws.message) :
  Forall (fun msg => forall b now i d,
              msg = Ws.Received b now (Ws.FrameGuided i d) -> d = true /\ i <> "") msgs ->
  forall st,
    Sorted ws_spaced (Ws.emissions st msgs)
    /\ HdRel ws_spaced (Ws.last_sent_time st,
                        match Ws.last_instruction st with Some l => l | None => "" end)
             (Ws.emissions st msgs).
Proof.
  induction 1 as [| msg rest Hmsg _ IH]; intros st; cbn [Ws.emissions].
  - split; constructor.
  - destruct msg as [| | [|] now [| i d]]; cbn [Ws.step];
      try (destruct (IH st); split; assumption).
    + destruct (now - Ws.last_sent_time st <? Ws.throttle_seconds)%float;
        destruct (IH st); split; assumption.
    + destruct (Hmsg true now i d eq_refl) as [-> Hne].
      destruct (now - Ws.last_sent_time st <? Ws.throttle_seconds)%float eqn:Ethr;
        [destruct (IH st); split; assumption |].
      destruct (Ws.differs i (Ws.last_instruction st)
                || (Ws.instruction_repeat_sec <? now - Ws.last_sent_time st)%float)
        eqn:Esend.
      * destruct i as [| c s]; [contradiction |].
        destruct (IH {| Ws.last_instruction := Some (String c s);
                        Ws.last_sent_time := now |}) as [Hs Hh].
        cbn [Ws.last_instruction Ws.last_sent_time] in Hh.
        split.
        -- constructor; assumption.
        -- constructor. unfold ws_spaced. cbn [fst snd].
           split; [exact Ethr |].
           apply orb_prop in Esend as [Hd | Hr]; [left | right; exact Hr].
           unfold Ws.differs in Hd.
           destruct (Ws.last_instruction st) as [l |].
           ++ apply negb_true_iff, String.eqb_neq in Hd. congruence.
           ++ discriminate.
      * destruct (IH st); split; assumption.
Qed.

(** X19. In a run of the streaming loop in which every payload is delivered and
    every instruction is non-empty, two instructions sent one after the
    other are never less than 0.3 seconds apart, and they differ unless more
    than 2 seconds separate them. *)
Theorem ws_instructions_spaced (msgs : list Ws.message) :
  Forall (fun msg => forall b now i d,
              msg = Ws.Received b now (Ws.FrameGuided i d) -> d = true /\ i <> "") msgs ->
  Sorted ws_spaced (Ws.emissions Ws.initial msgs).
Proof.
  intros H. apply (ws_emissions_spaced msgs H Ws.initial).
Qed.

Lemma ws_instructions_spaced_witness :
  Sorted ws_spaced [(10, "Turn left."); (13, "Turn left.")]%float.
Proof.
  apply (ws_instructions_spaced
           [Ws.Received true 10 (Ws.FrameGuided "Turn left." true);
            Ws.Received true 10.1 (Ws.FrameGuided "Go ahead." true);
            Ws.Received true 11 (Ws.FrameGuided "Turn left." true);
            Ws.BadJson;
            Ws.Received true 13 (Ws.FrameGuided "Turn left." true)]%float).
  repeat (apply Forall_cons;
          [intros ? ? ? ? Heq;
           first [discriminate Heq
                 | injection Heq; intros; subst; split; [reflexivity | discriminate]] |]).
  apply Forall_nil.
Defined.
(** ** Text recognition *)

Lemma length_append (a b : string) :
  String.length (a ++ b) = (String.length a + String.length b)%nat.
Proof.
  induction a as [| c a IH]; cbn [append String.length]; [reflexivity |].
  rewrite IH. reflexivity.
Qed.

Lemma length_substring_0 (n : nat) (s : string) :
  (n <= String.length s)%nat -> String.length (substring 0 n s) = n.
Proof.
  revert s. induction n as [| n IH]; intros s Hn.
  - destruct s; reflexivity.
  - destruct s as [| c s]; cbn [String.length] in Hn; [lia |].
    cbn [substring String.length]. rewrite IH; [reflexivity | lia].
Qed.

Lemma length_join_head (sep x : string) (l : list string) :
  (String.length x <= String.length (join sep (x :: l)))%nat.
Proof.
  destruct l as [| y l]; cbn [join]; [lia |].
  rewrite length_append. lia.
Qed.

(** X20. When the texts the reader returned are ASCII, the text
    [_extract_text_from_image] returns is empty or has between 2 and 203
    characters. *)
Theorem extract_text_from_image_bounded {B}
  (reading : option (list (B * string * float))) :
  (forall results, reading = Some results ->
                   Forall (fun r => is_ascii (snd (fst r)) = true) results) ->
  _extract_text_from_image reading = ""
  \/ (2 <= String.length (_extract_text_from_image reading) <= 203)%nat.
Proof.
  intros _. destruct reading as [results |]; [| left; reflexivity].
  unfold _extract_text_from_image.
  set (keep := fun '(_, text, confidence) => _).
  assert (Hseg : Forall (fun t => 2 <= String.length t)%nat (flat_map keep results)).
  { apply Forall_flat_map, Forall_forall. intros [[b text] confidence] _.
    unfold keep.
    destruct ((0.5 <? confidence)%float && negb (String.eqb (strip text) ""));
      [| constructor].
    destruct (1 <? String.length (strip text))%nat eqn:E; [| constructor].
    apply Nat.ltb_lt in E. constructor; [lia | constructor]. }
  destruct (flat_map keep results) as [| t segs]; [left; reflexivity |].
  right. apply Forall_inv in Hseg.
  pose proof (length_join_head " " t segs) as Hjoin.
  destruct (200 <? String.length (join " " (t :: segs)))%nat eqn:E.
  - apply Nat.ltb_lt in E.
    rewrite length_append, length_substring_0 by lia.
    change (String.length "...") with 3%nat. lia.
  - apply Nat.ltb_ge in E. lia.
Qed.

Lemma extract_text_from_image_bounded_witness :
  _extract_text_from_image
    (Some [(tt, " EXIT ", 0.9%float); (tt, "a", 0.9%float); (tt, "Gate 12", 0.4%float)])
  = ""
  \/ (2 <= String.length
             (_extract_text_from_image
                (Some [(tt, " EXIT ", 0.9%float); (tt, "a", 0.9%float);
                       (tt, "Gate 12", 0.4%float)]))
       <= 203)%nat.
Proof.
  apply (extract_text_from_image_bounded
           (Some [(tt, " EXIT ", 0.9%float); (tt, "a", 0.9%float);
                  (tt, "Gate 12", 0.4%float)])).
  intros results [= <-]. repeat constructor.
Defined.

(** ** Question answering *)

Lemma contains_char (c : ascii) (s : string) :
  contains (String c "") s = negb (all_chars (fun d => negb (Ascii.eqb d c)) s).
Proof.
  induction s as [| d s IH]; [reflexivity |].
  cbn [contains String.prefix all_chars]. rewrite IH.
  destruct (ascii_dec c d) as [-> | Hne].
  - rewrite Ascii.eqb_refl. destruct s; reflexivity.
  - assert (Ascii.eqb d c = false) as -> by (apply Ascii.eqb_neq; congruence).
    reflexivity.
Qed.

Lemma replace_char_removes (c : ascii) (s : string) :
  all_chars (fun d => negb (Ascii.eqb d c)) (replace (String c "") "" s) = true.
Proof.
  unfold replace.
  induction s as [| d s IH]; [reflexivity |].
  cbn [replace_from String.prefix String.length Nat.sub append].
  destruct (ascii_dec c d) as [-> | Hne].
  - destruct s; exact IH.
  - cbn [all_chars]. rewrite IH.
    assert (Ascii.eqb d c = false) as -> by (apply Ascii.eqb_neq; congruence).
    reflexivity.
Qed.

Lemma lower_char_percent (c : ascii) :
  Ascii.eqb (lower_char c) "%" = Ascii.eqb c "%".
Proof.
  destruct c as [[] [] [] [] [] [] [] []]; reflexivity.
Qed.

Lemma lower_keeps_percent (s : string) :
  all_chars (fun d => negb (Ascii.eqb d "%")) (lower s)
  = all_chars (fun d => negb (Ascii.eqb d "%")) s.
Proof.
  induction s as [| c s IH]; [reflexivity |].
  cbn [lower all_chars]. rewrite IH, lower_char_percent. reflexivity.
Qed.

(** X21. The answer [question_answering] returns never contains a percent sign,
    whatever the model replied. *)
Theorem clean_answer_no_percent (raw_answer : option string) :
  contains "%" (clean_answer raw_answer) = false.
Proof.
  rewrite contains_char. apply negb_false_iff.
  unfold clean_answer, strip. cbn [fold_left].
  apply rstrip_by_all, lstrip_by_all.
  match goal with |- context [if contains "%" (lower ?a) then _ else _] => set (answer := a) end.
  destruct (contains "%" (lower answer)) eqn:E.
  - apply replace_char_removes.
  - rewrite contains_char in E. apply negb_false_iff in E.
    rewrite lower_keeps_percent in E. exact E.
Qed.

(** ** Scene description *)

Lemma horiz_pos_total (o : ObjectDetection) :
  box_shape_ok o -> exists pos, horiz_pos o = inr pos /\ In pos horizontal_positions.
Proof.
  unfold box_shape_ok, horiz_pos, horizontal_positions.
  destruct (bbox o) as [[| x1 [| y1 [| x2 [| y2 [| z l]]]]] |]; try contradiction;
    intros _; cbn zeta;
    repeat match goal with |- context [if ?b then _ else _] => destruct b end;
    eexists; (split; [reflexivity |]); cbn [In]; auto.
Qed.

Lemma total_of_cons (P : string) (e : (string * string) * nat)
  (info : list ((string * string) * nat)) :
  total_of P (e :: info)
  = ((if String.eqb (fst (fst e)) P then snd e else 0) + total_of P info)%nat.
Proof.
  unfold total_of. cbn [filter].
  destruct (String.eqb (fst (fst e)) P); reflexivity.
Qed.

Lemma dict_add_total (P nm pos : string) (info : list ((string * string) * nat)) :
  total_of P (dict_add key_eqb (nm, pos) 1 info)
  = (total_of P info + (if String.eqb nm P then 1 else 0))%nat.
Proof.
  induction info as [| [[n' p'] c] info IH]; cbn [dict_add].
  - rewrite total_of_cons. cbn [fst snd]. unfold total_of. cbn. lia.
  - destruct (key_eqb (nm, pos) (n', p')) eqn:E.
    + unfold key_eqb in E. cbn [fst snd] in E.
      apply andb_prop in E as [E _]. apply String.eqb_eq in E. subst n'.
      rewrite !total_of_cons. cbn [fst snd].
      destruct (String.eqb nm P); lia.
    + rewrite !total_of_cons, IH. lia.
Qed.

Lemma dict_add_positions (nm pos : string) (info : list ((string * string) * nat)) :
  In pos horizontal_positions ->
  Forall (fun e => In (snd (fst e)) horizontal_positions) info ->
  Forall (fun e => In (snd (fst e)) horizontal_positions)
         (dict_add key_eqb (nm, pos) 1 info).
Proof.
  intros Hpos. induction 1 as [| [[n' p'] c] info He Hinfo IH]; cbn [dict_add].
  - constructor; [exact Hpos | constructor].
  - destruct (key_eqb (nm, pos) (n', p')); constructor; auto.
Qed.

Lemma count_objects_spec (objects : list ObjectDetection) :
  Forall box_shape_ok objects ->
  forall info,
    Forall (fun e => In (snd (fst e)) horizontal_positions) info ->
    exists info',
      count_objects info objects = inr info'
      /\ Forall (fun e => In (snd (fst e)) horizontal_positions) info'
      /\ forall P,
          total_of P info'
          = (total_of P info
             + List.length (filter (fun o => String.eqb (name o) P) objects))%nat.
Proof.
  induction 1 as [| o objects Ho _ IH]; intros info Hinfo; cbn [count_objects].
  - exists info. split; [reflexivity |]. split; [exact Hinfo |].
    intros P. cbn. lia.
  - destruct (horiz_pos_total o Ho) as (pos & -> & Hpos). cbn [bind].
    destruct (IH _ (dict_add_positions (name o) pos info Hpos Hinfo))
      as (info' & Hrun & Hok & Htot).
    exists info'. split; [exact Hrun |]. split; [exact Hok |].
    intros P. rewrite Htot, dict_add_total. cbn [filter].
    destruct (String.eqb (name o) P); cbn [List.length]; lia.
Qed.

Lemma dict_set_keys {V} (k k' : string) (v v' : V) (d : list (string * V)) :
  In (k', v') (dict_set String.eqb k v d) -> In k' (map fst d) \/ k' = k.
Proof.
  induction d as [| [k0 v0] d IH]; cbn [dict_set map In fst].
  - intros [[= <- <-] | []]. auto.
  - destruct (String.eqb k k0); cbn [In].
    + intros [[= <- <-] | H]; [auto |].
      left. right. apply in_map_iff. exists (k', v'). auto.
    + intros [[= <- <-] | H]; [auto |].
      destruct (IH H); auto.
Qed.

Lemma dict_set_nonempty {V} (k : string) (v : V) (d : list (string * V)) :
  dict_set String.eqb k v d <> [].
Proof.
  destruct d as [| [k0 v0] d]; cbn [dict_set]; [discriminate |].
  destruct (String.eqb k k0); discriminate.
Qed.

Lemma pos_counts_spec (name : string) (entries : list ((string * string) * nat)) :
  forall d,
    let r :=
      fold_left (fun d '((n, pos), cnt) =>
                   if String.eqb n name then dict_set String.eqb pos cnt d else d)
                entries d in
    (forall k v, In (k, v) r ->
                 In k (map fst d) \/ exists n c, In ((n, k), c) entries)
    /\ (d <> [] -> r <> [])
    /\ ((exists pos c, In ((name, pos), c) entries) -> r <> []).
Proof.
  induction entries as [| [[n pos] cnt] entries IH]; intros d; cbn [fold_left].
  - cbn zeta. split; [| split].
    + intros k v H. left. apply in_map_iff. exists (k, v). auto.
    + auto.
    + intros (? & ? & []).
  - specialize (IH (if String.eqb n name then dict_set String.eqb pos cnt d else d)).
    cbn zeta in IH |- *. destruct IH as (Hk & Hd & He).
    split; [| split].
    + intros k v Hin. destruct (Hk k v Hin) as [H | (n' & c & H)].
      * destruct (String.eqb n name); [| auto].
        apply in_map_iff in H as ([k0 v0] & <- & H). cbn [fst].
        apply dict_set_keys in H as [H | ->]; [auto |].
        right. exists n, cnt. left. reflexivity.
      * right. exists n', c. right. exact H.
    + intros Hne. apply Hd. destruct (String.eqb n name); [| exact Hne].
      apply dict_set_nonempty.
    + intros (pos' & c & [[= -> -> ->] | H]).
      * apply Hd. rewrite String.eqb_refl. apply dict_set_nonempty.
      * apply He. eauto.
Qed.

Lemma max_by_In {A K} (key : A -> K) (lt : K -> K -> bool) (l : list A) (x : A) :
  In (max_by key lt x l) (x :: l).
Proof.
  unfold max_by. revert x.
  induction l as [| y l IH]; intros x; cbn [fold_left]; [left; reflexivity |].
  destruct (IH (if lt (key x) (key y) then y else x)) as [H | H].
  - rewrite <- H. destruct (lt (key x) (key y)); cbn [In]; auto.
  - right. right. exact H.
Qed.

(** What one name of a group adds to the phrases. *)
Lemma name_phrase_spec (ge : list ((string * string) * nat))
  (phrases used : list string) (name : string) (total : nat) :
  Forall (fun e => In (snd (fst e)) horizontal_positions) ge ->
  (exists pos c, In ((name, pos), c) ge) ->
  (mem_string name used = true
   /\ name_phrase ge (phrases, used) (name, total) = inr (phrases, used))
  \/ (mem_string name used = false
      /\ exists pos,
          In pos horizontal_positions
          /\ name_phrase ge (phrases, used) (name, total)
             = inr ((phrases ++ [phrase_of name total pos])%list, name :: used)).
Proof.
  intros Hge Hex. unfold name_phrase.
  destruct (mem_string name used); [left; split; reflexivity |].
  right. split; [reflexivity |].
  destruct (pos_counts_spec name ge []) as (Hk & _ & He). cbn zeta in Hk, He.
  specialize (He Hex).
  match goal with |- context [match ?pc with [] => _ | _ :: _ => _ end] =>
    destruct pc as [| first others] eqn:Epc
  end; [contradiction |].
  exists (fst (max_by snd Nat.ltb first others)). split; [| reflexivity].
  pose proof (max_by_In snd Nat.ltb others first) as Hin.
  destruct (max_by snd Nat.ltb first others) as [k v]. cbn [fst].
  destruct (Hk k v Hin) as [[] | (n & c & H)].
  rewrite Forall_forall in Hge. exact (Hge _ H).
Qed.

Lemma foldM_name_phrase (ge : list ((string * string) * nat))
  (l : list (string * nat)) :
  Forall (fun e => In (snd (fst e)) horizontal_positions) ge ->
  Forall (fun e => exists pos c, In ((fst e, pos), c) ge) l ->
  forall phrases used,
  exists extra used',
    foldM (name_phrase ge) l (phrases, used) = inr ((phrases ++ extra)%list, used').
Proof.
  intros Hge. induction 1 as [| [name total] l He _ IH]; intros phrases used;
    cbn [foldM].
  - exists [], used. rewrite app_nil_r. reflexivity.
  - cbn [fst] in He.
    destruct (name_phrase_spec ge phrases used name total Hge He)
      as [(_ & ->) | (_ & pos & _ & ->)]; cbn [bind].
    + apply IH.
    + match goal with |- context [(phrases ++ [?p])%list] => set (phrase := p) end.
      destruct (IH (phrases ++ [phrase])%list (name :: used)) as (extra & used' & ->).
      exists (phrase :: extra), used'. rewrite <- app_assoc. reflexivity.
Qed.

Lemma dict_add_keys (k k' : string) (n c' : nat) (d : list (string * nat)) :
  In (k', c') (dict_add String.eqb k n d) -> In k' (map fst d) \/ k' = k.
Proof.
  induction d as [| [k0 v0] d IH]; cbn [dict_add map In fst].
  - intros [[= <- <-] | []]. auto.
  - destruct (String.eqb k k0); cbn [In].
    + intros [[= <- <-] | H]; [auto |].
      left. right. apply in_map_iff. exists (k', c'). auto.
    + intros [[= <- <-] | H]; [auto |].
      destruct (IH H); auto.
Qed.

Lemma name_totals_keys (entries : list ((string * string) * nat)) :
  forall d k c,
    In (k, c) (fold_left (fun d '((name, _), cnt) => dict_add String.eqb name cnt d)
                         entries d) ->
    In k (map fst d) \/ exists pos c', In ((k, pos), c') entries.
Proof.
  induction entries as [| [[n pos] cnt] entries IH]; intros d k c; cbn [fold_left].
  - intros H. left. apply in_map_iff. exists (k, c). auto.
  - intros H. destruct (IH _ _ _ H) as [Hin | (pos' & c' & Hin)].
    + apply in_map_iff in Hin as ([k0 v0] & <- & Hin). cbn [fst].
      apply dict_add_keys in Hin as [Hin | ->]; [auto |].
      right. exists pos, cnt. left. reflexivity.
    + right. exists pos', c'. right. exact Hin.
Qed.

Lemma describe_groups_step (info : list ((string * string) * nat))
  (group : list string) (rest : list (list string))
  (phrases used : list string) :
  Forall (fun e => In (snd (fst e)) horizontal_positions) info ->
  let ge := filter (fun '((name, _), _) => mem_string name group) info in
  let name_totals :=
    fold_left (fun d '((name, _), cnt) => dict_add String.eqb name cnt d) ge [] in
  (ge = []
   /\ describe_groups info (group :: rest) (phrases, used)
      = describe_groups info rest (phrases, used))
  \/ (ge <> []
      /\ exists extra used',
          foldM (name_phrase ge) (sort_by fst String.ltb name_totals) (phrases, used)
          = inr ((phrases ++ extra)%list, used')
          /\ describe_groups info (group :: rest) (phrases, used)
             = if (90 <? String.length (join "; " (phrases ++ extra)))%nat
               then inr (phrases ++ extra)%list
               else describe_groups info rest ((phrases ++ extra)%list, used')).
Proof.
  intros Hinfo ge name_totals. cbn [describe_groups]. fold ge. fold name_totals.
  assert (Hge : Forall (fun e => In (snd (fst e)) horizontal_positions) ge).
  { apply Forall_forall. intros e He. apply filter_In in He as [He _].
    rewrite Forall_forall in Hinfo. auto. }
  assert (Hkeys : Forall (fun e => exists pos c, In ((fst e, pos), c) ge)
                         (sort_by fst String.ltb name_totals)).
  { apply Forall_forall. intros [k c] Hin. cbn [fst].
    apply (Permutation_in _ (sort_by_perm fst String.ltb name_totals)) in Hin.
    apply name_totals_keys in Hin as [[] | H]. exact H. }
  destruct (foldM_name_phrase ge _ Hge Hkeys phrases used) as (extra & used' & Hrun).
  destruct ge as [| e ge'] eqn:Ege; [left; split; reflexivity |].
  right. split; [discriminate |].
  exists extra, used'. split; [exact Hrun |].
  rewrite Hrun. cbn [bind fst]. reflexivity.
Qed.

Lemma describe_groups_extends (info : list ((string * string) * nat))
  (groups : list (list string)) :
  Forall (fun e => In (snd (fst e)) horizontal_positions) info ->
  forall phrases used,
  exists extra, describe_groups info groups (phrases, used) = inr (phrases ++ extra)%list.
Proof.
  intros Hinfo. induction groups as [| group rest IH]; intros phrases used.
  - exists []. rewrite app_nil_r. reflexivity.
  - destruct (describe_groups_step info group rest phrases used Hinfo)
      as [(_ & ->) | (_ & extra & used' & _ & ->)]; [apply IH |].
    destruct (90 <? String.length (join "; " (phrases ++ extra)))%nat;
      [exists extra; reflexivity |].
    destruct (IH (phrases ++ extra)%list used') as (extra' & ->).
    exists (extra ++ extra')%list. rewrite app_assoc. reflexivity.
Qed.

(** X22. On detections whose boxes are missing, empty or of four elements,
    [_focused_description] never raises (the [max] over the positions of a
    name is never taken over an empty dict) and never returns the empty
    string. *)
Theorem focused_description_total (objects : list ObjectDetection) :
  Forall box_shape_ok objects ->
  exists s, _focused_description objects = inr s /\ s <> "".
Proof.
  intros Hok. unfold _focused_description.
  destruct objects as [| o objects]; [eexists; split; [reflexivity | discriminate] |].
  destruct (count_objects_spec _ Hok [] (Forall_nil _)) as (info & -> & Hinfo & _).
  cbn [bind].
  destruct (describe_groups_extends info priority_order Hinfo [] []) as (phrases & ->).
  cbn [bind app]. eexists. split; [reflexivity |].
  match goal with |- capitalize ?s <> _ => destruct s eqn:E end.
  - destruct (strip _); discriminate.
  - discriminate.
Qed.

Lemma focused_description_total_witness :
  exists s,
    _focused_description
      [detection "chair" 0.9 (Some [0; 200; 200; 300]%float);
       detection "table" 0.8 None] = inr s
    /\ s <> "".
Proof.
  apply (focused_description_total
           [detection "chair" 0.9 (Some [0; 200; 200; 300]%float);
            detection "table" 0.8 None]).
  repeat constructor.
Defined.

(** *** People come first *)

Lemma digit_facts (c : ascii) :
  is_digit c = true ->
  lower_char c = c /\ upper_char c = c /\ is_space c = false.
Proof.
  destruct c as [[] [] [] [] [] [] [] []]; intros H;
    first [discriminate H | repeat split; reflexivity].
Qed.

Lemma string_of_uint_digits (u : Decimal.uint) :
  all_chars is_digit (NilEmpty.string_of_uint u) = true.
Proof.
  induction u; cbn [NilEmpty.string_of_uint all_chars]; auto.
Qed.

Lemma string_of_nat_digits (n : nat) :
  exists c s, string_of_nat n = String c s
              /\ is_digit c = true /\ all_chars is_digit s = true.
Proof.
  unfold string_of_nat, string_of_Z, NilZero.string_of_uint.
  pose proof (string_of_uint_digits (N.to_uint (Z.to_N (Z.of_nat n)))) as H.
  destruct (N.to_uint (Z.to_N (Z.of_nat n))); cbn [NilEmpty.string_of_uint] in *;
    eexists; eexists; (split; [reflexivity |]); split; try reflexivity;
    cbn [all_chars] in H; try exact H.
Qed.

Lemma tidy_digits_app (d q : string) :
  all_chars is_digit d = true -> tidy q = true -> tidy (d ++ q) = true.
Proof.
  intros Hd Hq. induction d as [| c d IH]; cbn [append]; [exact Hq |].
  cbn [all_chars] in Hd. apply andb_prop in Hd as [Hc Hd].
  destruct (digit_facts c Hc) as (Hl & _ & Hs).
  cbn [tidy]. rewrite Hl, Hs, Ascii.eqb_refl, (IH Hd). reflexivity.
Qed.

Lemma tidy_lower (s : string) : tidy s = true -> lower s = s.
Proof.
  induction s as [| c s IH]; cbn [tidy lower]; [reflexivity |].
  intros H. apply andb_prop in H as [H Hs]. apply andb_prop in H as [Hc _].
  apply Ascii.eqb_eq in Hc. rewrite Hc, (IH Hs). reflexivity.
Qed.

Lemma replace_tidy (p r : string) :
  tidy p = true ->
  replace "  " " " (p ++ r) = p ++ replace "  " " " r.
Proof.
  unfold replace. induction p as [| c p IH]; cbn [append]; [reflexivity |].
  cbn [tidy]. intros H. apply andb_prop in H as [H Hp].
  apply andb_prop in H as [_ Hc].
  cbn [replace_from String.prefix].
  destruct (ascii_dec " " c) as [<- | Hne].
  - change (is_space " ") with true in Hc. cbv iota in Hc.
    destruct p as [| c' p]; [discriminate |]. cbn [append String.prefix].
    destruct (ascii_dec " " c') as [<- | Hne']; [discriminate |].
    specialize (IH Hp). cbn [append] in IH. rewrite IH. reflexivity.
  - rewrite (IH Hp). reflexivity.
Qed.

Lemma rstrip_tidy (p r : string) :
  tidy p = true -> p <> "" ->
  rstrip_by is_space (p ++ r) = p ++ rstrip_by is_space r.
Proof.
  induction p as [| c p IH]; [contradiction |].
  cbn [tidy]. intros H _. apply andb_prop in H as [H Hp].
  apply andb_prop in H as [_ Hc].
  cbn [append rstrip_by].
  destruct p as [| c' p].
  - cbn [append]. destruct (is_space c); [discriminate |].
    destruct (rstrip_by is_space r); reflexivity.
  - rewrite (IH Hp) by discriminate. reflexivity.
Qed.

Lemma string_app_assoc (a b c : string) : (a ++ b) ++ c = a ++ b ++ c.
Proof.
  induction a as [| x a IH]; cbn [append]; [reflexivity |].
  rewrite IH. reflexivity.
Qed.

Lemma join_head (sep x : string) (l : list string) :
  exists r, join sep (x :: l) = x ++ r.
Proof.
  destruct l as [| y l]; cbn [join].
  - exists "". induction x as [| c x IH]; cbn [append]; congruence.
  - eexists. reflexivity.
Qed.

Lemma name_totals_single (P : string) (entries : list ((string * string) * nat)) :
  Forall (fun e => fst (fst e) = P) entries ->
  forall a,
    fold_left (fun d '((name, _), cnt) => dict_add String.eqb name cnt d)
              entries [(P, a)]
    = [(P, (a + list_sum (map snd entries))%nat)].
Proof.
  induction 1 as [| [[n pos] cnt] entries He _ IH]; intros a; cbn [fold_left].
  - cbn [map list_sum]. rewrite Nat.add_0_r. reflexivity.
  - cbn [fst] in He. subst n. cbn [dict_add]. rewrite String.eqb_refl, IH.
    do 2 f_equal. cbn [map snd]. unfold list_sum. cbn [fold_right]. lia.
Qed.

(** X23. When [n > 0] detections are called "person" (and every box is
    missing, empty or of four elements), the description starts with the
    people: their number, "person" or "persons", and one of left, center and
    right. *)
Theorem focused_description_person_first (objects : list ObjectDetection) (n : nat) :
  Forall box_shape_ok objects ->
  List.length (filter (fun o => String.eqb (name o) "person") objects) = n ->
  (0 < n)%nat ->
  exists pos rest,
    In pos horizontal_positions
    /\ _focused_description objects
       = inr (string_of_nat n ++ (if (1 <? n)%nat then " persons " else " person ")
                ++ pos ++ rest).
Proof.
  intros Hok Hn Hpos. unfold _focused_description.
  destruct objects as [| o objects]; [cbn in Hn; lia |].
  destruct (count_objects_spec _ Hok [] (Forall_nil _)) as (info & -> & Hinfo & Htot).
  cbn [bind]. specialize (Htot "person"). rewrite Hn in Htot.
  change (total_of "person" []) with 0%nat in Htot. cbn [Nat.add] in Htot.
  (* the first group *)
  unfold priority_order.
  destruct (describe_groups_step info ["person"] (tl priority_order) [] [] Hinfo)
    as [(Hge & _) | (Hge & extra & used' & Hrun & Hstep)].
  { exfalso. unfold total_of in Htot.
    rewrite (filter_ext _ (fun '((name, _), _) => mem_string name ["person"])) in Htot.
    - rewrite Hge in Htot. cbn in Htot. lia.
    - intros [[nm p] c]. cbn [fst mem_string existsb]. rewrite orb_false_r. reflexivity. }
  unfold priority_order in Hstep. cbn [tl] in Hstep. rewrite Hstep. clear Hstep.
  set (ge := filter (fun '((name, _), _) => mem_string name ["person"]) info) in *.
  assert (Hnames : Forall (fun e => fst (fst e) = "person") ge).
  { apply Forall_forall. intros [[nm p] c] He. apply filter_In in He as [_ He].
    cbn [mem_string existsb] in He. rewrite orb_false_r in He.
    apply String.eqb_eq in He. exact He. }
  assert (Hsum : list_sum (map snd ge) = n).
  { rewrite <- Htot. unfold total_of, ge. f_equal. f_equal.
    apply filter_ext. intros [[nm p] c]. cbn [fst mem_string existsb].
    rewrite orb_false_r. reflexivity. }
  assert (Hgepos : Forall (fun e => In (snd (fst e)) horizontal_positions) ge).
  { apply Forall_forall. intros e He. apply filter_In in He as [He _].
    rewrite Forall_forall in Hinfo. auto. }
  assert (Htotals :
            fold_left (fun d '((name, _), cnt) => dict_add String.eqb name cnt d) ge []
            = [("person", n)]).
  { rewrite <- Hsum. clearbody ge.
    destruct ge as [| [[nm p] c] ge']; [contradiction |].
    pose proof (Forall_inv Hnames) as Hnm. cbn [fst] in Hnm. subst nm.
    cbn [fold_left dict_add].
    rewrite (name_totals_single "person" ge' (Forall_inv_tail Hnames)).
    reflexivity. }
  rewrite Htotals in Hrun. cbn [sort_by fold_right insert_by foldM] in Hrun.
  destruct (name_phrase_spec ge [] [] "person" n Hgepos) as [(Hmem & _) | (_ & pos & Hin & Hphrase)].
  { clearbody ge. destruct ge as [| [[nm p] c] ge']; [contradiction |].
    pose proof (Forall_inv Hnames) as Hnm. cbn [fst] in Hnm. subst nm.
    exists p, c. left. reflexivity. }
  { discriminate Hmem. }
  rewrite Hphrase in Hrun. cbn [bind app] in Hrun. unfold ret in Hrun.
  assert (Hextra : extra = [phrase_of "person" n pos]) by congruence.
  subst extra. clear Hrun. cbn [app].
  (* the phrases begin with the people *)
  match goal with |- context [bind ?m _] =>
    assert (Hphrases : exists more, m = inr (phrase_of "person" n pos :: more))
  end.
  { destruct (90 <? String.length (join "; " [phrase_of "person" n pos]))%nat;
      [exists []; reflexivity |].
    destruct (describe_groups_extends info
                [["car"; "bus"; "truck"; "motorcycle"; "bicycle"];
                 ["dog"; "cat"]; ["chair"; "bench"]] Hinfo
                [phrase_of "person" n pos] used') as (more & ->).
    exists more. reflexivity. }
  destruct Hphrases as (more & ->). cbn [bind].
  destruct (join_head "; " (phrase_of "person" n pos) more) as (r & ->).
  (* the phrase is left alone by the clean-up *)
  assert (Hshape : exists c s,
             phrase_of "person" n pos
             = String c s
             /\ is_digit c = true /\ tidy (String c s) = true
             /\ String c s
                = string_of_nat n ++ (if (1 <? n)%nat then " persons " else " person ")
                    ++ pos).
  { unfold phrase_of, plural. change (last_char "person") with (Some "n"%char).
    change (negb (Ascii.eqb "n" "s")) with true. rewrite andb_true_r.
    destruct (string_of_nat_digits n) as (c & s & Hs & Hc & Hds).
    destruct (n =? 1)%nat eqn:E1.
    - apply Nat.eqb_eq in E1. rewrite E1.
      exists "1"%char, (" person " ++ pos).
      split; [reflexivity |]. split; [reflexivity |].
      split; [| reflexivity].
      cbn [In horizontal_positions] in Hin.
      destruct Hin as [<- | [<- | [<- | []]]]; reflexivity.
    - apply Nat.eqb_neq in E1.
      assert ((1 <? n)%nat = true) as -> by (apply Nat.ltb_lt; lia).
      rewrite Hs. exists c, (s ++ " persons " ++ pos).
      split; [reflexivity |]. split; [exact Hc |].
      split; [| reflexivity].
      change (String c (s ++ " persons " ++ pos))
        with (String c s ++ " persons " ++ pos).
      apply tidy_digits_app; [cbn [all_chars]; rewrite Hc; exact Hds |].
      cbn [In horizontal_positions] in Hin.
      destruct Hin as [<- | [<- | [<- | []]]]; reflexivity. }
  destruct Hshape as (c & s & Hp & Hc & Htidy & Heq).
  rewrite Hp. rewrite replace_tidy by exact Htidy.
  unfold strip. cbn [append lstrip_by].
  destruct (digit_facts c Hc) as (_ & Hup & Hsp). rewrite Hsp.
  change (String c (s ++ ?x)) with (String c s ++ x).
  rewrite rstrip_tidy by (exact Htidy || discriminate).
  cbn [append capitalize]. rewrite Hup, lower_app.
  cbn [tidy] in Htidy. apply andb_prop in Htidy as [_ Hs].
  rewrite (tidy_lower s Hs).
  exists pos. eexists. split; [exact Hin |].
  change (String c (s ++ ?x)) with (String c s ++ x). rewrite Heq.
  rewrite !string_app_assoc. reflexivity.
Qed.

Lemma focused_description_person_first_witness :
  exists pos rest,
    In pos horizontal_positions
    /\ _focused_description
         [detection "car" 0.9 (Some [300; 200; 400; 300]%float);
          detection "person" 0.9 (Some [0; 200; 200; 300]%float);
          detection "person" 0.8 (Some [500; 200; 600; 300]%float)]
       = inr ("2 persons " ++ pos ++ rest).
Proof.
  apply (focused_description_person_first
           [detection "car" 0.9 (Some [300; 200; 400; 300]%float);
            detection "person" 0.9 (Some [0; 200; 200; 300]%float);
            detection "person" 0.8 (Some [500; 200; 600; 300]%float)] 2).
  - repeat constructor.
  - reflexivity.
  - lia.
Defined.
